(** * Workstream orchestrator: transport client, protocol parser,
    working-copy provider and workstream coordinator.

    A shallow embedding of [client.ts], [worktree.ts] and
    [workstream-manager.ts].

    Conventions of the embedding.
    - A JavaScript string is a [string]; every character stands for one
      code unit (code units above 255 are outside the model).
    - A JavaScript number is a [Z] (identifiers and counters only; the
      model does not follow doubles past 2^53).
    - [params], [result] and every other value typed [unknown] in the
      source is a [jsval]; an absent property is [VUndef].
    - A function that can throw returns a [result]; a function that
      mutates an object returns the new object.
    - A JavaScript [Map] is a [gmap]: what it holds under each key. The
      order in which a [Map] lists its entries is not part of the model,
      and neither are the functions that only read that order. *)

From stdpp Require Import gmap strings list fin_maps.
From Stdlib Require Import ZArith Ascii String.

Local Open Scope string_scope.
Local Open Scope Z_scope.
Local Open Scope list_scope.

Set Warnings "-register-all".

(** ** JavaScript values, exceptions *)

Module JS.

Inductive jsval : Type :=
| VUndef
| VNull
| VBool (b : bool)
| VNum (n : Z)
| VStr (s : string)
| VArr (items : list jsval)
| VObj (props : list (string * jsval)).

(** Thrown values: [new Error(msg)] and the engine's [TypeError]. *)
Inductive js_error : Type :=
| Error (message : string)
| TypeError (message : string).

Definition error_message (e : js_error) : string :=
  match e with Error m => m | TypeError m => m end.

Inductive result (A : Type) : Type :=
| Ok (a : A)
| Throw (e : js_error).
Arguments Ok {A} a.
Arguments Throw {A} e.

Definition bind {A B} (r : result A) (k : A -> result B) : result B :=
  match r with Ok a => k a | Throw e => Throw e end.

Definition throws {A} (r : result A) : Prop :=
  match r with Ok _ => False | Throw _ => True end.

(** Own property of an object literal / parsed JSON object. *)
Fixpoint own (k : string) (props : list (string * jsval)) : jsval :=
  match props with
  | [] => VUndef
  | (k', v) :: rest => if String.eqb k k' then v else own k rest
  end.

(** [v.k]: reading a property of [undefined] or [null] throws. None of
    the property names read by the source is defined on the prototypes
    of strings, numbers, booleans or arrays, so those give [undefined]. *)
Definition get (v : jsval) (k : string) : result jsval :=
  match v with
  | VUndef => Throw (TypeError ("Cannot read properties of undefined (reading '" +:+ k +:+ "')"))
  | VNull => Throw (TypeError ("Cannot read properties of null (reading '" +:+ k +:+ "')"))
  | VObj props => Ok (own k props)
  | _ => Ok VUndef
  end.

(** [v?.k] *)
Definition get_opt (v : jsval) (k : string) : jsval :=
  match v with
  | VObj props => own k props
  | _ => VUndef
  end.

Definition truthy (v : jsval) : bool :=
  match v with
  | VUndef | VNull => false
  | VBool b => b
  | VNum n => negb (n =? 0)
  | VStr s => negb (String.eqb s EmptyString)
  | VArr _ | VObj _ => true
  end.

(** [a || b] *)
Definition or_else (a b : jsval) : jsval := if truthy a then a else b.

(** An optional string property ([x?: string]) as a value. *)
Definition of_opt_string (o : option string) : jsval :=
  match o with Some s => VStr s | None => VUndef end.

(** [`${x}`] for an optional string. *)
Definition template (o : option string) : string :=
  match o with Some s => s | None => "undefined" end.

(** [c.toLowerCase()] on one code unit below 256: the letters A-Z and
    the capital letters of the Latin-1 supplement have a lower case. *)
Definition lower_char (c : ascii) : ascii :=
  let n := nat_of_ascii c in
  if ((65 <=? n) && (n <=? 90) || (192 <=? n) && (n <=? 222) && negb (n =? 215))%nat
  then ascii_of_nat (n + 32)
  else c.

(** [s.toLowerCase()] *)
Fixpoint toLowerCase (s : string) : string :=
  match s with
  | EmptyString => EmptyString
  | String c s' => String (lower_char c) (toLowerCase s')
  end.

(** [s.slice(0, n)] *)
Fixpoint slice0 (n : nat) (s : string) : string :=
  match n, s with
  | S n', String c s' => String c (slice0 n' s')
  | _, _ => EmptyString
  end.

End JS.

Export JS.

Notation "x <- r ;; k" := (JS.bind r (fun x => k))
  (at level 100, r at next level, right associativity).

(** ** Transport client and protocol parser ([client.ts]) *)

Module Client.

(** [id?: string | number] *)
Definition MsgId : Type := (Z + string)%type.

(** [error?: { code; message; data? }] *)
Record RpcError := {
  err_code : Z;
  err_message : string;
  err_data : jsval
}.

Record AcpMessage := {
  jsonrpc : string;
  msg_id : option MsgId;
  msg_method : option string;
  msg_params : jsval;
  msg_result : jsval;
  msg_error : option RpcError
}.

(** Closures are known by their identity (as [indexOf] compares them). *)
Definition handler : Type := nat.

(** The promise returned by a call of [sendRequest]; its [resolve] and
    [reject] functions are what [pendingRequests] stores. *)
Definition promise : Type := Z.

Record AcpClient := {
  baseUrl : string;
  sessionId : option string;
  eventSource : option string;
  messageHandlers : list handler;
  errorHandlers : list handler;
  requestHandlers : gmap string handler;
  requestId : Z;
  pendingRequests : gmap MsgId promise
}.

(** What a step of the client does to the outside. *)
Inductive Effect :=
| Resolved (p : promise) (value : jsval)
| Rejected (p : promise) (e : js_error)
| RequestHandlerInvoked (h : handler) (m : AcpMessage)
| MessageDelivered (h : handler) (m : AcpMessage)
| ErrorDelivered (h : handler) (e : js_error)
| Posted (url : string) (m : AcpMessage)
| StreamOpened (url : string)
| StreamClosed.

(** The outcome of a [fetch]. *)
Inductive FetchReply :=
| NetworkFailure (e : js_error)
| HttpReply (ok : bool) (statusText : string).

(** The outcome of [POST /acp/session]: the body is [{session_id}]. *)
Inductive SessionReply :=
| SessionNetworkFailure (e : js_error)
| SessionHttp (ok : bool) (statusText : string) (session_id : string).

(** [s.replace(/\/$/, '')] *)
Fixpoint strip_trailing_slash (s : string) : string :=
  match s with
  | EmptyString => EmptyString
  | String c EmptyString => if Ascii.eqb c "/" then EmptyString else s
  | String c s' => String c (strip_trailing_slash s')
  end.

Definition new_AcpClient (config_baseUrl : string) : AcpClient := {|
  baseUrl := strip_trailing_slash config_baseUrl;
  sessionId := None;
  eventSource := None;
  messageHandlers := [];
  errorHandlers := [];
  requestHandlers := ∅;
  requestId := 0;
  pendingRequests := ∅
|}.

Definition getSessionId (c : AcpClient) : option string := sessionId c.

Definition isConnected (c : AcpClient) : bool :=
  bool_decide (is_Some (sessionId c)) && bool_decide (is_Some (eventSource c)).

(** Truthiness of a [string | null] / [string | undefined]. *)
Definition string_truthy (o : option string) : bool :=
  match o with
  | Some s => negb (String.eqb s EmptyString)
  | None => false
  end.

Definition with_session (sid : option string) (es : option string) (c : AcpClient) : AcpClient := {|
  baseUrl := baseUrl c;
  sessionId := sid;
  eventSource := es;
  messageHandlers := messageHandlers c;
  errorHandlers := errorHandlers c;
  requestHandlers := requestHandlers c;
  requestId := requestId c;
  pendingRequests := pendingRequests c
|}.

Definition with_pending (n : Z) (p : gmap MsgId promise) (c : AcpClient) : AcpClient := {|
  baseUrl := baseUrl c;
  sessionId := sessionId c;
  eventSource := eventSource c;
  messageHandlers := messageHandlers c;
  errorHandlers := errorHandlers c;
  requestHandlers := requestHandlers c;
  requestId := n;
  pendingRequests := p
|}.

Definition with_handlers (mh eh : list handler) (rh : gmap string handler) (c : AcpClient) : AcpClient := {|
  baseUrl := baseUrl c;
  sessionId := sessionId c;
  eventSource := eventSource c;
  messageHandlers := mh;
  errorHandlers := eh;
  requestHandlers := rh;
  requestId := requestId c;
  pendingRequests := pendingRequests c
|}.

Definition stream_url (c : AcpClient) : string :=
  baseUrl c +:+ "/acp/session/" +:+ match sessionId c with Some s => s | None => "null" end +:+ "/stream".

Definition message_url (c : AcpClient) : string :=
  baseUrl c +:+ "/acp/session/" +:+ match sessionId c with Some s => s | None => "null" end +:+ "/message".

(** [connect()], at the moment the session reply arrives. *)
Definition connect (reply : SessionReply) (c : AcpClient) : AcpClient * list Effect * result string :=
  match reply with
  | SessionNetworkFailure e => (c, [], Throw e)
  | SessionHttp false statusText _ =>
      (c, [], Throw (Error ("Failed to create session: " +:+ statusText)))
  | SessionHttp true _ session_id =>
      let c1 := with_session (Some session_id) (eventSource c) c in
      let url := stream_url c1 in
      (with_session (Some session_id) (Some url) c1, [StreamOpened url], Ok session_id)
  end.

(** [eventSource.onerror] *)
Definition onSseError (c : AcpClient) : list Effect :=
  map (fun h => ErrorDelivered h (Error "SSE connection error")) (errorHandlers c).

Definition notifyMessageHandlers (message : AcpMessage) (c : AcpClient) : list Effect :=
  map (fun h => MessageDelivered h message) (messageHandlers c).

(** [handleMessage], up to the call of a request handler (whose
    settlement is [requestHandlerSettled] below). *)
Definition handleMessage (message : AcpMessage) (c : AcpClient) : AcpClient * list Effect :=
  match msg_id message ≫= (fun i => (fun p => (i, p)) <$> pendingRequests c !! i) with
  | Some (i, pending) =>
      let c' := with_pending (requestId c) (delete i (pendingRequests c)) c in
      match msg_error message with
      | Some err => (c', [Rejected pending (Error (err_message err))])
      | None => (c', [Resolved pending (msg_result message)])
      end
  | None =>
      if string_truthy (msg_method message) && bool_decide (is_Some (msg_id message)) then
        match requestHandlers c !! default EmptyString (msg_method message) with
        | Some h => (c, [RequestHandlerInvoked h message])
        | None => (c, notifyMessageHandlers message c)
        end
      else (c, notifyMessageHandlers message c)
  end.

Definition send (message : AcpMessage) (reply : FetchReply) (c : AcpClient) : list Effect * result unit :=
  match reply with
  | NetworkFailure e => ([Posted (message_url c) message], Throw e)
  | HttpReply true _ => ([Posted (message_url c) message], Ok tt)
  | HttpReply false statusText =>
      ([Posted (message_url c) message], Throw (Error ("Failed to send message: " +:+ statusText)))
  end.

Definition request_envelope (i : option MsgId) (method : option string) (params : jsval) : AcpMessage := {|
  jsonrpc := "2.0"; msg_id := i; msg_method := method; msg_params := params;
  msg_result := VUndef; msg_error := None
|}.

Definition sendRequest (method : string) (params : jsval) (reply : FetchReply) (c : AcpClient)
  : AcpClient * list Effect * result promise :=
  if negb (string_truthy (sessionId c)) then (c, [], Throw (Error "Not connected"))
  else
    let i := requestId c + 1 in
    let c' := with_pending i (<[inl i := i]> (pendingRequests c)) c in
    match send (request_envelope (Some (inl i)) (Some method) params) reply c' with
    | (effs, Ok _) => (c', effs, Ok i)
    | (effs, Throw e) => (c', effs, Throw e)
    end.

Definition sendNotification (method : string) (params : jsval) (reply : FetchReply) (c : AcpClient)
  : list Effect * result unit :=
  if negb (string_truthy (sessionId c)) then ([], Throw (Error "Not connected"))
  else send (request_envelope None (Some method) params) reply c.

Definition sendResponse (request : MsgId) (value : jsval) (reply : FetchReply) (c : AcpClient)
  : list Effect * result unit :=
  send {| jsonrpc := "2.0"; msg_id := Some request; msg_method := None; msg_params := VUndef;
          msg_result := value; msg_error := None |} reply c.

Definition sendErrorResponse (request : MsgId) (message : string) (reply : FetchReply) (c : AcpClient)
  : list Effect * result unit :=
  send {| jsonrpc := "2.0"; msg_id := Some request; msg_method := None; msg_params := VUndef;
          msg_result := VUndef;
          msg_error := Some {| err_code := -32000; err_message := message; err_data := VUndef |} |}
       reply c.

(** The rest of [handleMessage] once the request handler's promise has
    settled: answer with the value, or with an error envelope. *)
Definition requestHandlerSettled (request : MsgId) (outcome : result jsval)
    (reply reply' : FetchReply) (c : AcpClient) : list Effect * result unit :=
  match outcome with
  | Ok value =>
      match sendResponse request value reply c with
      | (effs, Ok _) => (effs, Ok tt)
      | (effs, Throw e) =>
          let '(effs', r) := sendErrorResponse request (error_message e) reply' c in
          (effs ++ effs', r)
      end
  | Throw e => sendErrorResponse request (error_message e) reply c
  end.

Definition onMessage (h : handler) (c : AcpClient) : AcpClient :=
  with_handlers (messageHandlers c ++ [h]) (errorHandlers c) (requestHandlers c) c.

Definition onError (h : handler) (c : AcpClient) : AcpClient :=
  with_handlers (messageHandlers c) (errorHandlers c ++ [h]) (requestHandlers c) c.

Definition onRequest (method : string) (h : handler) (c : AcpClient) : AcpClient :=
  with_handlers (messageHandlers c) (errorHandlers c) (<[method := h]> (requestHandlers c)) c.

Definition disconnect (c : AcpClient) : AcpClient * list Effect :=
  (with_handlers (messageHandlers c) (errorHandlers c) ∅
     (with_pending (requestId c) ∅ (with_session None None c)),
   match eventSource c with Some _ => [StreamClosed] | None => [] end).

(** *** [parseSessionUpdate] *)

Inductive UpdateType :=
| text
| thought
| tool_call
| tool_update
| permission_request
| unknown.

(** The returned object [{ type, sessionId?, data? }]. *)
Record SessionUpdate := {
  type : UpdateType;
  su_sessionId : jsval;
  data : jsval
}.

(** [params.update.content?.text || ''] *)
Definition chunk_text (params : jsval) : result jsval :=
  update <- get params "update";;
  content <- get update "content";;
  Ok (or_else (get_opt content "text") (VStr EmptyString)).

(** The [switch (updateType)]: [None] when no case matches. *)
Definition session_update_case (updateType : jsval) (params : jsval) : result (option SessionUpdate) :=
  match updateType with
  | VStr s =>
      if String.eqb s "agent_message_chunk" then
        sid <- get params "sessionId";;
        txt <- chunk_text params;;
        Ok (Some {| type := text; su_sessionId := sid; data := txt |})
      else if String.eqb s "agent_thought_chunk" then
        sid <- get params "sessionId";;
        txt <- chunk_text params;;
        Ok (Some {| type := thought; su_sessionId := sid; data := txt |})
      else if String.eqb s "tool_call" then
        sid <- get params "sessionId";;
        update <- get params "update";;
        i <- get update "id";;
        title <- get update "title";;
        status <- get update "status";;
        Ok (Some {| type := tool_call; su_sessionId := sid;
                    data := VObj [("id", i); ("title", title); ("status", status)] |})
      else if String.eqb s "tool_call_update" then
        sid <- get params "sessionId";;
        update <- get params "update";;
        i <- get update "id";;
        fields <- get update "fields";;
        Ok (Some {| type := tool_update; su_sessionId := sid;
                    data := VObj [("id", i); ("status", get_opt fields "status");
                                  ("content", get_opt fields "content")] |})
      else Ok None
  | _ => Ok None
  end.

(** [message.method === name] *)
Definition method_is (name : string) (message : AcpMessage) : bool :=
  match msg_method message with
  | Some s => String.eqb s name
  | None => false
  end.

Definition parseSessionUpdate (message : AcpMessage) : result SessionUpdate :=
  let params := msg_params message in
  hit <- (if method_is "session/update" message then
            update <- get params "update";;
            session_update_case (get_opt update "sessionUpdate") params
          else Ok None);;
  match hit with
  | Some r => Ok r
  | None =>
      if method_is "request_permission" message then
        sid <- get params "sessionId";;
        Ok {| type := permission_request; su_sessionId := sid; data := params |}
      else Ok {| type := unknown; su_sessionId := VUndef; data := VUndef |}
  end.

(** *** Runs of a client *)

(** What can happen to a client: calls of its methods (with the reply
    the network gives) and events of its stream. *)
Inductive Op :=
| Connect (reply : SessionReply)
| SendRequest (method : string) (params : jsval) (reply : FetchReply)
| SendNotification (method : string) (params : jsval) (reply : FetchReply)
| Receive (message : AcpMessage)
| OnMessage (h : handler)
| OnError (h : handler)
| OnRequest (method : string) (h : handler)
| SseError
| Disconnect.

Definition step (op : Op) (c : AcpClient) : AcpClient * list Effect :=
  match op with
  | Connect reply => let '(c', effs, _) := connect reply c in (c', effs)
  | SendRequest method params reply => let '(c', effs, _) := sendRequest method params reply c in (c', effs)
  | SendNotification method params reply => (c, fst (sendNotification method params reply c))
  | Receive message => handleMessage message c
  | OnMessage h => (onMessage h c, [])
  | OnError h => (onError h c, [])
  | OnRequest method h => (onRequest method h c, [])
  | SseError => (c, onSseError c)
  | Disconnect => disconnect c
  end.

Fixpoint run (ops : list Op) (c : AcpClient) : AcpClient * list Effect :=
  match ops with
  | [] => (c, [])
  | op :: rest =>
      let '(c1, effs1) := step op c in
      let '(c2, effs2) := run rest c1 in
      (c2, effs1 ++ effs2)
  end.

(** The calls of [sendRequest] that a list of effects settles. *)
Fixpoint settled (effs : list Effect) : list promise :=
  match effs with
  | [] => []
  | Resolved p _ :: rest => p :: settled rest
  | Rejected p _ :: rest => p :: settled rest
  | _ :: rest => settled rest
  end.

(** Envelopes of the session updates, for the optional properties of
    [SessionNotificationParams]. *)
Definition session_update (sid : string) (update : list (string * jsval)) : AcpMessage := {|
  jsonrpc := "2.0";
  msg_id := None;
  msg_method := Some "session/update";
  msg_params := VObj [("sessionId", VStr sid); ("update", VObj update)];
  msg_result := VUndef;
  msg_error := None
|}.

Definition agent_message_chunk (sid : string) (txt : option string) : AcpMessage :=
  session_update sid
    [("sessionUpdate", VStr "agent_message_chunk");
     ("content", VObj [("type", VStr "text"); ("text", of_opt_string txt)])].

Definition tool_call_message (sid : string) (i title st : option string) : AcpMessage :=
  session_update sid
    [("sessionUpdate", VStr "tool_call"); ("id", of_opt_string i);
     ("title", of_opt_string title); ("status", of_opt_string st)].

Definition tool_call_update_message (sid : string) (i st : option string) : AcpMessage :=
  session_update sid
    [("sessionUpdate", VStr "tool_call_update"); ("id", of_opt_string i);
     ("fields", VObj [("status", of_opt_string st)])].

(** The bookkeeping behind the request ids: every pending entry is keyed
    by the number of its own call, no number above the counter is in use,
    and a call that was settled is pending no more. *)
Record client_inv (c : AcpClient) (done : list promise) : Prop := {
  inv_keys : forall k p, pendingRequests c !! k = Some p -> k = inl p /\ p <= requestId c;
  inv_done : forall p, p ∈ done -> p <= requestId c /\ pendingRequests c !! (inl p : MsgId) = None;
  inv_nodup : NoDup done
}.

(** The classification table of the specification: the tag by method and
    by the [sessionUpdate] discriminator. *)
Definition table_tag (message : AcpMessage) : UpdateType :=
  if method_is "session/update" message then
    match get_opt (get_opt (msg_params message) "update") "sessionUpdate" with
    | VStr s =>
        if String.eqb s "agent_message_chunk" then text
        else if String.eqb s "agent_thought_chunk" then thought
        else if String.eqb s "tool_call" then tool_call
        else if String.eqb s "tool_call_update" then tool_update
        else unknown
    | _ => unknown
    end
  else if method_is "request_permission" message then permission_request
  else unknown.

(** A connected client with one request under way, and its answer. *)
Definition demo_client : AcpClient :=
  fst (run [Connect (SessionHttp true "OK" "s1");
            SendRequest "initialize" VNull (HttpReply true "OK")]
         (new_AcpClient "http://127.0.0.1:3284/")).

Definition demo_response : AcpMessage := {|
  jsonrpc := "2.0";
  msg_id := Some (inl 1);
  msg_method := None;
  msg_params := VUndef;
  msg_result := VStr "ready";
  msg_error := None
|}.

(** The envelope [{"jsonrpc":"2.0","method":"session/update"}]. *)
Definition update_without_params : AcpMessage := {|
  jsonrpc := "2.0";
  msg_id := None;
  msg_method := Some "session/update";
  msg_params := VUndef;
  msg_result := VUndef;
  msg_error := None
|}.

(** *** Deregistration, and envelopes of the remote *)

(** [splice(i, 1)] at the first index of [h], when there is one. *)
Fixpoint remove_handler (h : handler) (l : list handler) : list handler :=
  match l with
  | [] => []
  | x :: rest => if Nat.eqb x h then rest else x :: remove_handler h rest
  end.

(** The functions [onMessage], [onError] and [onRequest] return. *)
Definition offMessage (h : handler) (c : AcpClient) : AcpClient :=
  with_handlers (remove_handler h (messageHandlers c)) (errorHandlers c) (requestHandlers c) c.

Definition offError (h : handler) (c : AcpClient) : AcpClient :=
  with_handlers (messageHandlers c) (remove_handler h (errorHandlers c)) (requestHandlers c) c.

Definition offRequest (method : string) (c : AcpClient) : AcpClient :=
  with_handlers (messageHandlers c) (errorHandlers c) (delete method (requestHandlers c)) c.

(** A response of the remote to the request [i]. *)
Definition response_envelope (i : MsgId) (value : jsval) (err : option RpcError) : AcpMessage := {|
  jsonrpc := "2.0";
  msg_id := Some i;
  msg_method := None;
  msg_params := VUndef;
  msg_result := value;
  msg_error := err
|}.

Definition agent_thought_chunk (sid : string) (txt : option string) : AcpMessage :=
  session_update sid
    [("sessionUpdate", VStr "agent_thought_chunk");
     ("content", VObj [("type", VStr "text"); ("text", of_opt_string txt)])].

(** The pending map of a client that only ever used its own counter:
    the entry of the [n]-th call is keyed by [n], and [n] is between 1
    and the counter. *)
Definition pending_by_counter (c : AcpClient) : Prop :=
  0 <= requestId c /\
  forall k p, pendingRequests c !! k = Some p -> k = inl p /\ 0 < p <= requestId c.

(** A client that is connected, with a handler for [request_permission]
    and one message handler. *)
Definition demo_listener : AcpClient :=
  fst (run [OnMessage 3%nat; OnRequest "request_permission" 5%nat;
            Connect (SessionHttp true "OK" "s1")]
         (new_AcpClient "http://127.0.0.1:3284")).

End Client.

(** ** Working-copy provider ([worktree.ts]) *)

Module Worktree.

(** The options the source passes to [execSync] that decide its result
    ([encoding] and [stdio] only choose how the output is handed over). *)
Record ExecOptions := {
  cwd : string;
  maxBuffer : option N
}.

(** [child_process], [fs] and [path], as the provider uses them. A call
    that fails throws; every call may change the world. *)
Class Host (World : Type) := {
  execSync : string -> ExecOptions -> World -> World * result string;
  existsSync : string -> World -> bool;
  mkdirSync : string -> World -> World * result unit;
  readFileSync : string -> World -> World * result string;
  appendFileSync : string -> string -> World -> World * result unit;
  path_join : string -> string -> string
}.

(** Computations over the world that may throw. *)
Definition IO (World A : Type) : Type := World -> World * result A.

Definition ret {World A} (a : A) : IO World A := fun w => (w, Ok a).

Definition seq {World A B} (m : IO World A) (k : A -> IO World B) : IO World B :=
  fun w => match m w with
           | (w', Ok a) => k a w'
           | (w', Throw e) => (w', Throw e)
           end.

(** [try { m } catch { h }] *)
Definition try_catch {World A} (m : IO World A) (h : js_error -> IO World A) : IO World A :=
  fun w => match m w with
           | (w', Ok a) => (w', Ok a)
           | (w', Throw e) => h e w'
           end.

Notation "x <~ m ;; k" := (seq m (fun x => k))
  (at level 100, m at next level, right associativity).

Record WorktreeInfo := {
  path : string;
  branch : string;
  commit : string
}.

Record GitWorktreeManager := {
  repoPath : string;
  worktreesDir : string
}.

(** *** String helpers of the JavaScript library *)

Definition nl : string := String "010"%char EmptyString.
Definition dquote : string := String "034"%char EmptyString.

(** [s.startsWith(p)] *)
Definition startsWith (p s : string) : bool := String.prefix p s.

(** [s.substring(n)] *)
Fixpoint substring_from (n : nat) (s : string) : string :=
  match n, s with
  | O, _ => s
  | S n', String _ s' => substring_from n' s'
  | S _, EmptyString => EmptyString
  end.

(** [s.includes(p)] *)
Fixpoint includes (p s : string) : bool :=
  String.prefix p s ||
  match s with
  | EmptyString => false
  | String _ s' => includes p s'
  end.

(** [s.replace(p, r)] with a string pattern: the first occurrence only. *)
Fixpoint replace_first (p r s : string) : string :=
  if String.prefix p s then r +:+ substring_from (String.length p) s
  else match s with
       | EmptyString => EmptyString
       | String c s' => String c (replace_first p r s')
       end.

(** [s.split(sep)] for a separator that is not empty; [skip] counts the
    characters of a separator still to pass over. *)
Fixpoint split_from (sep : string) (skip : nat) (acc : string) (s : string) : list string :=
  match s with
  | EmptyString => [acc]
  | String c s' =>
      match skip with
      | S k => split_from sep k acc s'
      | O =>
          if String.prefix sep s
          then acc :: split_from sep (String.length sep - 1) EmptyString s'
          else split_from sep O (acc +:+ String c EmptyString) s'
      end
  end.

Definition split (sep s : string) : list string := split_from sep O EmptyString s.

(** White space among the code units below 256. *)
Definition is_space (c : ascii) : bool :=
  let n := nat_of_ascii c in
  ((9 <=? n) && (n <=? 13) || (n =? 32) || (n =? 160))%nat.

Fixpoint trim_start (s : string) : string :=
  match s with
  | String c s' => if is_space c then trim_start s' else s
  | EmptyString => EmptyString
  end.

(** [s.trim()] *)
Definition trim (s : string) : string :=
  String.rev (trim_start (String.rev (trim_start s))).

(** [message.replace(/"/g, '\\"')] *)
Fixpoint escape_quotes (s : string) : string :=
  match s with
  | EmptyString => EmptyString
  | String c s' =>
      if Ascii.eqb c "034"%char then String "\"%char (String c (escape_quotes s'))
      else String c (escape_quotes s')
  end.

Section Provider.

Context {World : Type} {H : Host World}.

Definition new_GitWorktreeManager (repo : string) : GitWorktreeManager := {|
  repoPath := repo;
  worktreesDir := path_join repo ".goose-worktrees"
|}.

Definition exec (command : string) (opts : ExecOptions) : IO World string := execSync command opts.

Definition exists_ (p : string) : IO World bool := fun w => (w, Ok (existsSync p w)).

Definition isGitRepo (m : GitWorktreeManager) : IO World bool :=
  try_catch
    (_ <~ exec "git rev-parse --git-dir" {| cwd := repoPath m; maxBuffer := None |};;
     ret true)
    (fun _ => ret false).

Definition ensureWorktreesDir (m : GitWorktreeManager) : IO World unit :=
  present <~ exists_ (worktreesDir m);;
  _ <~ (if negb present then mkdirSync (worktreesDir m) else ret tt);;
  let gitignorePath := path_join (repoPath m) ".gitignore" in
  let ignoreEntry := ".goose-worktrees/" in
  ignored <~ exists_ gitignorePath;;
  if ignored then
    content <~ readFileSync gitignorePath;;
    if negb (includes ignoreEntry content)
    then appendFileSync gitignorePath (nl +:+ ignoreEntry +:+ nl)
    else ret tt
  else ret tt.

Definition getCurrentBranch (m : GitWorktreeManager) : IO World string :=
  try_catch
    (out <~ exec "git rev-parse --abbrev-ref HEAD" {| cwd := repoPath m; maxBuffer := None |};;
     ret (trim out))
    (fun _ => ret "main").

Definition getCommitHash (worktreePath : option string) (m : GitWorktreeManager) : IO World string :=
  try_catch
    (out <~ exec "git rev-parse --short HEAD"
              {| cwd := if Client.string_truthy worktreePath then default EmptyString worktreePath else repoPath m;
                 maxBuffer := None |};;
     ret (trim out))
    (fun _ => ret "unknown").

Definition removeWorktree (name : string) (m : GitWorktreeManager) : IO World unit :=
  let worktreePath := path_join (worktreesDir m) name in
  present <~ exists_ worktreePath;;
  _ <~ (if present then
          _ <~ exec ("git worktree remove " +:+ dquote +:+ worktreePath +:+ dquote +:+ " --force")
                 {| cwd := repoPath m; maxBuffer := None |};;
          ret tt
        else ret tt);;
  let branchName := "goose/" +:+ name in
  try_catch
    (_ <~ exec ("git branch -D " +:+ branchName) {| cwd := repoPath m; maxBuffer := None |};;
     ret tt)
    (fun _ => ret tt).

Definition worktree_add_command (worktreePath branchName : string) : string :=
  "git worktree add " +:+ dquote +:+ worktreePath +:+ dquote +:+ " " +:+ branchName.

Definition createWorktree (name : string) (baseBranch : option string) (m : GitWorktreeManager)
  : IO World WorktreeInfo :=
  _ <~ ensureWorktreesDir m;;
  let branchName := "goose/" +:+ name in
  let worktreePath := path_join (worktreesDir m) name in
  present <~ exists_ worktreePath;;
  _ <~ (if present then removeWorktree name m else ret tt);;
  base <~ (if Client.string_truthy baseBranch then ret (default EmptyString baseBranch)
           else getCurrentBranch m);;
  _ <~ try_catch
         (_ <~ exec ("git branch " +:+ branchName +:+ " " +:+ base)
                {| cwd := repoPath m; maxBuffer := None |};;
          ret tt)
         (fun _ => ret tt);;
  _ <~ exec (worktree_add_command worktreePath branchName)
         {| cwd := repoPath m; maxBuffer := None |};;
  hash <~ getCommitHash (Some worktreePath) m;;
  ret {| path := worktreePath; branch := branchName; commit := hash |}.

(** One entry of [git worktree list --porcelain]: the loop over its lines. *)
Fixpoint scan_entry (lines : list string) (wtPath branchN commitN : string) : WorktreeInfo :=
  match lines with
  | [] => {| path := wtPath; branch := branchN; commit := commitN |}
  | line :: rest =>
      if startsWith "worktree " line then scan_entry rest (substring_from 9 line) branchN commitN
      else if startsWith "branch " line then
        scan_entry rest wtPath (replace_first "refs/heads/" EmptyString (substring_from 7 line)) commitN
      else if startsWith "HEAD " line then scan_entry rest wtPath branchN (substring_from 5 line)
      else scan_entry rest wtPath branchN commitN
  end.

Definition parse_worktree_list (m : GitWorktreeManager) (output : string) : list WorktreeInfo :=
  let entries := filter (fun e => e <> EmptyString) (split (nl +:+ nl) output) in
  filter (fun info => startsWith (worktreesDir m) (path info) = true)
         (map (fun entry => scan_entry (split nl entry) EmptyString EmptyString EmptyString) entries).

Definition listWorktrees (m : GitWorktreeManager) : IO World (list WorktreeInfo) :=
  try_catch
    (output <~ exec "git worktree list --porcelain" {| cwd := repoPath m; maxBuffer := None |};;
     ret (parse_worktree_list m output))
    (fun _ => ret []).

Definition getDiff (worktreePath : string) (m : GitWorktreeManager) : IO World string :=
  try_catch
    (exec "git diff HEAD" {| cwd := worktreePath; maxBuffer := Some (10 * 1024 * 1024)%N |})
    (fun _ => ret EmptyString).

Definition getStatus (worktreePath : string) (m : GitWorktreeManager) : IO World string :=
  try_catch
    (exec "git status --short" {| cwd := worktreePath; maxBuffer := None |})
    (fun _ => ret EmptyString).

Definition commitChanges (worktreePath message : string) (m : GitWorktreeManager) : IO World bool :=
  try_catch
    (_ <~ exec "git add -A" {| cwd := worktreePath; maxBuffer := None |};;
     _ <~ exec ("git commit -m " +:+ dquote +:+ escape_quotes message +:+ dquote)
            {| cwd := worktreePath; maxBuffer := None |};;
     ret true)
    (fun _ => ret false).

End Provider.

(** A repository in which every [git] command fails: the world keeps the
    paths that exist and the commands that were run. *)
Record SimWorld := {
  sim_paths : list string;
  sim_log : list string
}.

Definition sim_run (command : string) (w : SimWorld) : SimWorld :=
  {| sim_paths := sim_paths w; sim_log := sim_log w ++ [command] |}.

#[export] Instance failing_git : Host SimWorld := {|
  execSync command _ w := (sim_run command w, Throw (Error ("Command failed: " +:+ command)));
  existsSync p w := bool_decide (p ∈ sim_paths w);
  mkdirSync p w := ({| sim_paths := p :: sim_paths w; sim_log := sim_log w |}, Ok tt);
  readFileSync _ w := (w, Ok EmptyString);
  appendFileSync _ _ w := (w, Ok tt);
  path_join a b := a +:+ "/" +:+ b
|}.

(** The options of the calls that only name a directory. *)
Definition git_options (dir : string) : ExecOptions := {| cwd := dir; maxBuffer := None |}.

Definition sim_manager : GitWorktreeManager := new_GitWorktreeManager "/repo".

Definition sim_empty : SimWorld := {| sim_paths := []; sim_log := [] |}.


(** A repository in which [git worktree ...] succeeds and the short hash
    of HEAD can be read, while every other [git] command fails. It is
    passed to the provider by name. *)
Definition partial_git : Host SimWorld := {|
  execSync command _ w :=
    if startsWith "git worktree " command then (sim_run command w, Ok EmptyString)
    else if String.eqb command "git rev-parse --short HEAD"
         then (sim_run command w, Ok ("abc1234" +:+ nl))
         else (sim_run command w, Throw (Error ("Command failed: " +:+ command)));
  existsSync p w := bool_decide (p ∈ sim_paths w);
  mkdirSync p w := ({| sim_paths := p :: sim_paths w; sim_log := sim_log w |}, Ok tt);
  readFileSync _ w := (w, Ok EmptyString);
  appendFileSync _ _ w := (w, Ok tt);
  path_join a b := a +:+ "/" +:+ b
|}.

(** A repository in which [git rev-parse ...] answers and every other
    [git] command fails (as when the branch of the working copy is
    checked out elsewhere). It is passed to the provider by name. *)
Definition locked_git : Host SimWorld := {|
  execSync command _ w :=
    if startsWith "git rev-parse " command then (sim_run command w, Ok ("main" +:+ nl))
    else (sim_run command w, Throw (Error ("Command failed: " +:+ command)));
  existsSync p w := bool_decide (p ∈ sim_paths w);
  mkdirSync p w := ({| sim_paths := p :: sim_paths w; sim_log := sim_log w |}, Ok tt);
  readFileSync _ w := (w, Ok EmptyString);
  appendFileSync _ _ w := (w, Ok tt);
  path_join a b := a +:+ "/" +:+ b
|}.

End Worktree.

(** ** Workstream coordinator ([workstream-manager.ts], [types.ts]) *)

Module Manager.

Import Client.

Inductive WorkstreamStatus :=
| starting
| running
| waiting
| reviewing
| paused
| completed
| error.

Inductive NotificationType :=
| action_required
| review_ready
| error_notification
| info.

Record Notification := {
  n_id : string;
  n_type : NotificationType;
  n_title : string;
  n_message : string;
  n_timestamp : Z;
  n_read : bool;
  n_workstreamId : string
}.

Inductive Role :=
| user
| assistant
| system.

Record WorkstreamMessage := {
  role : Role;
  content : string;
  timestamp : Z
}.

(** [id], [title] and [status] come from the optional properties of the
    inbound update and are stored as received. *)
Record ToolCallInfo := {
  tool_id : option string;
  tool_title : option string;
  tool_status : option string;
  tool_content : option string
}.

Record Workstream := {
  id : string;
  name : string;
  task : string;
  status : WorkstreamStatus;
  worktreePath : option string;
  branchName : option string;
  acpSessionId : option string;
  createdAt : Z;
  lastActivity : Z;
  currentActivity : string;
  notifications : list Notification;
  messageHistory : list WorkstreamMessage
}.

Record WorkstreamManagerConfig := {
  serverUrl : string;
  repoPath : string;
  useWorktrees : bool
}.

Inductive WorkstreamEvent :=
| status_change (st : WorkstreamStatus) (activity : option string)
| message (m : WorkstreamMessage)
| tool_call_event (tool : ToolCallInfo)
| tool_update_event (toolId : option string) (st : option string)
| notification (n : Notification)
| permission_request_event (requestId : option MsgId) (payload : jsval)
| error_event (err : string).

Record PendingPermissionRequest := {
  requestId : option MsgId;
  params : jsval;
  workstreamId : string
}.

(** The [resolve] function of the promise the permission handler returns
    to the transport for the request [resolves]. *)
Record PermissionResolver := {
  resolves : option MsgId
}.

Record WorkstreamManager := {
  config : WorkstreamManagerConfig;
  workstreams : gmap string Workstream;
  clients : gmap string AcpClient;
  acpSessionIds : gmap string string;
  eventHandlers : list handler;
  worktreeManager : option Worktree.GitWorktreeManager;
  activeTools : gmap string (gmap (option string) ToolCallInfo);
  pendingPermissions : gmap string PendingPermissionRequest;
  permissionResolvers : gmap string PermissionResolver
}.

(** What a step of the coordinator does to the outside: a call of an
    observer, a call of a permission resolver, an effect of a client. *)
Inductive Effect :=
| Delivered (h : handler) (w : string) (ev : WorkstreamEvent)
| ResolverCalled (r : PermissionResolver) (response : jsval)
| ClientEffect (w : string) (e : Client.Effect).

(** [new Date()] and [uuidv4()] as read by one handler run. *)
Record Ambient := {
  now : Z;
  uuid : string
}.

(** A handler run ends normally, throws, or meets a payload that is not
    of the interface the source casts it to ([Untyped]: the model does
    not follow the dynamic coercions of JavaScript there). *)
Inductive outcome (A : Type) :=
| Done (a : A)
| Raised (e : js_error)
| Untyped.
Arguments Done {A} a.
Arguments Raised {A} e.
Arguments Untyped {A}.

Definition as_opt_string (v : jsval) : option (option string) :=
  match v with
  | VUndef => Some None
  | VStr s => Some (Some s)
  | _ => None
  end.

(** *** Field updates *)

Definition set_workstreams (t : gmap string Workstream) (m : WorkstreamManager) : WorkstreamManager := {|
  config := config m;
  workstreams := t;
  clients := clients m;
  acpSessionIds := acpSessionIds m;
  eventHandlers := eventHandlers m;
  worktreeManager := worktreeManager m;
  activeTools := activeTools m;
  pendingPermissions := pendingPermissions m;
  permissionResolvers := permissionResolvers m
|}.

Definition set_clients (t : gmap string AcpClient) (m : WorkstreamManager) : WorkstreamManager := {|
  config := config m;
  workstreams := workstreams m;
  clients := t;
  acpSessionIds := acpSessionIds m;
  eventHandlers := eventHandlers m;
  worktreeManager := worktreeManager m;
  activeTools := activeTools m;
  pendingPermissions := pendingPermissions m;
  permissionResolvers := permissionResolvers m
|}.

Definition set_acpSessionIds (t : gmap string string) (m : WorkstreamManager) : WorkstreamManager := {|
  config := config m;
  workstreams := workstreams m;
  clients := clients m;
  acpSessionIds := t;
  eventHandlers := eventHandlers m;
  worktreeManager := worktreeManager m;
  activeTools := activeTools m;
  pendingPermissions := pendingPermissions m;
  permissionResolvers := permissionResolvers m
|}.

Definition set_eventHandlers (l : list handler) (m : WorkstreamManager) : WorkstreamManager := {|
  config := config m;
  workstreams := workstreams m;
  clients := clients m;
  acpSessionIds := acpSessionIds m;
  eventHandlers := l;
  worktreeManager := worktreeManager m;
  activeTools := activeTools m;
  pendingPermissions := pendingPermissions m;
  permissionResolvers := permissionResolvers m
|}.

Definition set_activeTools (t : gmap string (gmap (option string) ToolCallInfo)) (m : WorkstreamManager)
  : WorkstreamManager := {|
  config := config m;
  workstreams := workstreams m;
  clients := clients m;
  acpSessionIds := acpSessionIds m;
  eventHandlers := eventHandlers m;
  worktreeManager := worktreeManager m;
  activeTools := t;
  pendingPermissions := pendingPermissions m;
  permissionResolvers := permissionResolvers m
|}.

Definition set_permissions (p : gmap string PendingPermissionRequest)
    (r : gmap string PermissionResolver) (m : WorkstreamManager) : WorkstreamManager := {|
  config := config m;
  workstreams := workstreams m;
  clients := clients m;
  acpSessionIds := acpSessionIds m;
  eventHandlers := eventHandlers m;
  worktreeManager := worktreeManager m;
  activeTools := activeTools m;
  pendingPermissions := p;
  permissionResolvers := r
|}.

(** [Partial<Workstream>], for the properties the source ever passes. *)
Record Updates := {
  u_status : option WorkstreamStatus;
  u_currentActivity : option string;
  u_worktreePath : option (option string);
  u_branchName : option (option string);
  u_acpSessionId : option (option string)
}.

Definition activity_only (a : string) : Updates :=
  {| u_status := None; u_currentActivity := Some a; u_worktreePath := None;
     u_branchName := None; u_acpSessionId := None |}.

Definition status_and_activity (s : WorkstreamStatus) (a : string) : Updates :=
  {| u_status := Some s; u_currentActivity := Some a; u_worktreePath := None;
     u_branchName := None; u_acpSessionId := None |}.

(** [Object.assign(ws, updates, { lastActivity: new Date() })] *)
Definition assign (ws : Workstream) (u : Updates) (t : Z) : Workstream := {|
  id := id ws;
  name := name ws;
  task := task ws;
  status := default (status ws) (u_status u);
  worktreePath := default (worktreePath ws) (u_worktreePath u);
  branchName := default (branchName ws) (u_branchName u);
  acpSessionId := default (acpSessionId ws) (u_acpSessionId u);
  createdAt := createdAt ws;
  lastActivity := t;
  currentActivity := default (currentActivity ws) (u_currentActivity u);
  notifications := notifications ws;
  messageHistory := messageHistory ws
|}.

Definition set_messageHistory (h : list WorkstreamMessage) (ws : Workstream) : Workstream := {|
  id := id ws;
  name := name ws;
  task := task ws;
  status := status ws;
  worktreePath := worktreePath ws;
  branchName := branchName ws;
  acpSessionId := acpSessionId ws;
  createdAt := createdAt ws;
  lastActivity := lastActivity ws;
  currentActivity := currentActivity ws;
  notifications := notifications ws;
  messageHistory := h
|}.

Definition set_notifications (l : list Notification) (ws : Workstream) : Workstream := {|
  id := id ws;
  name := name ws;
  task := task ws;
  status := status ws;
  worktreePath := worktreePath ws;
  branchName := branchName ws;
  acpSessionId := acpSessionId ws;
  createdAt := createdAt ws;
  lastActivity := lastActivity ws;
  currentActivity := currentActivity ws;
  notifications := l;
  messageHistory := messageHistory ws
|}.

(** *** The coordinator *)

Definition onEvent (h : handler) (m : WorkstreamManager) : WorkstreamManager :=
  set_eventHandlers (eventHandlers m ++ [h]) m.

(** [splice(idx, 1)] at the first index of [h]. *)
Fixpoint remove_first (h : handler) (l : list handler) : list handler :=
  match l with
  | [] => []
  | x :: rest => if Nat.eqb x h then rest else x :: remove_first h rest
  end.

(** The function [onEvent] returns. *)
Definition offEvent (h : handler) (m : WorkstreamManager) : WorkstreamManager :=
  set_eventHandlers (remove_first h (eventHandlers m)) m.

(** Observers are event sinks: they neither throw nor call back into the
    coordinator while it runs. *)
Definition emit (m : WorkstreamManager) (w : string) (ev : WorkstreamEvent) : list Effect :=
  map (fun h => Delivered h w ev) (eventHandlers m).

Definition updateWorkstream (t : Z) (w : string) (updates : Updates) (m : WorkstreamManager)
  : WorkstreamManager :=
  match workstreams m !! w with
  | Some ws => set_workstreams (<[w := assign ws updates t]> (workstreams m)) m
  | None => m
  end.

Definition addNotification (amb : Ambient) (w : string) (ty : NotificationType)
    (title msg : string) (m : WorkstreamManager) : WorkstreamManager * list Effect :=
  let n := {| n_id := uuid amb; n_type := ty; n_title := title; n_message := msg;
              n_timestamp := now amb; n_read := false; n_workstreamId := w |} in
  let m' := match workstreams m !! w with
            | Some ws =>
                set_workstreams (<[w := set_notifications (notifications ws ++ [n]) ws]> (workstreams m)) m
            | None => m
            end in
  (m', emit m' w (notification n)).

(** [lastMsg.content += text] on the last entry of the history. *)
Fixpoint append_to_last (txt : string) (h : list WorkstreamMessage) : list WorkstreamMessage :=
  match h with
  | [] => []
  | [lastMsg] => [{| role := role lastMsg; content := content lastMsg +:+ txt;
                     timestamp := timestamp lastMsg |}]
  | m :: rest => m :: append_to_last txt rest
  end.

Definition is_assistant (m : WorkstreamMessage) : bool :=
  match role m with assistant => true | _ => false end.

(** [case 'text'] *)
Definition on_text (amb : Ambient) (w : string) (workstream : Workstream) (payload : jsval)
    (m : WorkstreamManager) : outcome (WorkstreamManager * list Effect) :=
  match payload with
  | VStr txt =>
      if negb (String.eqb txt EmptyString) then
        let history := messageHistory workstream in
        let '(history', effs) :=
          match last history with
          | Some lastMsg =>
              if is_assistant lastMsg then (append_to_last txt history, [])
              else
                let newMsg := {| role := assistant; content := txt; timestamp := now amb |} in
                (history ++ [newMsg], emit m w (message newMsg))
          | None =>
              let newMsg := {| role := assistant; content := txt; timestamp := now amb |} in
              (history ++ [newMsg], emit m w (message newMsg))
          end in
        let m1 := set_workstreams (<[w := set_messageHistory history' workstream]> (workstreams m)) m in
        Done (updateWorkstream (now amb) w (activity_only (slice0 100 txt)) m1, effs)
      else Done (m, [])
  | v => if truthy v then Untyped else Done (m, [])
  end.

(** [case 'thought'] *)
Definition on_thought (amb : Ambient) (w : string) (payload : jsval) (m : WorkstreamManager)
  : outcome (WorkstreamManager * list Effect) :=
  match payload with
  | VStr thought_text =>
      if negb (String.eqb thought_text EmptyString) then
        Done (updateWorkstream (now amb) w
                (activity_only ("ðŸ’­ " +:+ slice0 100 thought_text)) m, [])
      else Done (m, [])
  | v => if truthy v then Untyped else Done (m, [])
  end.

(** [case 'tool_call'] *)
Definition on_tool_call (amb : Ambient) (w : string) (payload : jsval) (m : WorkstreamManager)
  : outcome (WorkstreamManager * list Effect) :=
  match as_opt_string (get_opt payload "id"), as_opt_string (get_opt payload "title"),
        as_opt_string (get_opt payload "status") with
  | Some i, Some title, Some st =>
      let toolInfo := {| tool_id := i; tool_title := title; tool_status := st; tool_content := None |} in
      let m1 := match activeTools m !! w with
                | Some tools => set_activeTools (<[w := <[i := toolInfo]> tools]> (activeTools m)) m
                | None => m
                end in
      let m2 := updateWorkstream (now amb) w (activity_only ("ðŸ”§ " +:+ template title)) m1 in
      Done (m2, emit m2 w (tool_call_event toolInfo))
  | _, _, _ => Untyped
  end.

Definition is_terminal (st : option string) : bool :=
  match st with
  | Some s => String.eqb s "completed" || String.eqb s "failed"
  | None => false
  end.

(** [case 'tool_update'] *)
Definition on_tool_update (w : string) (payload : jsval) (m : WorkstreamManager)
  : outcome (WorkstreamManager * list Effect) :=
  match as_opt_string (get_opt payload "id"), as_opt_string (get_opt payload "status") with
  | Some i, Some st =>
      let m1 :=
        match activeTools m !! w with
        | Some tools =>
            if string_truthy i then
              match tools !! i with
              | Some tool =>
                  let tool' := {| tool_id := tool_id tool; tool_title := tool_title tool;
                                  tool_status := st; tool_content := tool_content tool |} in
                  if is_terminal st
                  then set_activeTools (<[w := delete i tools]> (activeTools m)) m
                  else set_activeTools (<[w := <[i := tool']> tools]> (activeTools m)) m
              | None => m
              end
            else m
        | None => m
        end in
      Done (m1, emit m1 w (tool_update_event i st))
  | _, _ => Untyped
  end.

(** [case 'permission_request'] *)
Definition on_permission_request (amb : Ambient) (w : string) (msg : AcpMessage) (payload : jsval)
    (m : WorkstreamManager) : outcome (WorkstreamManager * list Effect) :=
  let m1 := updateWorkstream (now amb) w (status_and_activity waiting "Waiting for permission...") m in
  let '(m2, effs) := addNotification amb w action_required "Permission Required"
                       "The agent needs your approval to continue" m1 in
  Done (m2, effs ++ emit m2 w (permission_request_event (msg_id msg) payload)).

Definition handleAcpMessage (amb : Ambient) (w : string) (msg : AcpMessage) (m : WorkstreamManager)
  : outcome (WorkstreamManager * list Effect) :=
  match parseSessionUpdate msg with
  | Throw e => Raised e
  | Ok parsed =>
      match workstreams m !! w with
      | None => Done (m, [])
      | Some workstream =>
          match type parsed with
          | text => on_text amb w workstream (data parsed) m
          | thought => on_thought amb w (data parsed) m
          | tool_call => on_tool_call amb w (data parsed) m
          | tool_update => on_tool_update w (data parsed) m
          | permission_request => on_permission_request amb w msg (data parsed) m
          | unknown => Done (m, [])
          end
      end
  end.

(** The handler registered with [client.onRequest('request_permission', ...)],
    up to the promise it returns. *)
Definition handlePermissionRequest (amb : Ambient) (w : string) (msg : AcpMessage)
    (m : WorkstreamManager) : outcome (WorkstreamManager * list Effect) :=
  let payload := msg_params msg in
  match get payload "toolCallUpdate" with
  | Throw e => Raised e
  | Ok toolCallUpdate =>
      match as_opt_string (get_opt (get_opt toolCallUpdate "fields") "title") with
      | None => Untyped
      | Some title =>
          let m1 := updateWorkstream (now amb) w
                      (status_and_activity waiting
                         ("Permission needed: " +:+
                          (if string_truthy title then default EmptyString title else "Tool execution"))) m in
          let '(m2, effs) :=
            addNotification amb w action_required "Permission Required"
              ("Tool: " +:+ (if string_truthy title then default EmptyString title else "Unknown")) m1 in
          let pendingRequest := {| requestId := msg_id msg; params := payload; workstreamId := w |} in
          let m3 := set_permissions (<[w := pendingRequest]> (pendingPermissions m2))
                      (permissionResolvers m2) m2 in
          let effs' := emit m3 w (permission_request_event (msg_id msg) payload) in
          Done (set_permissions (pendingPermissions m3)
                  (<[w := {| resolves := msg_id msg |}]> (permissionResolvers m3)) m3,
                effs ++ effs')
      end
  end.

(** The value [{ outcome: { selected: { optionId } } }]. *)
Definition permission_response (optionId : string) : jsval :=
  VObj [("outcome", VObj [("selected", VObj [("optionId", VStr optionId)])])].

Definition respondToPermission (amb : Ambient) (w : string) (optionId : string)
    (m : WorkstreamManager) : result (WorkstreamManager * list Effect) :=
  match permissionResolvers m !! w with
  | None => Throw (Error "No pending permission request for this workstream")
  | Some resolver =>
      let m1 := set_permissions (delete w (pendingPermissions m)) (delete w (permissionResolvers m)) m in
      Ok (updateWorkstream (now amb) w (status_and_activity running "Continuing...") m1,
          [ResolverCalled resolver (permission_response optionId)])
  end.

Definition getPendingPermission (w : string) (m : WorkstreamManager) : option PendingPermissionRequest :=
  pendingPermissions m !! w.

Definition pauseWorkstream (amb : Ambient) (w : string) (m : WorkstreamManager)
  : WorkstreamManager * list Effect :=
  let m1 := updateWorkstream (now amb) w (status_and_activity paused "Paused by user") m in
  (m1, emit m1 w (status_change paused None)).

Definition resumeWorkstream (amb : Ambient) (w : string) (m : WorkstreamManager)
  : WorkstreamManager * list Effect :=
  let m1 := updateWorkstream (now amb) w (status_and_activity running "Resumed") m in
  (m1, emit m1 w (status_change running None)).

Definition getWorkstream (w : string) (m : WorkstreamManager) : option Workstream :=
  workstreams m !! w.

(** [name.toLowerCase().replace(/[^a-z0-9-]/g, '-').slice(0, 50)] *)
Definition name_char (c : ascii) : bool :=
  let n := nat_of_ascii c in
  ((97 <=? n) && (n <=? 122) || (48 <=? n) && (n <=? 57) || (n =? 45))%nat.

Fixpoint replace_other_chars (s : string) : string :=
  match s with
  | EmptyString => EmptyString
  | String c s' => String (if name_char c then c else "-"%char) (replace_other_chars s')
  end.

Definition sanitizedName (name : string) : string :=
  slice0 50 (replace_other_chars (toLowerCase name)).

(** The record [createWorkstream] builds and registers before anything
    else (the first statements of the function). *)
Definition createWorkstream_register (amb : Ambient) (name task : string) (m : WorkstreamManager)
  : WorkstreamManager * Workstream :=
  let i := uuid amb in
  let workstream := {|
    id := i;
    name := sanitizedName name;
    task := task;
    status := starting;
    worktreePath := None;
    branchName := None;
    acpSessionId := None;
    createdAt := now amb;
    lastActivity := now amb;
    currentActivity := "Initializing...";
    notifications := [];
    messageHistory := []
  |} in
  (set_activeTools (<[i := ∅]> (activeTools m)) (set_workstreams (<[i := workstream]> (workstreams m)) m),
   workstream).

Section WithHost.

Context {World : Type} {H : Worktree.Host World}.

Definition new_WorkstreamManager (cfg : WorkstreamManagerConfig) : WorkstreamManager := {|
  config := cfg;
  workstreams := ∅;
  clients := ∅;
  acpSessionIds := ∅;
  eventHandlers := [];
  worktreeManager :=
    if useWorktrees cfg then Some (Worktree.new_GitWorktreeManager (repoPath cfg)) else None;
  activeTools := ∅;
  pendingPermissions := ∅;
  permissionResolvers := ∅
|}.

(** [stopWorkstream]: it never throws (errors of the cleanup are caught). *)
Definition stopWorkstream (w : string) (cleanup : bool) (m : WorkstreamManager) (world : World)
  : World * (WorkstreamManager * list Effect) :=
  let client := clients m !! w in
  let workstream := workstreams m !! w in
  let '(m1, effs) :=
    match client with
    | Some c => (set_clients (delete w (clients m)) m, map (ClientEffect w) (snd (disconnect c)))
    | None => (m, [])
    end in
  let world' :=
    match workstream, worktreeManager m1 with
    | Some ws, Some wm =>
        if cleanup && string_truthy (worktreePath ws)
        then fst (Worktree.removeWorktree (name ws) wm world)
        else world
    | _, _ => world
    end in
  (world',
   (set_activeTools (delete w (activeTools m1))
      (set_acpSessionIds (delete w (acpSessionIds m1))
         (set_workstreams (delete w (workstreams m1)) m1)),
    effs)).

End WithHost.

(** *** Runs of the coordinator over inbound messages *)

Fixpoint handle_all (inputs : list (Ambient * string * AcpMessage)) (m : WorkstreamManager)
  : outcome (WorkstreamManager * list Effect) :=
  match inputs with
  | [] => Done (m, [])
  | (amb, w, msg) :: rest =>
      match handleAcpMessage amb w msg m with
      | Done (m1, effs1) =>
          match handle_all rest m1 with
          | Done (m2, effs2) => Done (m2, effs1 ++ effs2)
          | Raised e => Raised e
          | Untyped => Untyped
          end
      | Raised e => Raised e
      | Untyped => Untyped
      end
  end.

(** Inbound tool events. *)
Inductive ToolEvent :=
| ToolCall (i title st : option string)
| ToolCallUpdate (i st : option string).

Definition tool_event_message (sid : string) (e : ToolEvent) : AcpMessage :=
  match e with
  | ToolCall i title st => tool_call_message sid i title st
  | ToolCallUpdate i st => tool_call_update_message sid i st
  end.

Definition tool_inputs (events : list (Ambient * string * string * ToolEvent))
  : list (Ambient * string * AcpMessage) :=
  map (fun '(amb, w, sid, e) => (amb, w, tool_event_message sid e)) events.

Definition chunk_inputs (chunks : list (Ambient * string * string * option string))
  : list (Ambient * string * AcpMessage) :=
  map (fun '(amb, w, sid, txt) => (amb, w, agent_message_chunk sid txt)) chunks.

(** T1: every tool of every tool table has status [pending]. *)
Definition T1 (m : WorkstreamManager) : Prop :=
  map_Forall (fun _ tools => map_Forall (fun _ t => tool_status t = Some "pending") tools)
    (activeTools m).

(** The statuses under which T1 is kept: a [tool_call] carries
    [pending], a [tool_call_update] carries [pending] or a terminal status. *)
Definition keeps_pending (e : ToolEvent) : bool :=
  match e with
  | ToolCall _ _ st => bool_decide (st = Some "pending")
  | ToolCallUpdate _ st => bool_decide (st = Some "pending") || is_terminal st
  end.

(** M1: no two adjacent messages of the history are agent messages. *)
Fixpoint no_adjacent_agent (h : list WorkstreamMessage) : bool :=
  match h with
  | a :: rest =>
      match rest with
      | b :: _ => negb (is_assistant a && is_assistant b) && no_adjacent_agent rest
      | [] => true
      end
  | [] => true
  end.

Definition M1 (m : WorkstreamManager) : Prop :=
  map_Forall (fun _ ws => no_adjacent_agent (messageHistory ws) = true) (workstreams m).

(** A coordinator with one observer and one workstream, just registered. *)
Definition demo_config : WorkstreamManagerConfig :=
  {| serverUrl := "http://127.0.0.1:3284"; repoPath := "/repo"; useWorktrees := true |}.

Definition demo_manager : WorkstreamManager :=
  fst (createWorkstream_register {| now := 0; uuid := "w1" |} "fix-x" "do it"
         (onEvent 7%nat (new_WorkstreamManager (H := Worktree.failing_git) demo_config))).

Definition at_time (t : Z) : Ambient := {| now := t; uuid := "n" |}.

(** The characters of the class [a-z0-9-], by code. *)
Definition in_name_class (c : ascii) : Prop :=
  let n := nat_of_ascii c in
  (97 <= n <= 122 \/ 48 <= n <= 57 \/ n = 45)%nat.

(** The workstream of [demo_manager]. *)
Definition demo_workstream : Workstream :=
  snd (createWorkstream_register {| now := 0; uuid := "w1" |} "fix-x" "do it"
         (onEvent 7%nat (new_WorkstreamManager (H := Worktree.failing_git) demo_config))).

(** A [request_permission] of the remote, with id 42 and two options. *)
Definition permission_request_42 : AcpMessage :=
  request_envelope (Some (inl 42)) (Some "request_permission")
    (VObj [("sessionId", VStr "s1");
           ("toolCallUpdate", VObj [("id", VStr "t1"); ("fields", VObj [("title", VStr "run")])]);
           ("options", VArr [VObj [("id", VStr "a"); ("kind", VStr "allow_once")];
                             VObj [("id", VStr "r"); ("kind", VStr "reject_once")]])]).

(** [demo_manager] once its permission handler has run on that request. *)
Definition demo_waiting : WorkstreamManager :=
  match handlePermissionRequest (at_time 3) "w1" permission_request_42 demo_manager with
  | Done (m, _) => m
  | _ => demo_manager
  end.

(** [demo_waiting] once its workstream has been stopped. *)
Definition demo_stopped : WorkstreamManager :=
  fst (snd (stopWorkstream (H := Worktree.failing_git) "w1" false demo_waiting Worktree.sim_empty)).

(** The [toolInfo] object of a [tool_call]. *)
Definition tool_info (i title st : option string) : ToolCallInfo :=
  {| tool_id := i; tool_title := title; tool_status := st; tool_content := None |}.

(** [lastMsg && lastMsg.role === 'assistant'] *)
Definition trailing_agent (h : list WorkstreamMessage) : bool :=
  match last h with
  | Some lastMsg => is_assistant lastMsg
  | None => false
  end.

(** The [newMsg] object of a chunk. *)
Definition agent_message (txt : string) (t : Z) : WorkstreamMessage :=
  {| role := assistant; content := txt; timestamp := t |}.

(** *** The rest of the operator's commands *)

(** [`${x}`] for a [string | null]. *)
Definition template_null (o : option string) : string :=
  match o with Some s => s | None => "null" end.

(** The prompt [startTask] builds. *)
Definition startTask_prompt (ws : Workstream) : string :=
  if string_truthy (worktreePath ws) then
    "You are working in a git worktree at: " +:+ template_null (worktreePath ws) +:+ Worktree.nl +:+
    "Branch: " +:+ template_null (branchName ws) +:+ Worktree.nl +:+ Worktree.nl +:+
    "Your task: " +:+ task ws +:+ Worktree.nl +:+ Worktree.nl +:+
    "Please work on this task. When you're done or need input, let me know."
  else task ws.

(** [{ sessionId, prompt: [{ type: 'text', text }] }] *)
Definition prompt_params (sid prompt : string) : jsval :=
  VObj [("sessionId", VStr sid);
        ("prompt", VArr [VObj [("type", VStr "text"); ("text", VStr prompt)]])].

(** The [catch] of [sendPrompt]. *)
Definition sendPrompt_failed (amb : Ambient) (w : string) (e : js_error) (m : WorkstreamManager)
  : WorkstreamManager * list Effect :=
  let m1 := updateWorkstream (now amb) w
              (status_and_activity error ("Error: " +:+ error_message e)) m in
  (m1, emit m1 w (error_event (error_message e))).

(** [sendPrompt], up to the wait for the answer to [session/prompt]:
    [Some p] is the promise it then waits on, [None] says the request
    could not be sent and the [catch] has run. The reply to the POST is
    taken with the call, as in [sendRequest]. *)
Definition sendPrompt_begin (amb : Ambient) (w prompt : string) (reply : FetchReply)
    (m : WorkstreamManager) : result (WorkstreamManager * list Effect * option promise) :=
  match clients m !! w with
  | None => Throw (Error "Workstream not connected")
  | Some client =>
      if negb (string_truthy (acpSessionIds m !! w)) then Throw (Error "Workstream not connected")
      else
        let m1 :=
          match workstreams m !! w with
          | Some ws =>
              set_workstreams
                (<[w := set_messageHistory
                          (messageHistory ws ++
                           [{| role := user; content := prompt; timestamp := now amb |}]) ws]>
                   (workstreams m)) m
          | None => m
          end in
        let m2 := updateWorkstream (now amb) w (status_and_activity running "Processing...") m1 in
        let '(client', effs, sent) :=
          sendRequest "session/prompt"
            (prompt_params (default EmptyString (acpSessionIds m !! w)) prompt) reply client in
        let m3 := set_clients (<[w := client']> (clients m2)) m2 in
        match sent with
        | Ok p => Ok (m3, map (ClientEffect w) effs, Some p)
        | Throw e =>
            let '(m4, effs') := sendPrompt_failed amb w e m3 in
            Ok (m4, map (ClientEffect w) effs ++ effs', None)
        end
  end.

Definition is_running (s : WorkstreamStatus) : bool :=
  match s with running => true | _ => false end.

(** [sendPrompt], from the moment the answer to [session/prompt] is
    there (or the request was rejected). *)
Definition sendPrompt_settled (amb : Ambient) (w : string) (answer : result jsval)
    (m : WorkstreamManager) : WorkstreamManager * list Effect :=
  match answer with
  | Ok _ =>
      match workstreams m !! w with
      | Some ws =>
          if is_running (status ws)
          then (updateWorkstream (now amb) w (activity_only "Idle - awaiting next instruction") m, [])
          else (m, [])
      | None => (m, [])
      end
  | Throw e => sendPrompt_failed amb w e m
  end.

(** [startTask], up to the same wait. *)
Definition startTask_begin (amb : Ambient) (w : string) (reply : FetchReply) (m : WorkstreamManager)
  : result (WorkstreamManager * list Effect * option promise) :=
  match workstreams m !! w with
  | None => Throw (Error "Workstream not found")
  | Some ws => sendPrompt_begin amb w (startTask_prompt ws) reply m
  end.

(** The handler [connectWorkstream] registers with [client.onError]. *)
Definition onClientError (amb : Ambient) (w : string) (e : js_error) (m : WorkstreamManager)
  : WorkstreamManager * list Effect :=
  (updateWorkstream (now amb) w
     (status_and_activity error ("Connection error: " +:+ error_message e)) m,
   emit m w (error_event (error_message e))).

(** The payloads of the declared interfaces: a string or nothing where
    [SessionNotificationParams] and [PermissionRequestParams] declare an
    optional string. *)
Definition optional_string (v : jsval) : bool :=
  match v with VUndef | VStr _ => true | _ => false end.

(** The text of a chunk as [parseSessionUpdate] hands it on: a string,
    or a value the guard [if (text)] turns away. *)
Definition guarded_text (v : jsval) : bool :=
  match v with VStr _ => true | _ => negb (truthy v) end.

Definition typed_inbound (msg : AcpMessage) : bool :=
  match parseSessionUpdate msg with
  | Throw _ => true
  | Ok parsed =>
      match type parsed with
      | text | thought => guarded_text (data parsed)
      | tool_call =>
          optional_string (get_opt (data parsed) "id") &&
          optional_string (get_opt (data parsed) "title") &&
          optional_string (get_opt (data parsed) "status")
      | tool_update =>
          optional_string (get_opt (data parsed) "id") &&
          optional_string (get_opt (data parsed) "status")
      | permission_request | unknown => true
      end
  end.

Definition typed_request (msg : AcpMessage) : bool :=
  optional_string (get_opt (get_opt (get_opt (msg_params msg) "toolCallUpdate") "fields") "title").

Section Repository.

Context {World : Type} {H : Worktree.Host World}.

(** [createWorkstream], from the registration of the record to the
    point where it turns to the server: the working copy is created when
    a provider is configured and the directory is a repository; a failure
    becomes a notification. [amb] is read before the provider runs,
    [amb'] after. *)
Definition createWorkstream_provision (amb amb' : Ambient) (i sanitized : string)
    (m : WorkstreamManager) (world : World) : World * (WorkstreamManager * list Effect) :=
  match worktreeManager m with
  | None => (world, (m, []))
  | Some wm =>
      match Worktree.isGitRepo wm world with
      | (world1, Ok true) =>
          let m1 := updateWorkstream (now amb) i (activity_only "Creating git worktree...") m in
          match Worktree.createWorktree sanitized None wm world1 with
          | (world2, Ok worktreeInfo) =>
              (world2,
               (updateWorkstream (now amb') i
                  {| u_status := None; u_currentActivity := None;
                     u_worktreePath := Some (Some (Worktree.path worktreeInfo));
                     u_branchName := Some (Some (Worktree.branch worktreeInfo));
                     u_acpSessionId := None |} m1, []))
          | (world2, Throw err) =>
              (world2,
               addNotification amb' i error_notification "Worktree Creation Failed"
                 (error_message err) m1)
          end
      | (world1, _) => (world1, (m, []))
      end
  end.

Definition createWorkstream_prepare (amb0 amb amb' : Ambient) (name task : string)
    (m : WorkstreamManager) (world : World) : World * (WorkstreamManager * list Effect) :=
  let '(m0, workstream) := createWorkstream_register amb0 name task m in
  createWorkstream_provision amb amb' (id workstream) (Manager.name workstream) m0 world.

Definition getWorkstreamDiff (w : string) (m : WorkstreamManager) : Worktree.IO World string :=
  match workstreams m !! w, worktreeManager m with
  | Some ws, Some wm =>
      if string_truthy (worktreePath ws)
      then Worktree.getDiff (default EmptyString (worktreePath ws)) wm
      else Worktree.ret EmptyString
  | _, _ => Worktree.ret EmptyString
  end.

Definition getWorkstreamStatus (w : string) (m : WorkstreamManager) : Worktree.IO World string :=
  match workstreams m !! w, worktreeManager m with
  | Some ws, Some wm =>
      if string_truthy (worktreePath ws)
      then Worktree.getStatus (default EmptyString (worktreePath ws)) wm
      else Worktree.ret EmptyString
  | _, _ => Worktree.ret EmptyString
  end.

Definition commitWorkstreamChanges (w msg : string) (m : WorkstreamManager) : Worktree.IO World bool :=
  match workstreams m !! w, worktreeManager m with
  | Some ws, Some wm =>
      if string_truthy (worktreePath ws)
      then Worktree.commitChanges (default EmptyString (worktreePath ws)) msg wm
      else Worktree.ret false
  | _, _ => Worktree.ret false
  end.

(** What the operator, the remote and the observers can do to a
    coordinator. *)
Inductive Action :=
| Register (amb : Ambient) (name task : string)
| Inbound (amb : Ambient) (w : string) (msg : AcpMessage)
| PermissionRequest (amb : Ambient) (w : string) (msg : AcpMessage)
| Respond (amb : Ambient) (w optionId : string)
| Pause (amb : Ambient) (w : string)
| Resume (amb : Ambient) (w : string)
| Prompt (amb : Ambient) (w prompt : string) (reply : FetchReply)
| PromptSettled (amb : Ambient) (w : string) (answer : result jsval)
| ClientError (amb : Ambient) (w : string) (e : js_error)
| Subscribe (h : handler)
| Unsubscribe (h : handler)
| Stop (w : string) (cleanup : bool).

Definition typed_action (a : Action) : bool :=
  match a with
  | Inbound _ _ msg => typed_inbound msg
  | PermissionRequest _ _ msg => typed_request msg
  | _ => true
  end.

(** One action. An action that throws leaves the coordinator as it is
    (each of these functions throws before its first write). An inbound
    message or a permission request whose payload is not of the declared
    interface gives [None]: the model does not say what the coordinator
    does with it. *)
Definition act (a : Action) (m : WorkstreamManager) (world : World)
  : option (World * (WorkstreamManager * list Effect)) :=
  match a with
  | Register amb name task => Some (world, (fst (createWorkstream_register amb name task m), []))
  | Inbound amb w msg =>
      match handleAcpMessage amb w msg m with
      | Done r => Some (world, r)
      | Raised _ => Some (world, (m, []))
      | Untyped => None
      end
  | PermissionRequest amb w msg =>
      match handlePermissionRequest amb w msg m with
      | Done r => Some (world, r)
      | Raised _ => Some (world, (m, []))
      | Untyped => None
      end
  | Respond amb w optionId =>
      match respondToPermission amb w optionId m with
      | Ok r => Some (world, r)
      | Throw _ => Some (world, (m, []))
      end
  | Pause amb w => Some (world, pauseWorkstream amb w m)
  | Resume amb w => Some (world, resumeWorkstream amb w m)
  | Prompt amb w prompt reply =>
      match sendPrompt_begin amb w prompt reply m with
      | Ok (m', effs, _) => Some (world, (m', effs))
      | Throw _ => Some (world, (m, []))
      end
  | PromptSettled amb w answer => Some (world, sendPrompt_settled amb w answer m)
  | ClientError amb w e => Some (world, onClientError amb w e m)
  | Subscribe h => Some (world, (onEvent h m, []))
  | Unsubscribe h => Some (world, (offEvent h m, []))
  | Stop w cleanup => Some (stopWorkstream w cleanup m world)
  end.

Fixpoint run_actions (actions : list Action) (m : WorkstreamManager) (world : World)
  : option (World * (WorkstreamManager * list Effect)) :=
  match actions with
  | [] => Some (world, (m, []))
  | a :: rest =>
      match act a m world with
      | Some (world1, (m1, effs1)) =>
          match run_actions rest m1 world1 with
          | Some (world2, (m2, effs2)) => Some (world2, (m2, effs1 ++ effs2))
          | None => None
          end
      | None => None
      end
  end.

End Repository.

(** P1: a workstream has a pending permission record exactly when it has
    a resolver. *)
Definition P1 (m : WorkstreamManager) : Prop :=
  dom (pendingPermissions m) = dom (permissionResolvers m).

(** A workstream is in the table exactly when it has a tool table. *)
Definition tables_agree (m : WorkstreamManager) : Prop :=
  dom (workstreams m) = dom (activeTools m).

(** W3: the branch of a workstream is set exactly when its path is. *)
Definition W3 (ws : Workstream) : Prop :=
  is_Some (branchName ws) <-> is_Some (worktreePath ws).

(** [m'] differs from [m] at most in the record and the tool table of
    [w], which it neither creates nor removes. *)
Record same_except (w : string) (m m' : WorkstreamManager) : Prop := {
  se_config : config m' = config m;
  se_clients : clients m' = clients m;
  se_sessions : acpSessionIds m' = acpSessionIds m;
  se_handlers : eventHandlers m' = eventHandlers m;
  se_provider : worktreeManager m' = worktreeManager m;
  se_pending : pendingPermissions m' = pendingPermissions m;
  se_resolvers : permissionResolvers m' = permissionResolvers m;
  se_workstreams : forall w', w' <> w -> workstreams m' !! w' = workstreams m !! w';
  se_tools : forall w', w' <> w -> activeTools m' !! w' = activeTools m !! w';
  se_workstream : is_Some (workstreams m' !! w) <-> is_Some (workstreams m !! w);
  se_table : is_Some (activeTools m' !! w) <-> is_Some (activeTools m !! w)
}.


(** An effect that is a call of an observer for the workstream [w]. *)
Definition delivered_to (w : string) (e : Effect) : Prop :=
  exists h ev, e = Delivered h w ev.

(** What the coordinator keeps, whatever is done to it: P1, the
    agreement of its two tables, and M1. *)
Definition coordinator_inv (m : WorkstreamManager) : Prop :=
  P1 m /\ tables_agree m /\ M1 m.

End Manager.

(** * Properties *)

(** ** Transport client *)

Module ClientFacts.

Import Client.

Lemma client_inv_new base : client_inv (new_AcpClient base) [].
Proof.
  split; simpl.
  - intros k p Hk. by rewrite lookup_empty in Hk.
  - intros p Hp. by apply elem_of_nil in Hp.
  - constructor.
Qed.

Lemma settled_app effs effs' : settled (effs ++ effs') = settled effs ++ settled effs'.
Proof.
  induction effs as [|e effs IH]; simpl; [done|].
  destruct e; simpl; by rewrite ?IH.
Qed.

Lemma settled_notify message c : settled (notifyMessageHandlers message c) = [].
Proof. unfold notifyMessageHandlers. by induction (messageHandlers c). Qed.

Lemma settled_sse c : settled (onSseError c) = [].
Proof. unfold onSseError. by induction (errorHandlers c). Qed.

Lemma settled_send message reply c : settled (fst (send message reply c)) = [].
Proof. destruct reply as [e|[] s]; reflexivity. Qed.

Lemma handleMessage_pending message c i p :
  msg_id message = Some i ->
  pendingRequests c !! i = Some p ->
  handleMessage message c =
    (with_pending (requestId c) (delete i (pendingRequests c)) c,
     [match msg_error message with
      | Some err => Rejected p (Error (err_message err))
      | None => Resolved p (msg_result message)
      end]).
Proof.
  intros Hi Hp. unfold handleMessage. rewrite Hi. simpl. rewrite Hp. simpl.
  by destruct (msg_error message).
Qed.

Lemma handleMessage_not_pending message c :
  (forall i, msg_id message = Some i -> pendingRequests c !! i = None) ->
  fst (handleMessage message c) = c /\ settled (snd (handleMessage message c)) = [].
Proof.
  intros Hnone. unfold handleMessage.
  destruct (msg_id message) as [i|] eqn:Hi; simpl.
  - rewrite (Hnone i eq_refl). simpl.
    destruct (string_truthy (msg_method message)); simpl.
    + destruct (requestHandlers c !! _); simpl; split; try done; apply settled_notify.
    + split; [done | apply settled_notify].
  - rewrite andb_false_r. split; [done | apply settled_notify].
Qed.

Lemma step_inv op c done :
  client_inv c done ->
  client_inv (fst (step op c)) (done ++ settled (snd (step op c))).
Proof.
  intros [Hkeys Hdone Hnd].
  destruct op as [reply|method params reply|method params reply|message|h|h|method h| |]; simpl.
  - (* connect *)
    destruct reply as [e|[] s sid]; simpl; rewrite app_nil_r; by split.
  - (* sendRequest *)
    unfold sendRequest. destruct (negb (string_truthy (sessionId c))); simpl.
    { rewrite app_nil_r. by split. }
    set (c' := with_pending _ _ c).
    pose proof (settled_send (request_envelope (Some (inl (requestId c + 1))) (Some method) params)
                  reply c') as Hs.
    destruct (send _ reply c') as [effs [u|e]]; simpl in *; rewrite Hs, app_nil_r.
    all: split; simpl; [|  |done].
    all: try (intros k p Hk; apply lookup_insert_Some in Hk as [[<- <-]|[Hne Hk]];
              [split; [done|lia] | destruct (Hkeys k p Hk); split; [done|lia]]).
    all: intros p Hp; destruct (Hdone p Hp) as [Hle Hnone]; split; [lia|];
         rewrite lookup_insert_ne; [done | intros [= Heq]; lia].
  - (* sendNotification *)
    unfold sendNotification. destruct (negb (string_truthy (sessionId c))); simpl.
    { rewrite app_nil_r. by split. }
    rewrite settled_send, app_nil_r. by split.
  - (* handleMessage *)
    destruct (msg_id message) as [i|] eqn:Hi.
    + destruct (pendingRequests c !! i) as [p|] eqn:Hp.
      * rewrite (handleMessage_pending message c i p Hi Hp).
        destruct (Hkeys i p Hp) as [-> Hle].
        cut (client_inv (with_pending (requestId c) (delete (inl p) (pendingRequests c)) c)
               (done ++ [p])).
        { by destruct (msg_error message). }
        split; simpl.
        -- intros k q Hk. apply lookup_delete_Some in Hk as [_ Hk]. eauto.
        -- intros q Hq. apply elem_of_app in Hq as [Hq|Hq].
           ++ destruct (Hdone q Hq) as [Hqle Hqn]. split; [done|].
              destruct (decide (q = p)) as [->|Hne]; [by rewrite lookup_delete_eq|].
              rewrite lookup_delete_ne; [done | congruence].
           ++ apply list_elem_of_singleton in Hq as ->. split; [done|]. by rewrite lookup_delete_eq.
        -- apply NoDup_app. split_and!; [done| |apply NoDup_singleton].
           intros q Hq Hq'. apply list_elem_of_singleton in Hq' as ->.
           destruct (Hdone p Hq) as [_ Hnone]. congruence.
      * destruct (handleMessage_not_pending message c) as [-> ->].
        { intros j Hj. congruence. }
        rewrite app_nil_r. by split.
    + destruct (handleMessage_not_pending message c) as [-> ->].
      { intros j Hj. congruence. }
      rewrite app_nil_r. by split.
  - rewrite app_nil_r. by split.
  - rewrite app_nil_r. by split.
  - rewrite app_nil_r. by split.
  - rewrite settled_sse, app_nil_r. by split.
  - (* disconnect *)
    assert (settled (match eventSource c with Some _ => [StreamClosed] | None => [] end) = []) as ->
      by (by destruct (eventSource c)).
    rewrite app_nil_r. split; simpl; [|  |done].
    + intros k p Hk. by rewrite lookup_empty in Hk.
    + intros p Hp. destruct (Hdone p Hp). split; [done|]. apply lookup_empty.
Qed.

Lemma run_inv ops : forall c done,
  client_inv c done ->
  client_inv (fst (run ops c)) (done ++ settled (snd (run ops c))).
Proof.
  induction ops as [|op ops IH]; intros c done Hinv; simpl.
  - by rewrite app_nil_r.
  - pose proof (step_inv op c done Hinv) as H1.
    destruct (step op c) as [c1 effs1]; simpl in *.
    specialize (IH c1 _ H1).
    destruct (run ops c1) as [c2 effs2]; simpl in *.
    by rewrite settled_app, app_assoc.
Qed.

(** C5: an inbound envelope whose id is in the pending map settles the
    call registered under that id and removes the entry: the call is
    rejected with the message of the envelope's error when it carries
    one, and resolved with its [result] otherwise. A second arrival of the
    envelope settles nothing, and over any run of a client no call is
    settled twice. *)
Theorem C5_response_settles_its_call (message : AcpMessage) (c : AcpClient) (i : MsgId) (p : promise)
  (Hid : msg_id message = Some i) (Hpending : pendingRequests c !! i = Some p) :
  (exists c',
     handleMessage message c =
       (c', [match msg_error message with
             | Some err => Rejected p (Error (err_message err))
             | None => Resolved p (msg_result message)
             end]) /\
     pendingRequests c' = delete i (pendingRequests c) /\
     pendingRequests c' !! i = None /\
     settled (snd (handleMessage message c')) = []) /\
  (forall base ops, NoDup (settled (snd (run ops (new_AcpClient base))))).
Proof.
  split.
  - eexists. split; [by apply handleMessage_pending|]. simpl.
    split_and!; [done | apply lookup_delete_eq |].
    apply handleMessage_not_pending. intros j Hj. simpl.
    rewrite Hid in Hj. injection Hj as <-. apply lookup_delete_eq.
  - intros base ops.
    by destruct (run_inv ops _ _ (client_inv_new base)) as [_ _ Hnd].
Qed.

Lemma C5_witness :
  msg_id demo_response = Some (inl 1) /\
  pendingRequests demo_client !! (inl 1 : MsgId) = Some 1 /\
  exists c',
    handleMessage demo_response demo_client = (c', [Resolved 1 (VStr "ready")]) /\
    pendingRequests c' !! (inl 1 : MsgId) = None.
Proof.
  split; [reflexivity|]. split; [reflexivity|].
  destruct (C5_response_settles_its_call demo_response demo_client (inl 1) 1 eq_refl eq_refl)
    as [[c' (Hrun & _ & Hgone & _)] _].
  exists c'. split; [exact Hrun | exact Hgone].
Defined.

(** C8: a client without a session fails every [sendRequest] and
    [sendNotification] with [Not connected], before anything is sent or
    registered. A new client has no session, a failed [connect] leaves
    it without one, and [disconnect] leaves it without one; [disconnect]
    empties the pending map and settles none of its calls. *)
Theorem C8_not_connected (c : AcpClient) (method : string) (params : jsval) (reply : FetchReply)
  (Hsession : sessionId c = None) :
  sendRequest method params reply c = (c, [], Throw (Error "Not connected")) /\
  sendNotification method params reply c = ([], Throw (Error "Not connected")) /\
  (forall base, sessionId (new_AcpClient base) = None) /\
  (forall c0 reply0,
     sessionId c0 = None -> throws (snd (connect reply0 c0)) ->
     sessionId (fst (fst (connect reply0 c0))) = None) /\
  (forall c0,
     sessionId (fst (disconnect c0)) = None /\
     pendingRequests (fst (disconnect c0)) = ∅ /\
     settled (snd (disconnect c0)) = []).
Proof.
  split_and!.
  - unfold sendRequest. by rewrite Hsession.
  - unfold sendNotification. by rewrite Hsession.
  - done.
  - intros c0 reply0 Hc0. by destruct reply0 as [e|[] s sid].
  - intros c0. split_and!; [done..|]. simpl. by destruct (eventSource c0).
Qed.

Lemma C8_witness :
  sessionId (fst (disconnect demo_client)) = None /\
  sendRequest "session/prompt" VNull (HttpReply true "OK") (fst (disconnect demo_client)) =
    (fst (disconnect demo_client), [], Throw (Error "Not connected")).
Proof.
  split; [reflexivity|].
  exact (proj1 (C8_not_connected (fst (disconnect demo_client)) "session/prompt" VNull
                  (HttpReply true "OK") eq_refl)).
Defined.

Lemma method_is_exclusive message :
  method_is "session/update" message = true -> method_is "request_permission" message = false.
Proof.
  unfold method_is. destruct (msg_method message) as [s|]; [|done].
  intros Hs%String.eqb_eq. by subst.
Qed.

Lemma session_update_case_defined props :
  exists hit,
    session_update_case (get_opt (own "update" props) "sessionUpdate") (VObj props) = Ok hit /\
    match hit with
    | Some r =>
        exists s, get_opt (own "update" props) "sessionUpdate" = VStr s /\
          type r = (if String.eqb s "agent_message_chunk" then text
                    else if String.eqb s "agent_thought_chunk" then thought
                    else if String.eqb s "tool_call" then tool_call
                    else if String.eqb s "tool_call_update" then tool_update
                    else unknown)
    | None =>
        match get_opt (own "update" props) "sessionUpdate" with
        | VStr s =>
            String.eqb s "agent_message_chunk" = false /\
            String.eqb s "agent_thought_chunk" = false /\
            String.eqb s "tool_call" = false /\
            String.eqb s "tool_call_update" = false
        | _ => True
        end
    end.
Proof.
  destruct (own "update" props) as [| |b|n|s|items|uprops] eqn:Hupd; simpl;
    try (by exists None).
  destruct (own "sessionUpdate" uprops) as [| |b|n|s|items|o] eqn:Hsu; simpl;
    try (by exists None).
  unfold chunk_text. simpl. rewrite Hupd. simpl.
  destruct (String.eqb s "agent_message_chunk") eqn:E1; simpl.
  { eexists. split; [done|]. exists s. by rewrite E1. }
  destruct (String.eqb s "agent_thought_chunk") eqn:E2; simpl.
  { eexists. split; [done|]. exists s. by rewrite E1, E2. }
  destruct (String.eqb s "tool_call") eqn:E3; simpl.
  { eexists. split; [done|]. exists s. by rewrite E1, E2, E3. }
  destruct (String.eqb s "tool_call_update") eqn:E4; simpl.
  { eexists. split; [done|]. exists s. by rewrite E1, E2, E3, E4. }
  eexists. split; [done|]. done.
Qed.

(** On every envelope that has [params] the parser returns, and its tag
    is the one of the table. *)
Lemma parseSessionUpdate_with_params message :
  msg_params message <> VUndef -> msg_params message <> VNull ->
  exists r, parseSessionUpdate message = Ok r /\ type r = table_tag message.
Proof.
  intros Hu Hn. unfold parseSessionUpdate, table_tag.
  destruct (method_is "session/update" message) eqn:Hm.
  - rewrite (method_is_exclusive _ Hm).
    destruct (msg_params message) as [| |b|n|s|items|props] eqn:Hp; try done; simpl; eauto.
    destruct (session_update_case_defined props) as [hit [-> Hhit]]. simpl.
    destruct hit as [r|].
    + destruct Hhit as [s [Hs Ht]]. exists r. split; [done|]. by rewrite Hs.
    + eexists. split; [done|]. simpl.
      destruct (get_opt (own "update" props) "sessionUpdate"); try done.
      by destruct Hhit as (-> & -> & -> & ->).
  - simpl. destruct (method_is "request_permission" message); simpl; [|eauto].
    destruct (msg_params message); simpl; try done; eauto.
Qed.

(** A chunk without text has the empty string as its payload. *)
Lemma parse_chunk_without_text sid :
  parseSessionUpdate (agent_message_chunk sid None) =
    Ok {| type := text; su_sessionId := VStr sid; data := VStr EmptyString |}.
Proof. reflexivity. Qed.

(** C6, at the envelope [{"jsonrpc":"2.0","method":"session/update"}]:
    the parser reads [params.update] of the missing [params] and throws,
    where the claim has it return the tag [unknown]. The same happens for
    a [request_permission] without [params]. *)
Theorem C6_parse_without_params_throws :
  parseSessionUpdate update_without_params =
    Throw (TypeError "Cannot read properties of undefined (reading 'update')") /\
  parseSessionUpdate (request_envelope (Some (inl 42)) (Some "request_permission") VUndef) =
    Throw (TypeError "Cannot read properties of undefined (reading 'sessionId')").
Proof. split; reflexivity. Qed.

End ClientFacts.

(** ** Working-copy provider *)

Module WorktreeFacts.

Import Worktree.

Section Facts.

Context {World : Type} {H : Host World}.

Lemma try_catch_returns {A} (body : IO World A) (fallback : A) (w : World) :
  exists w' a, try_catch body (fun _ => ret fallback) w = (w', Ok a).
Proof.
  unfold try_catch, ret. destruct (body w) as [w' [a|e]]; eauto.
Qed.



Lemma seq_returns {A B} (m : IO World A) (k : A -> IO World B) w w' b :
  seq m k w = (w', Ok b) ->
  exists w1 a, m w = (w1, Ok a) /\ k a w1 = (w', Ok b).
Proof.
  unfold seq. destruct (m w) as [w1 [a|e]]; [eauto | discriminate].
Qed.

Lemma seq_ok {A B} (m : IO World A) (k : A -> IO World B) w w1 a :
  m w = (w1, Ok a) -> seq m k w = k a w1.
Proof. intros Hm. unfold seq. by rewrite Hm. Qed.

Lemma getCommitHash_result (dir : option string) (m : GitWorktreeManager) (w : World) :
  getCommitHash dir m w =
    (fst (execSync "git rev-parse --short HEAD"
            (git_options (if Client.string_truthy dir then default EmptyString dir else repoPath m)) w),
     Ok (match snd (execSync "git rev-parse --short HEAD"
                      (git_options (if Client.string_truthy dir then default EmptyString dir
                                    else repoPath m)) w) with
         | Ok out => trim out
         | Throw _ => "unknown"
         end)).
Proof.
  unfold getCommitHash, try_catch, seq, exec, ret, git_options.
  by destruct (execSync _ _ w) as [w' [out|e]].
Qed.


End Facts.



End WorktreeFacts.

(** ** Workstream coordinator *)

Module ManagerFacts.

Import Client Manager.

(** *** The name of a workstream *)

Lemma name_char_class c : name_char c = true -> in_name_class c.
Proof.
  unfold name_char, in_name_class. cbv zeta.
  rewrite !orb_true_iff, !andb_true_iff, !Nat.leb_le, Nat.eqb_eq. tauto.
Qed.

Lemma replace_other_chars_class s :
  Forall in_name_class (list_ascii_of_string (replace_other_chars s)).
Proof.
  induction s as [|c s IH]; simpl; constructor; [|done].
  destruct (name_char c) eqn:Hc; [by apply name_char_class|].
  right; right. reflexivity.
Qed.

Lemma slice0_class (P : ascii -> Prop) n : forall s,
  Forall P (list_ascii_of_string s) -> Forall P (list_ascii_of_string (slice0 n s)).
Proof.
  induction n as [|n IH]; intros [|c s] Hs; simpl; try constructor.
  - by inversion Hs.
  - apply IH. by inversion Hs.
Qed.

Lemma slice0_length n : forall s, (String.length (slice0 n s) <= n)%nat.
Proof.
  induction n as [|n IH]; intros [|c s]; simpl; try lia.
  specialize (IH s). lia.
Qed.

(** C7: the sanitized name holds only characters of [a-z0-9-] and at
    most 50 of them; it is the name of the record [createWorkstream]
    registers; ["Hello, World! 123"] becomes ["hello--world--123"]. *)
Theorem C7_sanitized_name (amb : Ambient) (name task : string) (m : WorkstreamManager) :
  Forall in_name_class (list_ascii_of_string (sanitizedName name)) /\
  (String.length (sanitizedName name) <= 50)%nat /\
  Manager.name (snd (createWorkstream_register amb name task m)) = sanitizedName name /\
  sanitizedName "Hello, World! 123" = "hello--world--123".
Proof.
  split_and!.
  - apply slice0_class, replace_other_chars_class.
  - apply slice0_length.
  - reflexivity.
  - reflexivity.
Qed.

(** *** Pause, resume, stop *)

(** C10: for an id that is not in the workstream table, [pauseWorkstream]
    and [resumeWorkstream] leave the coordinator as it is and still
    deliver a [status_change] for that id to every observer. *)
Theorem C10_pause_resume_unknown_id (amb : Ambient) (w : string) (m : WorkstreamManager)
  (Habsent : workstreams m !! w = None) :
  pauseWorkstream amb w m =
    (m, map (fun h => Delivered h w (status_change paused None)) (eventHandlers m)) /\
  resumeWorkstream amb w m =
    (m, map (fun h => Delivered h w (status_change running None)) (eventHandlers m)).
Proof.
  unfold pauseWorkstream, resumeWorkstream, updateWorkstream. by rewrite Habsent.
Qed.

Lemma C10_witness :
  workstreams demo_manager !! "w9" = None /\
  pauseWorkstream (at_time 5) "w9" demo_manager =
    (demo_manager, [Delivered 7%nat "w9" (status_change paused None)]) /\
  resumeWorkstream (at_time 5) "w9" demo_manager =
    (demo_manager, [Delivered 7%nat "w9" (status_change running None)]).
Proof.
  split; [reflexivity|].
  exact (C10_pause_resume_unknown_id (at_time 5) "w9" demo_manager eq_refl).
Defined.

Section Stop.

Context {World : Type} {H : Worktree.Host World}.

(** C9: a second [stopWorkstream] for the same id changes neither the
    coordinator nor the repository and has no effect outside; like the
    first it cannot throw. *)
Theorem C9_stop_twice (w : string) (cleanup cleanup' : bool) (m : WorkstreamManager) (world : World) :
  let first := stopWorkstream w cleanup m world in
  stopWorkstream w cleanup' (fst (snd first)) (fst first) = (fst first, (fst (snd first), [])).
Proof.
  cbv zeta. unfold stopWorkstream.
  destruct (clients m !! w) as [c|] eqn:Hc; simpl.
  - rewrite !lookup_delete_eq. simpl. rewrite !delete_delete_eq. reflexivity.
  - rewrite Hc, !lookup_delete_eq. simpl. rewrite !delete_delete_eq. reflexivity.
Qed.

End Stop.

(** *** Permissions *)

Lemma updateWorkstream_permissions t w u m :
  pendingPermissions (updateWorkstream t w u m) = pendingPermissions m /\
  permissionResolvers (updateWorkstream t w u m) = permissionResolvers m.
Proof. unfold updateWorkstream. by destruct (workstreams m !! w). Qed.

Lemma updateWorkstream_lookup t w u m ws :
  workstreams m !! w = Some ws ->
  workstreams (updateWorkstream t w u m) !! w = Some (assign ws u t).
Proof. intros Hws. unfold updateWorkstream. rewrite Hws. simpl. apply lookup_insert_eq. Qed.

(** C3, amended: [respondToPermission] throws [No pending permission
    request for this workstream] exactly when the workstream has no
    resolver. With a resolver it calls it once with
    [{outcome: {selected: {optionId}}}] and removes the pending record
    and the resolver of the workstream, which keeps P1. The state of the
    workstream is set to [running] when the workstream is in the table;
    when it is not, the call succeeds all the same and leaves the table
    of the workstreams as it is. *)
Theorem C3_respond_to_permission (amb : Ambient) (w optionId : string) (m : WorkstreamManager) :
  (respondToPermission amb w optionId m =
     Throw (Error "No pending permission request for this workstream") <->
   permissionResolvers m !! w = None) /\
  (throws (respondToPermission amb w optionId m) <-> permissionResolvers m !! w = None) /\
  (forall resolver,
     permissionResolvers m !! w = Some resolver ->
     exists m',
       respondToPermission amb w optionId m =
         Ok (m', [ResolverCalled resolver
                    (VObj [("outcome", VObj [("selected", VObj [("optionId", VStr optionId)])])])]) /\
       pendingPermissions m' !! w = None /\
       permissionResolvers m' !! w = None /\
       (P1 m -> P1 m') /\
       (forall ws, workstreams m !! w = Some ws ->
          exists ws', workstreams m' !! w = Some ws' /\ status ws' = running) /\
       (workstreams m !! w = None -> workstreams m' = workstreams m)).
Proof.
  unfold respondToPermission.
  destruct (permissionResolvers m !! w) as [r|] eqn:Hr.
  - split_and!; [split; discriminate | split; [intros [] | discriminate] |].
    intros resolver [= <-]. eexists. split; [reflexivity|].
    set (m1 := set_permissions _ _ m).
    unfold P1.
    destruct (updateWorkstream_permissions (now amb) w
                (status_and_activity running "Continuing...") m1) as [-> ->].
    split_and!; [apply lookup_delete_eq | apply lookup_delete_eq | | |].
    + intros HP1. simpl. by rewrite !dom_delete_L, HP1.
    + intros ws Hws. eexists. split; [by apply updateWorkstream_lookup|]. reflexivity.
    + intros Hws. unfold updateWorkstream. simpl. by rewrite Hws.
  - split_and!; [done | done |]. intros resolver [=].
Qed.

Lemma C3_witness :
  permissionResolvers demo_waiting !! "w1" = Some {| resolves := Some (inl 42) |} /\
  exists m',
    respondToPermission (at_time 4) "w1" "a" demo_waiting =
      Ok (m', [ResolverCalled {| resolves := Some (inl 42) |} (permission_response "a")]) /\
    pendingPermissions m' !! "w1" = None /\
    permissionResolvers m' !! "w1" = None /\
    status <$> workstreams m' !! "w1" = Some running.
Proof.
  split; [reflexivity|].
  destruct (proj2 (proj2 (C3_respond_to_permission (at_time 4) "w1" "a" demo_waiting))
              {| resolves := Some (inl 42) |} eq_refl) as (m' & Hrun & Hp & Hr & _ & Hst & _).
  exists m'. split_and!; [exact Hrun | exact Hp | exact Hr |].
  destruct (Hst _ eq_refl) as (ws' & -> & Hs). simpl. by rewrite Hs.
Defined.

(** C3 as stated fails: [stopWorkstream] leaves the resolver of a
    workstream in place. After a registration, a permission request and
    a stop, the workstream has a resolver; [respondToPermission] calls
    it and returns, and no workstream is set to [running]: the table has
    no record under that id. *)
Lemma C3_counterexample :
  permissionResolvers demo_stopped !! "w1" = Some {| resolves := Some (inl 42) |} /\
  exists m',
    respondToPermission (at_time 4) "w1" "a" demo_stopped =
      Ok (m', [ResolverCalled {| resolves := Some (inl 42) |} (permission_response "a")]) /\
    workstreams m' !! "w1" = None /\
    ~ (exists ws', workstreams m' !! "w1" = Some ws' /\ status ws' = running).
Proof.
  split; [reflexivity|].
  eexists. split; [vm_compute; reflexivity|].
  split; [reflexivity|]. intros (ws' & Hws' & _). vm_compute in Hws'. discriminate.
Qed.

(** The permission round trip of the specification. *)
Example permission_round_trip :
  status <$> workstreams demo_waiting !! "w1" = Some waiting /\
  (fun ws => map n_type (notifications ws)) <$> workstreams demo_waiting !! "w1" =
    Some [action_required] /\
  requestId <$> getPendingPermission "w1" demo_waiting = Some (Some (inl 42 : MsgId)).
Proof. split_and!; reflexivity. Qed.

(** *** Tool events *)

Lemma as_opt_of_opt o : as_opt_string (of_opt_string o) = Some o.
Proof. by destruct o. Qed.

Lemma updateWorkstream_activeTools t w u m :
  activeTools (updateWorkstream t w u m) = activeTools m.
Proof. unfold updateWorkstream. by destruct (workstreams m !! w). Qed.

Lemma updateWorkstream_eventHandlers t w u m :
  eventHandlers (updateWorkstream t w u m) = eventHandlers m.
Proof. unfold updateWorkstream. by destruct (workstreams m !! w). Qed.

Lemma handle_tool_call amb w sid i title st m ws :
  workstreams m !! w = Some ws ->
  exists m',
    handleAcpMessage amb w (tool_call_message sid i title st) m =
      Done (m', map (fun h => Delivered h w (tool_call_event (tool_info i title st)))
                  (eventHandlers m)) /\
    activeTools m' =
      match activeTools m !! w with
      | Some tools => <[w := <[i := tool_info i title st]> tools]> (activeTools m)
      | None => activeTools m
      end.
Proof.
  intros Hws. unfold handleAcpMessage.
  change (parseSessionUpdate (tool_call_message sid i title st))
    with (Ok {| type := tool_call; su_sessionId := VStr sid;
                data := VObj [("id", of_opt_string i); ("title", of_opt_string title);
                              ("status", of_opt_string st)] |}).
  rewrite Hws. simpl. unfold on_tool_call. simpl. rewrite !as_opt_of_opt.
  unfold emit. rewrite updateWorkstream_eventHandlers.
  match goal with |- context [eventHandlers ?m1] =>
    assert (eventHandlers m1 = eventHandlers m) as -> by (by destruct (activeTools m !! w))
  end.
  eexists. split; [reflexivity|].
  rewrite updateWorkstream_activeTools. by destruct (activeTools m !! w).
Qed.

Lemma handle_tool_update w amb sid i st m ws :
  workstreams m !! w = Some ws ->
  exists m',
    handleAcpMessage amb w (tool_call_update_message sid i st) m =
      Done (m', map (fun h => Delivered h w (tool_update_event i st)) (eventHandlers m)) /\
    activeTools m' =
      match activeTools m !! w with
      | Some tools =>
          if string_truthy i then
            match tools !! i with
            | Some tool =>
                if is_terminal st then <[w := delete i tools]> (activeTools m)
                else <[w := <[i := {| tool_id := tool_id tool; tool_title := tool_title tool;
                                      tool_status := st; tool_content := tool_content tool |}]>
                             tools]> (activeTools m)
            | None => activeTools m
            end
          else activeTools m
      | None => activeTools m
      end.
Proof.
  intros Hws. unfold handleAcpMessage.
  change (parseSessionUpdate (tool_call_update_message sid i st))
    with (Ok {| type := tool_update; su_sessionId := VStr sid;
                data := VObj [("id", of_opt_string i); ("status", of_opt_string st);
                              ("content", VUndef)] |}).
  rewrite Hws. simpl. unfold on_tool_update. simpl. rewrite !as_opt_of_opt.
  unfold emit.
  match goal with |- context [eventHandlers ?m1] =>
    assert (eventHandlers m1 = eventHandlers m) as ->
  end.
  { destruct (activeTools m !! w); [|done].
    destruct (string_truthy i); [|done].
    destruct (_ !! i); [|done]. by destruct (is_terminal st). }
  eexists. split; [reflexivity|].
  - destruct (activeTools m !! w); [|done].
    destruct (string_truthy i); [|done].
    destruct (_ !! i); [|done]. by destruct (is_terminal st).
Qed.

Lemma handle_tool_event_absent amb w sid e m :
  workstreams m !! w = None ->
  handleAcpMessage amb w (tool_event_message sid e) m = Done (m, []).
Proof.
  intros Hws. unfold handleAcpMessage.
  destruct e as [i title st|i st]; simpl.
  - change (parseSessionUpdate (tool_call_message sid i title st))
      with (Ok {| type := tool_call; su_sessionId := VStr sid;
                  data := VObj [("id", of_opt_string i); ("title", of_opt_string title);
                                ("status", of_opt_string st)] |}).
    by rewrite Hws.
  - change (parseSessionUpdate (tool_call_update_message sid i st))
      with (Ok {| type := tool_update; su_sessionId := VStr sid;
                  data := VObj [("id", of_opt_string i); ("status", of_opt_string st);
                                ("content", VUndef)] |}).
    by rewrite Hws.
Qed.

Lemma T1_tool_event amb w sid e m :
  keeps_pending e = true -> T1 m ->
  exists m' effs, handleAcpMessage amb w (tool_event_message sid e) m = Done (m', effs) /\ T1 m'.
Proof.
  intros Hkeep HT1.
  destruct (workstreams m !! w) as [ws|] eqn:Hws;
    [|rewrite handle_tool_event_absent by done; eauto].
  unfold T1 in *.
  destruct e as [i title st|i st]; simpl in *.
  - destruct (handle_tool_call amb w sid i title st m ws Hws) as (m' & -> & Htools).
    do 2 eexists. split; [done|]. rewrite Htools.
    destruct (activeTools m !! w) as [tools|] eqn:Ht; [|done].
    apply map_Forall_insert_2; [|done].
    apply map_Forall_insert_2; [|by eapply (map_Forall_lookup_1 _ _ _ _ HT1 Ht)].
    simpl. by apply bool_decide_eq_true_1 in Hkeep.
  - destruct (handle_tool_update w amb sid i st m ws Hws) as (m' & -> & Htools).
    do 2 eexists. split; [done|]. rewrite Htools.
    destruct (activeTools m !! w) as [tools|] eqn:Ht; [|done].
    destruct (string_truthy i); [|done].
    destruct (tools !! i) as [tool|] eqn:Hi; [|done].
    pose proof (map_Forall_lookup_1 _ _ _ _ HT1 Ht) as Hgood. simpl in Hgood.
    destruct (is_terminal st) eqn:Hterm.
    + apply map_Forall_insert_2; [|done]. by apply map_Forall_delete.
    + apply map_Forall_insert_2; [|done].
      apply map_Forall_insert_2; [|done]. simpl.
      rewrite orb_false_r in Hkeep. by apply bool_decide_eq_true_1 in Hkeep.
Qed.

Lemma T1_tool_events events : forall m,
  Forall (fun ev => keeps_pending ev.2 = true) events -> T1 m ->
  exists m' effs, handle_all (tool_inputs events) m = Done (m', effs) /\ T1 m'.
Proof.
  induction events as [|[[[amb w] sid] e] events IH]; intros m Hev HT1; simpl.
  - eauto.
  - inversion Hev as [|? ? Hkeep Hrest]; subst. simpl in Hkeep.
    destruct (T1_tool_event amb w sid e m Hkeep HT1) as (m1 & effs1 & -> & HT1').
    destruct (IH m1 Hrest HT1') as (m2 & effs2 & -> & HT2). eauto.
Qed.

(** C1, amended: a [tool_call] stores the tool under its id with the
    status the event carries; a [tool_call_update] with a terminal status
    and an id that is not empty leaves no tool under that id; a
    [tool_call_update] with any other status writes that status into the
    tool stored under its id and keeps the tool in the table; and T1 is
    kept by every sequence of tool events whose [tool_call]s carry
    [pending] and whose updates carry [pending] or a terminal status. *)
Theorem C1_active_tools (amb : Ambient) (w sid : string) (m : WorkstreamManager)
    (ws : Workstream) (tools : gmap (option string) ToolCallInfo)
    (Hws : workstreams m !! w = Some ws) (Htools : activeTools m !! w = Some tools) :
  (forall i title st,
     exists m' effs,
       handleAcpMessage amb w (tool_call_message sid i title st) m = Done (m', effs) /\
       activeTools m' !! w =
         Some (<[i := {| tool_id := i; tool_title := title; tool_status := st;
                         tool_content := None |}]> tools)) /\
  (forall i st,
     string_truthy i = true -> is_terminal st = true ->
     exists m' effs,
       handleAcpMessage amb w (tool_call_update_message sid i st) m = Done (m', effs) /\
       activeTools m' !! w = Some (delete i tools)) /\
  (forall i st tool,
     string_truthy i = true -> is_terminal st = false -> tools !! i = Some tool ->
     exists m' effs,
       handleAcpMessage amb w (tool_call_update_message sid i st) m = Done (m', effs) /\
       activeTools m' !! w =
         Some (<[i := {| tool_id := tool_id tool; tool_title := tool_title tool;
                         tool_status := st; tool_content := tool_content tool |}]> tools)) /\
  (forall events,
     Forall (fun ev => keeps_pending ev.2 = true) events -> T1 m ->
     exists m' effs, handle_all (tool_inputs events) m = Done (m', effs) /\ T1 m').
Proof.
  split_and!.
  - intros i title st.
    destruct (handle_tool_call amb w sid i title st m ws Hws) as (m' & -> & Ht).
    do 2 eexists. split; [done|]. rewrite Ht, Htools. apply lookup_insert_eq.
  - intros i st Hi Hterm.
    destruct (handle_tool_update w amb sid i st m ws Hws) as (m' & -> & Ht).
    do 2 eexists. split; [done|]. rewrite Ht, Htools, Hi, Hterm.
    destruct (tools !! i) as [tool|] eqn:Hlook.
    + apply lookup_insert_eq.
    + rewrite Htools. f_equal. symmetry. by apply delete_id.
  - intros i st tool Hi Hterm Hlook.
    destruct (handle_tool_update w amb sid i st m ws Hws) as (m' & -> & Ht).
    do 2 eexists. split; [done|]. rewrite Ht, Htools, Hi, Hlook, Hterm.
    apply lookup_insert_eq.
  - intros events. apply T1_tool_events.
Qed.

Lemma C1_witness :
  workstreams demo_manager !! "w1" = Some demo_workstream /\
  activeTools demo_manager !! "w1" = Some ∅ /\
  T1 demo_manager /\
  exists m' effs,
    handle_all (tool_inputs [(at_time 1, "w1", "s1", ToolCall (Some "t1") (Some "run") (Some "pending"));
                             (at_time 2, "w1", "s1", ToolCall (Some "t2") (Some "test") (Some "pending"));
                             (at_time 3, "w1", "s1", ToolCallUpdate (Some "t2") (Some "pending"));
                             (at_time 4, "w1", "s1", ToolCallUpdate (Some "t1") (Some "completed"))])
      demo_manager = Done (m', effs) /\
    T1 m' /\
    activeTools m' !! "w1" = Some {[ Some "t2" := tool_info (Some "t2") (Some "test") (Some "pending") ]}.
Proof.
  assert (T1 demo_manager) as HT1.
  { unfold T1. simpl. apply map_Forall_insert_2; apply map_Forall_empty. }
  split; [reflexivity|]. split; [reflexivity|]. split; [exact HT1|].
  destruct (proj2 (proj2 (proj2
              (C1_active_tools (at_time 0) "w1" "s1" demo_manager demo_workstream ∅ eq_refl eq_refl)))
              [(at_time 1, "w1", "s1", ToolCall (Some "t1") (Some "run") (Some "pending"));
               (at_time 2, "w1", "s1", ToolCall (Some "t2") (Some "test") (Some "pending"));
               (at_time 3, "w1", "s1", ToolCallUpdate (Some "t2") (Some "pending"));
               (at_time 4, "w1", "s1", ToolCallUpdate (Some "t1") (Some "completed"))])
    as (m' & effs & Hrun & HT1').
  - repeat constructor.
  - exact HT1.
  - exists m', effs. split; [exact Hrun|]. split; [exact HT1'|].
    revert Hrun. vm_compute. by intros [= <- _].
Defined.

(** C1 as stated fails: after a [tool_call] with status [pending] and an
    update to [in_progress], the tool is in the table with status
    [in_progress]; and a [tool_call] that carries [completed] is stored
    with that status. *)
Lemma C1_counterexample :
  (exists m' effs,
     handle_all (tool_inputs [(at_time 1, "w1", "s1", ToolCall (Some "t1") (Some "run") (Some "pending"));
                              (at_time 2, "w1", "s1", ToolCallUpdate (Some "t1") (Some "in_progress"))])
       demo_manager = Done (m', effs) /\
     (activeTools m' !! "w1" ≫= fun tools => tools !! Some "t1") =
       Some (tool_info (Some "t1") (Some "run") (Some "in_progress")) /\
     ~ T1 m') /\
  (exists m' effs,
     handleAcpMessage (at_time 1) "w1"
       (tool_call_message "s1" (Some "t1") (Some "run") (Some "completed")) demo_manager
       = Done (m', effs) /\
     (activeTools m' !! "w1" ≫= fun tools => tools !! Some "t1") =
       Some (tool_info (Some "t1") (Some "run") (Some "completed")) /\
     ~ T1 m').
Proof.
  assert (forall m' st,
            (activeTools m' !! "w1" ≫= fun tools => tools !! Some "t1") =
              Some (tool_info (Some "t1") (Some "run") (Some st)) ->
            st <> "pending" -> ~ T1 m') as Hbreak.
  { intros m' st Hlook Hst HT1.
    destruct (activeTools m' !! "w1") as [tools|] eqn:Ht; [|discriminate]. simpl in Hlook.
    pose proof (HT1 "w1" tools Ht (Some "t1") _ Hlook) as Hgood. simpl in Hgood. congruence. }
  split.
  - eexists _, _. split; [vm_compute; reflexivity|].
    split; [vm_compute; reflexivity|]. eapply Hbreak; [vm_compute; reflexivity | discriminate].
  - eexists _, _. split; [vm_compute; reflexivity|].
    split; [vm_compute; reflexivity|]. eapply Hbreak; [vm_compute; reflexivity | discriminate].
Qed.

(** The tool lifecycle of the specification: the table of the workstream
    holds 0, then 1, then 0 tools. *)
Example tool_lifecycle :
  exists m1 e1 m2 e2,
    handleAcpMessage (at_time 1) "w1"
      (tool_call_message "s1" (Some "t1") (Some "run") (Some "pending")) demo_manager = Done (m1, e1) /\
    handleAcpMessage (at_time 2) "w1"
      (tool_call_update_message "s1" (Some "t1") (Some "completed")) m1 = Done (m2, e2) /\
    map (fun m => size <$> activeTools m !! "w1") [demo_manager; m1; m2] = [Some 0; Some 1; Some 0]%nat.
Proof. do 4 eexists. split_and!; vm_compute; reflexivity. Qed.

(** *** Agent message chunks *)

Lemma append_to_last_snoc txt h x :
  append_to_last txt (h ++ [x]) =
    h ++ [{| role := role x; content := content x +:+ txt; timestamp := timestamp x |}].
Proof.
  induction h as [|a h IH]; [done|].
  simpl. rewrite IH. by destruct h.
Qed.

Lemma trailing_agent_snoc h x : trailing_agent (h ++ [x]) = is_assistant x.
Proof. unfold trailing_agent. by rewrite last_snoc. Qed.

Lemma trailing_agent_cons a b h : trailing_agent (a :: b :: h) = trailing_agent (b :: h).
Proof. reflexivity. Qed.

Lemma no_adjacent_agent_snoc h x :
  no_adjacent_agent h = true -> trailing_agent h = false -> no_adjacent_agent (h ++ [x]) = true.
Proof.
  induction h as [|a h IH]; [done|].
  destruct h as [|b h]; simpl.
  - unfold trailing_agent. simpl. by intros _ ->.
  - intros [Hab Hrest]%andb_true_iff Htrail. rewrite Hab. simpl.
    apply IH; [done|]. by rewrite trailing_agent_cons in Htrail.
Qed.

Lemma no_adjacent_agent_append txt h :
  no_adjacent_agent (append_to_last txt h) = no_adjacent_agent h.
Proof.
  induction h as [|a h IH]; [done|].
  destruct h as [|b h]; [done|].
  change (append_to_last txt (a :: b :: h)) with (a :: append_to_last txt (b :: h)).
  change (no_adjacent_agent (a :: b :: h))
    with (negb (is_assistant a && is_assistant b) && no_adjacent_agent (b :: h)).
  rewrite <- IH. destruct h as [|c h]; reflexivity.
Qed.

Lemma handle_chunk amb w sid txt m ws :
  workstreams m !! w = Some ws ->
  handleAcpMessage amb w (agent_message_chunk sid txt) m =
    if string_truthy txt then
      let t := default EmptyString txt in
      let h := messageHistory ws in
      let h' := if trailing_agent h then append_to_last t h else h ++ [agent_message t (now amb)] in
      Done (updateWorkstream (now amb) w (activity_only (slice0 100 t))
              (set_workstreams (<[w := set_messageHistory h' ws]> (workstreams m)) m),
            if trailing_agent h then [] else emit m w (message (agent_message t (now amb))))
    else Done (m, []).
Proof.
  intros Hws. unfold handleAcpMessage.
  change (parseSessionUpdate (agent_message_chunk sid txt))
    with (Ok {| type := text; su_sessionId := VStr sid;
                data := or_else (of_opt_string txt) (VStr EmptyString) |}).
  rewrite Hws. simpl. destruct txt as [t|]; [|done]. simpl.
  unfold or_else. simpl. destruct (String.eqb t EmptyString) eqn:Ht; simpl; [done|].
  rewrite Ht. simpl. unfold trailing_agent.
  destruct (last (messageHistory ws)) as [lastMsg|]; [|done].
  by destruct (is_assistant lastMsg).
Qed.

Lemma handle_chunk_absent amb w sid txt m :
  workstreams m !! w = None ->
  handleAcpMessage amb w (agent_message_chunk sid txt) m = Done (m, []).
Proof.
  intros Hws. unfold handleAcpMessage.
  change (parseSessionUpdate (agent_message_chunk sid txt))
    with (Ok {| type := text; su_sessionId := VStr sid;
                data := or_else (of_opt_string txt) (VStr EmptyString) |}).
  by rewrite Hws.
Qed.

(** What one chunk with text does to the history of its workstream. *)
Lemma chunk_history amb w sid txt m ws :
  workstreams m !! w = Some ws -> string_truthy txt = true ->
  exists m' ws',
    handleAcpMessage amb w (agent_message_chunk sid txt) m =
      Done (m', if trailing_agent (messageHistory ws) then []
                else map (fun h => Delivered h w
                            (message (agent_message (default EmptyString txt) (now amb))))
                       (eventHandlers m)) /\
    workstreams m' !! w = Some ws' /\
    eventHandlers m' = eventHandlers m /\
    messageHistory ws' =
      (if trailing_agent (messageHistory ws)
       then append_to_last (default EmptyString txt) (messageHistory ws)
       else messageHistory ws ++ [agent_message (default EmptyString txt) (now amb)]) /\
    (forall w', w' <> w -> workstreams m' !! w' = workstreams m !! w').
Proof.
  intros Hws Htxt. rewrite (handle_chunk amb w sid txt m ws Hws), Htxt. cbv zeta.
  do 2 eexists. split; [reflexivity|].
  unfold updateWorkstream. simpl. rewrite lookup_insert_eq. simpl.
  split_and!; [apply lookup_insert_eq | done | done |].
  intros w' Hne. by rewrite !lookup_insert_ne.
Qed.

Lemma M1_chunk amb w sid txt m :
  M1 m ->
  exists m' effs, handleAcpMessage amb w (agent_message_chunk sid txt) m = Done (m', effs) /\ M1 m'.
Proof.
  intros HM1.
  destruct (workstreams m !! w) as [ws|] eqn:Hws;
    [|rewrite handle_chunk_absent by done; eauto].
  destruct (string_truthy txt) eqn:Htxt;
    [|rewrite (handle_chunk amb w sid txt m ws Hws), Htxt; eauto].
  destruct (chunk_history amb w sid txt m ws Hws Htxt) as (m' & ws' & -> & Hws' & _ & Hh & Hother).
  do 2 eexists. split; [done|].
  unfold M1 in *. intros w' x Hx.
  destruct (decide (w' = w)) as [->|Hne].
  - rewrite Hws' in Hx. injection Hx as <-. rewrite Hh.
    pose proof (HM1 w ws Hws) as Hgood. simpl in Hgood.
    destruct (trailing_agent (messageHistory ws)) eqn:Htrail.
    + by rewrite no_adjacent_agent_append.
    + by apply no_adjacent_agent_snoc.
  - rewrite (Hother w' Hne) in Hx. by apply (HM1 w' x).
Qed.

Lemma M1_chunks chunks : forall m,
  M1 m -> exists m' effs, handle_all (chunk_inputs chunks) m = Done (m', effs) /\ M1 m'.
Proof.
  induction chunks as [|[[[amb w] sid] txt] chunks IH]; intros m HM1; simpl; [eauto|].
  destruct (M1_chunk amb w sid txt m HM1) as (m1 & effs1 & -> & HM1').
  destruct (IH m1 HM1') as (m2 & effs2 & -> & HM2). eauto.
Qed.

Lemma M1_register amb name task m :
  M1 m -> M1 (fst (createWorkstream_register amb name task m)).
Proof.
  intros HM1. unfold M1. simpl. by apply map_Forall_insert_2.
Qed.

(** C2, amended: a chunk whose text is not empty is appended to the
    trailing agent message when there is one (and nothing is emitted),
    and otherwise becomes a new agent message, emitted once to every
    observer; a chunk whose text is empty or absent changes nothing and
    creates no message. M1 is kept by every sequence of chunks. The
    chunks ["Hel"], ["lo "], ["world"], arriving where no agent message
    trails, add the one agent message ["Hello world"] and emit one
    [message] event, for the first chunk. *)
Theorem C2_chunks_coalesce (amb : Ambient) (w sid : string) (txt : option string)
    (m : WorkstreamManager) (ws : Workstream)
    (Hws : workstreams m !! w = Some ws) :
  (string_truthy txt = true ->
   exists m' ws',
     handleAcpMessage amb w (agent_message_chunk sid txt) m =
       Done (m', if trailing_agent (messageHistory ws) then []
                 else map (fun h => Delivered h w
                             (message (agent_message (default EmptyString txt) (now amb))))
                        (eventHandlers m)) /\
     workstreams m' !! w = Some ws' /\
     messageHistory ws' =
       (if trailing_agent (messageHistory ws)
        then append_to_last (default EmptyString txt) (messageHistory ws)
        else messageHistory ws ++ [agent_message (default EmptyString txt) (now amb)])) /\
  (string_truthy txt = false ->
   handleAcpMessage amb w (agent_message_chunk sid txt) m = Done (m, [])) /\
  (forall chunks m0,
     M1 m0 -> exists m' effs, handle_all (chunk_inputs chunks) m0 = Done (m', effs) /\ M1 m') /\
  (forall a1 a2 a3,
     trailing_agent (messageHistory ws) = false ->
     exists m' ws',
       handle_all (chunk_inputs [(a1, w, sid, Some "Hel"); (a2, w, sid, Some "lo ");
                                 (a3, w, sid, Some "world")]) m =
         Done (m', map (fun h => Delivered h w (message (agent_message "Hel" (now a1))))
                     (eventHandlers m)) /\
       workstreams m' !! w = Some ws' /\
       messageHistory ws' = messageHistory ws ++ [agent_message "Hello world" (now a1)]).
Proof.
  split_and!.
  - intros Htxt.
    destruct (chunk_history amb w sid txt m ws Hws Htxt) as (m' & ws' & Hrun & Hws' & _ & Hh & _).
    eauto.
  - intros Htxt. by rewrite (handle_chunk amb w sid txt m ws Hws), Htxt.
  - intros chunks m0. apply M1_chunks.
  - intros a1 a2 a3 Htrail. simpl.
    destruct (chunk_history a1 w sid (Some "Hel") m ws Hws eq_refl)
      as (m1 & ws1 & -> & Hws1 & Hev1 & Hh1 & _).
    rewrite Htrail in Hh1 |- *. simpl in Hh1.
    destruct (chunk_history a2 w sid (Some "lo ") m1 ws1 Hws1 eq_refl)
      as (m2 & ws2 & -> & Hws2 & Hev2 & Hh2 & _).
    rewrite Hh1, trailing_agent_snoc, append_to_last_snoc in Hh2. simpl in Hh2.
    rewrite Hh1, trailing_agent_snoc. simpl.
    destruct (chunk_history a3 w sid (Some "world") m2 ws2 Hws2 eq_refl)
      as (m3 & ws3 & -> & Hws3 & Hev3 & Hh3 & _).
    rewrite Hh2, trailing_agent_snoc, append_to_last_snoc in Hh3. simpl in Hh3.
    rewrite Hh2, trailing_agent_snoc. simpl.
    exists m3, ws3. rewrite app_nil_r. split_and!; done.
Qed.

Lemma C2_witness :
  workstreams demo_manager !! "w1" = Some demo_workstream /\
  trailing_agent (messageHistory demo_workstream) = false /\
  exists m' ws',
    handle_all (chunk_inputs [(at_time 1, "w1", "s1", Some "Hel"); (at_time 2, "w1", "s1", Some "lo ");
                              (at_time 3, "w1", "s1", Some "world")]) demo_manager =
      Done (m', [Delivered 7%nat "w1" (message (agent_message "Hel" 1))]) /\
    workstreams m' !! "w1" = Some ws' /\
    messageHistory ws' = [agent_message "Hello world" 1].
Proof.
  split; [reflexivity|]. split; [reflexivity|].
  exact (proj2 (proj2 (proj2
           (C2_chunks_coalesce (at_time 0) "w1" "s1" None demo_manager demo_workstream eq_refl)))
         (at_time 1) (at_time 2) (at_time 3) eq_refl).
Defined.

(** C2 as stated fails: a chunk with the empty text, arriving where no
    agent message trails, creates no agent message. *)
Lemma C2_counterexample :
  messageHistory demo_workstream = [] /\
  handleAcpMessage (at_time 1) "w1" (agent_message_chunk "s1" (Some EmptyString)) demo_manager =
    Done (demo_manager, []) /\
  messageHistory <$> workstreams demo_manager !! "w1" = Some [].
Proof. split_and!; reflexivity. Qed.

End ManagerFacts.

(** * Further properties *)

(** ** Transport client and parser *)

Module ClientMore.

Import Client ClientFacts.

(** X1: On every envelope that has [params] (neither absent nor [null]) the
    parser returns, and the tag of its result is the one the table of
    tags gives for the method and the [sessionUpdate] discriminator:
    every other envelope with [params] is [unknown]. *)
Theorem parser_total_with_params (message : AcpMessage)
    (Hparams : msg_params message <> VUndef) (Hnull : msg_params message <> VNull) :
  exists r, parseSessionUpdate message = Ok r /\ type r = table_tag message.
Proof.
  destruct (parseSessionUpdate_with_params message Hparams Hnull) as (r & Hr & Htag).
  exists r. by split.
Qed.

Lemma parser_with_params_witness :
  msg_params (tool_call_message "s1" (Some "t1") (Some "run") (Some "pending")) <> VUndef /\
  msg_params (tool_call_message "s1" (Some "t1") (Some "run") (Some "pending")) <> VNull /\
  exists r,
    parseSessionUpdate (tool_call_message "s1" (Some "t1") (Some "run") (Some "pending")) = Ok r /\
    type r = table_tag (tool_call_message "s1" (Some "t1") (Some "run") (Some "pending")).
Proof.
  split; [discriminate|]. split; [discriminate|].
  apply (parser_total_with_params
           (tool_call_message "s1" (Some "t1") (Some "run") (Some "pending"))); discriminate.
Defined.

Lemma or_else_text v : or_else v (VStr EmptyString) = VStr EmptyString \/ truthy (or_else v (VStr EmptyString)) = true.
Proof. unfold or_else. destruct (truthy v) eqn:Hv; auto. Qed.

(** X2: The payload of a text or thought chunk is the text of the chunk when
    that is truthy, and the empty string otherwise: never [undefined]. *)
Theorem chunk_payload (message : AcpMessage) (r : SessionUpdate)
  (Hparse : parseSessionUpdate message = Ok r)
  (Hchunk : type r = text \/ type r = thought) :
  data r = or_else (get_opt (get_opt (get_opt (msg_params message) "update") "content") "text")
             (VStr EmptyString) /\
  (data r = VStr EmptyString \/ truthy (data r) = true).
Proof.
  assert (data r = or_else (get_opt (get_opt (get_opt (msg_params message) "update") "content") "text")
             (VStr EmptyString)) as Hdata.
  2: { split; [done|]. rewrite Hdata. apply or_else_text. }
  revert Hparse. unfold parseSessionUpdate.
  destruct (method_is "session/update" message) eqn:Hm.
  - rewrite (method_is_exclusive _ Hm).
    destruct (msg_params message) as [| |b|n|s|items|props]; simpl; try discriminate;
      try (intros [= <-]; simpl in Hchunk; by destruct Hchunk).
    destruct (own "update" props) as [| |b|n|s|items|uprops] eqn:Hupd; simpl;
      try (intros [= <-]; simpl in Hchunk; by destruct Hchunk).
    destruct (own "sessionUpdate" uprops) as [| |b|n|s|items|o] eqn:Hsu; simpl;
      try (intros [= <-]; simpl in Hchunk; by destruct Hchunk).
    unfold chunk_text. simpl. rewrite Hupd. simpl.
    repeat (case_match; simpl);
      intros [= <-]; simpl in *; try done; by destruct Hchunk.
  - simpl. destruct (method_is "request_permission" message); simpl.
    + destruct (msg_params message); simpl; try discriminate;
        intros [= <-]; simpl in Hchunk; by destruct Hchunk.
    + intros [= <-]; simpl in Hchunk; by destruct Hchunk.
Qed.

Lemma chunk_payload_witness :
  parseSessionUpdate (agent_thought_chunk "s1" None) =
    Ok {| type := thought; su_sessionId := VStr "s1"; data := VStr EmptyString |} /\
  data {| type := thought; su_sessionId := VStr "s1"; data := VStr EmptyString |} = VStr EmptyString.
Proof.
  split; [reflexivity|].
  destruct (chunk_payload (agent_thought_chunk "s1" None)
              {| type := thought; su_sessionId := VStr "s1"; data := VStr EmptyString |}
              eq_refl (or_intror eq_refl)) as [H _].
  exact H.
Defined.

(** *** Requests and their answers *)

Lemma sendRequest_connected method params reply c :
  string_truthy (sessionId c) = true ->
  sendRequest method params reply c =
    (with_pending (requestId c + 1)
       (<[inl (requestId c + 1) := requestId c + 1]> (pendingRequests c)) c,
     [Posted (message_url c)
        (request_envelope (Some (inl (requestId c + 1))) (Some method) params)],
     match reply with
     | NetworkFailure e => Throw e
     | HttpReply true _ => Ok (requestId c + 1)
     | HttpReply false statusText => Throw (Error ("Failed to send message: " +:+ statusText))
     end).
Proof.
  intros Hs. unfold sendRequest. rewrite Hs. simpl.
  by destruct reply as [e|[] st].
Qed.

(** X3: A request of a connected client is posted under the next number of
    the counter, and the response that carries this number settles the
    promise of that call: resolved with [result], or rejected with the
    message of [error]. If the client only ever used its own counter
    the pending map is then as it was before the request. *)
Theorem request_round_trip (c : AcpClient) (method statusText : string) (params value : jsval)
    (err : option RpcError)
    (Hsession : string_truthy (sessionId c) = true) :
  let i := requestId c + 1 in
  let sent := sendRequest method params (HttpReply true statusText) c in
  let answered := handleMessage (response_envelope (inl i) value err) (fst (fst sent)) in
  snd sent = Ok i /\
  snd (fst sent) = [Posted (message_url c) (request_envelope (Some (inl i)) (Some method) params)] /\
  snd answered = [match err with
                  | Some e => Rejected i (Error (err_message e))
                  | None => Resolved i value
                  end] /\
  requestId (fst answered) = i /\
  (pending_by_counter c -> pendingRequests (fst answered) = pendingRequests c).
Proof.
  cbv zeta. rewrite (sendRequest_connected _ _ _ _ Hsession). simpl.
  rewrite (handleMessage_pending _ _ (inl (requestId c + 1)) (requestId c + 1));
    [| done | apply lookup_insert_eq].
  simpl. split_and!; try done.
  intros [_ Hkeys]. rewrite delete_insert_eq. apply delete_id.
  destruct (pendingRequests c !! inl (requestId c + 1)) as [p|] eqn:Hp; [|done].
  destruct (Hkeys _ _ Hp) as [[= <-] ?]. lia.
Qed.

Lemma request_round_trip_witness :
  string_truthy (sessionId demo_listener) = true /\
  snd (handleMessage (response_envelope (inl 1) (VStr "ready") None)
         (fst (fst (sendRequest "initialize" VNull (HttpReply true "OK") demo_listener)))) =
    [Resolved 1 (VStr "ready")].
Proof.
  split; [reflexivity|].
  exact (proj1 (proj2 (proj2
           (request_round_trip demo_listener "initialize" "OK" VNull (VStr "ready") None eq_refl)))).
Defined.

(** X4: When the POST of a request fails, [sendRequest] throws, but the
    counter has advanced and the entry of the call stays in the pending
    map: a response that still arrives settles its promise. *)
Theorem failed_post_stays_pending (c : AcpClient) (method : string) (params value : jsval)
    (reply : FetchReply)
    (Hsession : string_truthy (sessionId c) = true)
    (Hfail : forall statusText, reply <> HttpReply true statusText) :
  let i := requestId c + 1 in
  let sent := sendRequest method params reply c in
  throws (snd sent) /\
  (forall statusText, reply = HttpReply false statusText ->
     snd sent = Throw (Error ("Failed to send message: " +:+ statusText))) /\
  requestId (fst (fst sent)) = i /\
  pendingRequests (fst (fst sent)) !! (inl i : MsgId) = Some i /\
  snd (handleMessage (response_envelope (inl i) value None) (fst (fst sent))) = [Resolved i value].
Proof.
  cbv zeta. rewrite (sendRequest_connected _ _ _ _ Hsession). simpl.
  split_and!.
  - destruct reply as [e|[] st]; simpl; try done. by destruct (Hfail st).
  - by intros st ->.
  - done.
  - apply lookup_insert_eq.
  - rewrite (handleMessage_pending _ _ (inl (requestId c + 1)) (requestId c + 1));
      [done | done | apply lookup_insert_eq].
Qed.

Lemma failed_post_stays_pending_witness :
  string_truthy (sessionId demo_listener) = true /\
  sendRequest "initialize" VNull (HttpReply false "Bad Gateway") demo_listener =
    (with_pending 1 {[ (inl 1 : MsgId) := 1 ]} demo_listener,
     [Posted "http://127.0.0.1:3284/acp/session/s1/message"
        (request_envelope (Some (inl 1)) (Some "initialize") VNull)],
     Throw (Error "Failed to send message: Bad Gateway")) /\
  pendingRequests
    (fst (fst (sendRequest "initialize" VNull (HttpReply false "Bad Gateway") demo_listener)))
    !! (inl 1 : MsgId) = Some 1.
Proof.
  split; [reflexivity|]. split; [reflexivity|].
  assert (forall st, HttpReply false "Bad Gateway" <> HttpReply true st) as Hfail by discriminate.
  exact (proj1 (proj2 (proj2 (proj2
           (failed_post_stays_pending demo_listener "initialize" VNull VNull
              (HttpReply false "Bad Gateway") eq_refl Hfail))))).
Defined.

(** *** Requests of the remote *)

Lemma handleMessage_request message c i method :
  msg_id message = Some i -> msg_method message = Some method ->
  method <> EmptyString ->
  pendingRequests c !! i = None ->
  handleMessage message c =
    (c, match requestHandlers c !! method with
        | Some h => [RequestHandlerInvoked h message]
        | None => notifyMessageHandlers message c
        end).
Proof.
  intros Hi Hm Hne Hp. unfold handleMessage. rewrite Hi. simpl. rewrite Hp. simpl.
  rewrite Hm. simpl.
  destruct (String.eqb method EmptyString) eqn:He; [by apply String.eqb_eq in He|]. simpl.
  by destruct (requestHandlers c !! method).
Qed.

(** X5: A request of the remote (an envelope with a method and an id that is
    not pending) goes to the handler registered last for its method, and
    then to no message handler; once that handler is deregistered, or the
    client was disconnected, it goes to every message handler instead, in
    the order of their registration. The client itself is unchanged. *)
Theorem request_dispatch (message : AcpMessage) (c : AcpClient) (i : MsgId) (method : string)
    (h h' : handler)
    (Hid : msg_id message = Some i) (Hmethod : msg_method message = Some method)
    (Hname : method <> EmptyString) (Hfresh : pendingRequests c !! i = None) :
  handleMessage message (onRequest method h (onRequest method h' c)) =
    (onRequest method h (onRequest method h' c), [RequestHandlerInvoked h message]) /\
  handleMessage message (offRequest method (onRequest method h c)) =
    (offRequest method (onRequest method h c),
     map (fun g => MessageDelivered g message) (messageHandlers c)) /\
  handleMessage message (fst (disconnect (onRequest method h c))) =
    (fst (disconnect (onRequest method h c)),
     map (fun g => MessageDelivered g message) (messageHandlers c)) /\
  snd (handleMessage message (onMessage h (offRequest method c))) =
    map (fun g => MessageDelivered g message) (messageHandlers c) ++ [MessageDelivered h message].
Proof.
  split_and!.
  - rewrite (handleMessage_request message _ i method Hid Hmethod Hname); [|done].
    simpl. by rewrite lookup_insert_eq.
  - rewrite (handleMessage_request message _ i method Hid Hmethod Hname); [|done].
    simpl. by rewrite lookup_delete_eq.
  - rewrite (handleMessage_request message _ i method Hid Hmethod Hname); [|apply lookup_empty].
    simpl. by rewrite lookup_empty.
  - rewrite (handleMessage_request message _ i method Hid Hmethod Hname); [|done].
    simpl. rewrite lookup_delete_eq. unfold notifyMessageHandlers. simpl. by rewrite map_app.
Qed.

Lemma request_dispatch_witness :
  pendingRequests demo_listener !! (inl 42 : MsgId) = None /\
  handleMessage (request_envelope (Some (inl 42)) (Some "request_permission") VNull)
    (onRequest "request_permission" 9%nat (onRequest "request_permission" 5%nat demo_listener)) =
    (onRequest "request_permission" 9%nat (onRequest "request_permission" 5%nat demo_listener),
     [RequestHandlerInvoked 9%nat
        (request_envelope (Some (inl 42)) (Some "request_permission") VNull)]).
Proof.
  split; [reflexivity|].
  assert ("request_permission" <> EmptyString) as Hname by discriminate.
  exact (proj1 (request_dispatch
                  (request_envelope (Some (inl 42)) (Some "request_permission") VNull)
                  demo_listener (inl 42) "request_permission" 9%nat 5%nat
                  eq_refl eq_refl Hname eq_refl)).
Defined.

(** *** Connecting and disconnecting *)

(** X6: [disconnect] keeps the base address, the counter and the message and
    error handlers, drops the session, the stream, the pending calls and
    the request handlers, and closes the stream when there is one; a
    second [disconnect] changes nothing and closes nothing. *)
Theorem disconnect_twice (c : AcpClient) :
  let c1 := fst (disconnect c) in
  baseUrl c1 = baseUrl c /\ requestId c1 = requestId c /\
  messageHandlers c1 = messageHandlers c /\ errorHandlers c1 = errorHandlers c /\
  sessionId c1 = None /\ eventSource c1 = None /\
  requestHandlers c1 = ∅ /\ pendingRequests c1 = ∅ /\
  getSessionId c1 = None /\ isConnected c1 = false /\
  snd (disconnect c) = (if bool_decide (is_Some (eventSource c)) then [StreamClosed] else []) /\
  disconnect c1 = (c1, []).
Proof.
  cbv zeta. split_and!; try done.
  all: simpl; by destruct (eventSource c).
Qed.

(** X7: A successful [connect] stores the session id of the reply and opens
    the stream of that session; it keeps the counter and the pending
    calls. The client then counts as connected, yet [sendRequest] still
    throws [Not connected] exactly when the session id is the empty
    string. A failed [connect] leaves the client as it was. *)
Theorem connect_session (c : AcpClient) (statusText sid method : string) (params : jsval)
    (reply : FetchReply) :
  let url := baseUrl c +:+ "/acp/session/" +:+ sid +:+ "/stream" in
  let c1 := fst (fst (connect (SessionHttp true statusText sid) c)) in
  connect (SessionHttp true statusText sid) c = (c1, [StreamOpened url], Ok sid) /\
  sessionId c1 = Some sid /\ eventSource c1 = Some url /\ isConnected c1 = true /\
  requestId c1 = requestId c /\ pendingRequests c1 = pendingRequests c /\
  (snd (sendRequest method params reply c1) = Throw (Error "Not connected") /\
   fst (fst (sendRequest method params reply c1)) = c1 <-> sid = EmptyString) /\
  connect (SessionHttp false statusText sid) c =
    (c, [], Throw (Error ("Failed to create session: " +:+ statusText))) /\
  (forall e, connect (SessionNetworkFailure e) c = (c, [], Throw e)).
Proof.
  cbv zeta. split_and!; try done.
  simpl. split.
  - intros [_ Hsame]. unfold sendRequest in Hsame. simpl in Hsame.
    destruct (String.eqb sid EmptyString) eqn:He; [by apply String.eqb_eq in He|].
    simpl in Hsame. destruct (send _ reply _) as [effs [u|e]]; simpl in Hsame;
      apply (f_equal requestId) in Hsame; simpl in Hsame; lia.
  - intros ->. done.
Qed.

(** *** The counter of the request ids *)

Lemma pending_by_counter_new base : pending_by_counter (new_AcpClient base).
Proof. split; [done|]. intros k p Hk. simpl in Hk. by rewrite lookup_empty in Hk. Qed.

Lemma pending_by_counter_step op c :
  pending_by_counter c ->
  pending_by_counter (fst (step op c)) /\ requestId c <= requestId (fst (step op c)).
Proof.
  intros [H0 Hkeys].
  destruct op as [reply|method params reply|method params reply|message|h|h|method h| |]; simpl.
  - destruct reply as [e|[] s sid]; simpl; (split; [by split | lia]).
  - unfold sendRequest. destruct (negb (string_truthy (sessionId c))); simpl.
    { split; [by split | lia]. }
    destruct (send _ reply _) as [effs [u|e]]; simpl.
    all: split; [|lia].
    all: split; simpl; [lia|].
    all: intros k p Hk; apply lookup_insert_Some in Hk as [[<- <-]|[Hne Hk]];
         [split; [done|lia] | destruct (Hkeys k p Hk); split; [done|lia]].
  - split; [by split | lia].
  - unfold handleMessage.
    destruct (msg_id message ≫= _) as [[i p]|]; simpl.
    + assert (pending_by_counter (with_pending (requestId c) (delete i (pendingRequests c)) c)) as Hp.
      { split; [done|]. simpl. intros k q Hk. apply lookup_delete_Some in Hk as [_ Hk]. eauto. }
      destruct (msg_error message); simpl; (split; [done | lia]).
    + destruct (string_truthy (msg_method message) && _); simpl.
      * destruct (requestHandlers c !! _); simpl; (split; [by split | lia]).
      * split; [by split | lia].
  - split; [by split | lia].
  - split; [by split | lia].
  - split; [by split | lia].
  - split; [by split | lia].
  - split; [|lia]. split; [done|]. simpl. intros k p Hk. by rewrite lookup_empty in Hk.
Qed.

(** X8: Over any sequence of calls and events the counter of a client never
    decreases (neither [connect] nor [disconnect] resets it), and from a
    new client every pending entry is keyed by the number of its own
    call, a number between 1 and the counter. *)
Theorem request_ids_by_counter (base : string) (ops ops' : list Op) :
  let c := fst (run ops (new_AcpClient base)) in
  pending_by_counter c /\
  requestId c <= requestId (fst (run ops' c)).
Proof.
  cbv zeta.
  assert (forall l c0, pending_by_counter c0 ->
            pending_by_counter (fst (run l c0)) /\ requestId c0 <= requestId (fst (run l c0))) as Hrun.
  { induction l as [|op l IH]; intros c0 Hc0; simpl; [split; [done|lia]|].
    destruct (pending_by_counter_step op c0 Hc0) as [H1 Hle].
    destruct (step op c0) as [c1 effs1]; simpl in *.
    destruct (IH c1 H1) as [H2 Hle'].
    destruct (run l c1) as [c2 effs2]; simpl in *. split; [done|lia]. }
  destruct (Hrun ops _ (pending_by_counter_new base)) as [Hc _].
  split; [done|]. by apply Hrun.
Qed.

End ClientMore.

(** ** Working-copy provider *)

Module WorktreeMore.

Import Worktree WorktreeFacts.

Section More.

Context {World : Type} {H : Host World}.

(** X9: [isGitRepo], [getCurrentBranch] and [getCommitHash] never throw:
    when their [git] command fails they answer [false], ["main"] and
    ["unknown"], and otherwise [true] and the trimmed output. The commit
    hash is read in the given directory, or in the repository when none
    (or the empty string) is given. *)
Theorem git_queries_fall_back (m : GitWorktreeManager) (dir : option string) (w : World) :
  let hash_dir := if Client.string_truthy dir then default EmptyString dir else repoPath m in
  isGitRepo m w =
    (fst (execSync "git rev-parse --git-dir" (git_options (repoPath m)) w),
     Ok (match snd (execSync "git rev-parse --git-dir" (git_options (repoPath m)) w) with
         | Ok _ => true
         | Throw _ => false
         end)) /\
  getCurrentBranch m w =
    (fst (execSync "git rev-parse --abbrev-ref HEAD" (git_options (repoPath m)) w),
     Ok (match snd (execSync "git rev-parse --abbrev-ref HEAD" (git_options (repoPath m)) w) with
         | Ok out => trim out
         | Throw _ => "main"
         end)) /\
  getCommitHash dir m w =
    (fst (execSync "git rev-parse --short HEAD" (git_options hash_dir) w),
     Ok (match snd (execSync "git rev-parse --short HEAD" (git_options hash_dir) w) with
         | Ok out => trim out
         | Throw _ => "unknown"
         end)).
Proof.
  cbv zeta. unfold isGitRepo, getCurrentBranch, getCommitHash, try_catch, seq, exec, ret, git_options.
  split_and!.
  - by destruct (execSync _ _ w) as [w' [out|e]].
  - by destruct (execSync _ _ w) as [w' [out|e]].
  - by destruct (execSync _ _ w) as [w' [out|e]].
Qed.

(** X10: Whenever [createWorktree] returns, the working copy is at
    [<worktreesDir>/<name>] on the branch [goose/<name>]. *)
Theorem createWorktree_naming (name : string) (base : option string) (m : GitWorktreeManager)
    (w w' : World) (info : WorktreeInfo)
    (Hcreated : createWorktree name base m w = (w', Ok info)) :
  path info = path_join (worktreesDir m) name /\ branch info = "goose/" +:+ name.
Proof.
  unfold createWorktree in Hcreated.
  do 7 (apply seq_returns in Hcreated as (? & ? & _ & Hcreated)).
  unfold ret in Hcreated. by injection Hcreated as _ <-.
Qed.

(** X11: [createWorktree] does not depend on the branch command: once the
    managed directory is ensured and no copy is in the way, it returns
    as soon as [git worktree add] succeeds, whether [git branch]
    succeeded or failed. *)
Theorem createWorktree_branch_failure_ignored (name base : string) (m : GitWorktreeManager)
    (w w1 w2 w3 : World) (branched : result string) (out : string)
    (Hbase : base <> EmptyString)
    (Hensure : ensureWorktreesDir m w = (w1, Ok tt))
    (Hfree : existsSync (path_join (worktreesDir m) name) w1 = false)
    (Hbranch : execSync ("git branch " +:+ ("goose/" +:+ name) +:+ " " +:+ base)
                 (git_options (repoPath m)) w1 = (w2, branched))
    (Hadd : execSync (worktree_add_command (path_join (worktreesDir m) name) ("goose/" +:+ name))
              (git_options (repoPath m)) w2 = (w3, Ok out)) :
  createWorktree name (Some base) m w =
    (fst (getCommitHash (Some (path_join (worktreesDir m) name)) m w3),
     Ok {| path := path_join (worktreesDir m) name;
           branch := "goose/" +:+ name;
           commit := match snd (getCommitHash (Some (path_join (worktreesDir m) name)) m w3) with
                     | Ok hash => hash
                     | Throw _ => "unknown"
                     end |}).
Proof.
  assert (Client.string_truthy (Some base) = true) as Htruthy.
  { simpl. destruct (String.eqb base EmptyString) eqn:He; [by apply String.eqb_eq in He|done]. }
  unfold git_options in *. unfold createWorktree.
  rewrite (seq_ok _ _ _ _ _ Hensure).
  rewrite (seq_ok (exists_ _) _ w1 w1 false) by (unfold exists_; by rewrite Hfree).
  rewrite (seq_ok (ret tt) _ w1 w1 tt) by done.
  rewrite Htruthy.
  rewrite (seq_ok (ret _) _ w1 w1 base) by done.
  rewrite (seq_ok (try_catch _ _) _ w1 w2 tt).
  2: { unfold try_catch, seq, exec, ret. rewrite Hbranch. by destruct branched. }
  rewrite (seq_ok (exec _ _) _ w2 w3 out) by exact Hadd.
  pose proof (getCommitHash_result (Some (path_join (worktreesDir m) name)) m w3) as Hhash.
  unfold git_options in Hhash. unfold seq. rewrite Hhash. simpl.
  by destruct (snd (execSync _ _ w3)).
Qed.

(** X12: [listWorktrees] never throws and reports only working copies whose
    path begins with the managed directory. *)
Theorem listWorktrees_managed_only (m : GitWorktreeManager) (w : World) :
  exists w' l,
    listWorktrees m w = (w', Ok l) /\
    Forall (fun info => startsWith (worktreesDir m) (path info) = true) l.
Proof.
  unfold listWorktrees, try_catch, seq, exec, ret.
  destruct (execSync _ _ w) as [w' [out|e]]; do 2 eexists; (split; [reflexivity|]).
  - unfold parse_worktree_list. apply Forall_forall. intros info Hin.
    by apply list_elem_of_filter in Hin as [Hp _].
  - constructor.
Qed.

End More.

Lemma startsWith_empty s : startsWith EmptyString s = true.
Proof. by destruct s. Qed.

Lemma startsWith_app p s : startsWith p (p +:+ s) = true.
Proof.
  induction p as [|a p IH]; simpl; [apply startsWith_empty|].
  unfold startsWith in *. simpl. by destruct (ascii_dec a a).
Qed.

Lemma substring_from_app n p s :
  n = String.length p -> substring_from n (p +:+ s) = s.
Proof. intros ->. induction p as [|a p IH]; simpl; [by destruct s | done]. Qed.

Lemma replace_first_unfold p r s :
  replace_first p r s =
    if String.prefix p s then r +:+ substring_from (String.length p) s
    else match s with
         | EmptyString => EmptyString
         | String c s' => String c (replace_first p r s')
         end.
Proof. by destruct s. Qed.

Lemma replace_first_app p r s : replace_first p r (p +:+ s) = r +:+ s.
Proof.
  rewrite replace_first_unfold. change (String.prefix p (p +:+ s)) with (startsWith p (p +:+ s)).
  by rewrite startsWith_app, (substring_from_app _ p s eq_refl).
Qed.

Lemma scan_entry_worktree p rest wt br co :
  scan_entry (("worktree " +:+ p) :: rest) wt br co = scan_entry rest p br co.
Proof.
  cbn [scan_entry]. rewrite (startsWith_app "worktree " p).
  by rewrite (substring_from_app 9 "worktree " p eq_refl).
Qed.

Lemma scan_entry_head c rest wt br co :
  scan_entry (("HEAD " +:+ c) :: rest) wt br co = scan_entry rest wt br c.
Proof.
  cbn [scan_entry].
  replace (startsWith "worktree " ("HEAD " +:+ c)) with false by reflexivity.
  replace (startsWith "branch " ("HEAD " +:+ c)) with false by reflexivity.
  rewrite (startsWith_app "HEAD " c). by rewrite (substring_from_app 5 "HEAD " c eq_refl).
Qed.

Lemma scan_entry_branch b rest wt br co :
  scan_entry (("branch refs/heads/" +:+ b) :: rest) wt br co = scan_entry rest wt b co.
Proof.
  cbn [scan_entry].
  replace (startsWith "worktree " ("branch refs/heads/" +:+ b)) with false by reflexivity.
  change ("branch refs/heads/" +:+ b) with ("branch " +:+ ("refs/heads/" +:+ b)).
  rewrite (startsWith_app "branch " _), (substring_from_app 7 "branch " _ eq_refl).
  by rewrite (replace_first_app "refs/heads/" EmptyString b).
Qed.

Lemma line_kinds_exclusive line :
  (startsWith "worktree " line = true ->
   startsWith "branch " line = false /\ startsWith "HEAD " line = false) /\
  (startsWith "branch " line = true ->
   startsWith "worktree " line = false /\ startsWith "HEAD " line = false) /\
  (startsWith "HEAD " line = true ->
   startsWith "worktree " line = false /\ startsWith "branch " line = false).
Proof.
  unfold startsWith. destruct line as [|c line]; [by split_and!|].
  cbn [String.prefix].
  split_and!.
  - destruct (ascii_dec "w" c) as [<-|]; [intros _; by split | done].
  - destruct (ascii_dec "b" c) as [<-|]; [intros _; by split | done].
  - destruct (ascii_dec "H" c) as [<-|]; [intros _; by split | done].
Qed.

Lemma scan_entry_app before rest wt br co :
  scan_entry (before ++ rest) wt br co =
    scan_entry rest (path (scan_entry before wt br co)) (branch (scan_entry before wt br co))
      (commit (scan_entry before wt br co)).
Proof.
  revert wt br co. induction before as [|line before IH]; intros wt br co; [done|].
  rewrite <- app_comm_cons. cbn [scan_entry].
  destruct (startsWith "worktree " line); [apply IH|].
  destruct (startsWith "branch " line); [apply IH|].
  destruct (startsWith "HEAD " line); apply IH.
Qed.

Lemma scan_entry_keeps_path lines : forall wt br co,
  Forall (fun l => startsWith "worktree " l = false) lines ->
  path (scan_entry lines wt br co) = wt.
Proof.
  induction lines as [|line lines IH]; intros wt br co Hno; [done|].
  inversion Hno as [|? ? Hline Hrest]; subst. cbn [scan_entry]. rewrite Hline.
  destruct (startsWith "branch " line); [by apply IH|].
  destruct (startsWith "HEAD " line); by apply IH.
Qed.

Lemma scan_entry_keeps_branch lines : forall wt br co,
  Forall (fun l => startsWith "branch " l = false) lines ->
  branch (scan_entry lines wt br co) = br.
Proof.
  induction lines as [|line lines IH]; intros wt br co Hno; [done|].
  inversion Hno as [|? ? Hline Hrest]; subst. cbn [scan_entry]. rewrite Hline.
  destruct (startsWith "worktree " line); [by apply IH|].
  destruct (startsWith "HEAD " line); by apply IH.
Qed.

Lemma scan_entry_keeps_commit lines : forall wt br co,
  Forall (fun l => startsWith "HEAD " l = false) lines ->
  commit (scan_entry lines wt br co) = co.
Proof.
  induction lines as [|line lines IH]; intros wt br co Hno; [done|].
  inversion Hno as [|? ? Hline Hrest]; subst. cbn [scan_entry]. rewrite Hline.
  destruct (startsWith "worktree " line); [by apply IH|].
  destruct (startsWith "branch " line); by apply IH.
Qed.

(** X13: The fields of one entry of [git worktree list --porcelain] come from
    the last line of each kind, wherever that line stands among the
    others: the path is what follows [worktree ], the commit what
    follows [HEAD ], the branch what follows [branch ] with its first
    [refs/heads/] removed. A field without a line of its kind keeps the
    value the loop started with (the empty string in [listWorktrees]). *)
Theorem porcelain_entry_fields (before after : list string) (line wt br co p b c : string) :
  let info := scan_entry (before ++ line :: after) wt br co in
  (startsWith "worktree " line = true ->
   Forall (fun l => startsWith "worktree " l = false) after ->
   path info = substring_from 9 line) /\
  (startsWith "branch " line = true ->
   Forall (fun l => startsWith "branch " l = false) after ->
   branch info = replace_first "refs/heads/" EmptyString (substring_from 7 line)) /\
  (startsWith "HEAD " line = true ->
   Forall (fun l => startsWith "HEAD " l = false) after ->
   commit info = substring_from 5 line) /\
  (Forall (fun l => startsWith "worktree " l = false) after ->
   path (scan_entry (before ++ ("worktree " +:+ p) :: after) wt br co) = p) /\
  (Forall (fun l => startsWith "branch " l = false) after ->
   branch (scan_entry (before ++ ("branch refs/heads/" +:+ b) :: after) wt br co) = b) /\
  (Forall (fun l => startsWith "HEAD " l = false) after ->
   commit (scan_entry (before ++ ("HEAD " +:+ c) :: after) wt br co) = c) /\
  (Forall (fun l => startsWith "worktree " l = false) after ->
   path (scan_entry after wt br co) = wt) /\
  (Forall (fun l => startsWith "branch " l = false) after ->
   branch (scan_entry after wt br co) = br) /\
  (Forall (fun l => startsWith "HEAD " l = false) after ->
   commit (scan_entry after wt br co) = co).
Proof.
  cbv zeta. rewrite !scan_entry_app, scan_entry_worktree, scan_entry_branch, scan_entry_head.
  cbn [scan_entry].
  destruct (line_kinds_exclusive line) as (Hw & Hb & Hh).
  split_and!.
  - intros Hline Hafter. rewrite Hline. by apply scan_entry_keeps_path.
  - intros Hline Hafter. destruct (Hb Hline) as [-> _]. rewrite Hline.
    by apply scan_entry_keeps_branch.
  - intros Hline Hafter. destruct (Hh Hline) as [-> ->]. rewrite Hline.
    by apply scan_entry_keeps_commit.
  - apply scan_entry_keeps_path.
  - apply scan_entry_keeps_branch.
  - apply scan_entry_keeps_commit.
  - apply scan_entry_keeps_path.
  - apply scan_entry_keeps_branch.
  - apply scan_entry_keeps_commit.
Qed.

Lemma porcelain_entry_fields_witness :
  scan_entry ["branch refs/heads/old"; "HEAD abc1234"; "branch refs/heads/goose/fix-x";
              "worktree /repo/.goose-worktrees/fix-x"; "detached"]
    EmptyString EmptyString EmptyString =
    {| path := "/repo/.goose-worktrees/fix-x"; branch := "goose/fix-x"; commit := "abc1234" |} /\
  branch (scan_entry (["branch refs/heads/old"; "HEAD abc1234"] ++
                      "branch refs/heads/goose/fix-x" ::
                      ["worktree /repo/.goose-worktrees/fix-x"; "detached"])
            EmptyString EmptyString EmptyString) = "goose/fix-x" /\
  commit (scan_entry ["worktree /repo/.goose-worktrees/fix-x"; "detached"]
            EmptyString EmptyString EmptyString) = EmptyString.
Proof.
  split; [reflexivity|].
  pose proof (porcelain_entry_fields ["branch refs/heads/old"; "HEAD abc1234"]
                ["worktree /repo/.goose-worktrees/fix-x"; "detached"]
                "branch refs/heads/goose/fix-x" EmptyString EmptyString EmptyString
                EmptyString EmptyString EmptyString)
    as (_ & Hbranch & _ & _ & _ & _ & _ & _ & Hcommit).
  split.
  - apply Hbranch; [reflexivity | by repeat constructor].
  - apply Hcommit. by repeat constructor.
Defined.

(** Witnesses in the repository where only [git worktree] works. *)
Lemma createWorktree_naming_witness :
  snd (createWorktree (H := partial_git) "fix-x" None sim_manager sim_empty) =
    Ok {| path := "/repo/.goose-worktrees/fix-x"; branch := "goose/fix-x"; commit := "abc1234" |} /\
  "/repo/.goose-worktrees/fix-x" = path_join (Host := partial_git) (worktreesDir sim_manager) "fix-x".
Proof.
  split; [reflexivity|].
  symmetry.
  exact (proj1 (createWorktree_naming (H := partial_git) "fix-x" None sim_manager sim_empty
                  (fst (createWorktree (H := partial_git) "fix-x" None sim_manager sim_empty))
                  {| path := "/repo/.goose-worktrees/fix-x"; branch := "goose/fix-x";
                     commit := "abc1234" |} eq_refl)).
Defined.

Lemma createWorktree_branch_failure_witness :
  ensureWorktreesDir (H := partial_git) sim_manager sim_empty =
    ({| sim_paths := ["/repo/.goose-worktrees"]; sim_log := [] |}, Ok tt) /\
  snd (createWorktree (H := partial_git) "fix-x" (Some "main") sim_manager sim_empty) =
    Ok {| path := "/repo/.goose-worktrees/fix-x"; branch := "goose/fix-x"; commit := "abc1234" |} /\
  head (sim_log (fst (createWorktree (H := partial_git) "fix-x" (Some "main") sim_manager sim_empty)))
    = Some "git branch goose/fix-x main".
Proof.
  split; [reflexivity|].
  assert ("main" <> EmptyString) as Hbase by discriminate.
  pose proof (createWorktree_branch_failure_ignored (H := partial_git) "fix-x" "main" sim_manager
                sim_empty _ _ _ _ _ Hbase eq_refl eq_refl eq_refl eq_refl) as Hrun.
  split; [exact (f_equal snd Hrun) | exact (f_equal (fun r => head (sim_log (fst r))) Hrun)].
Defined.

End WorktreeMore.

(** ** Workstream coordinator *)

Module ManagerMore.

Import Client Manager ManagerFacts WorktreeFacts WorktreeMore.

(** *** One workstream at a time *)

Lemma same_except_refl w m : same_except w m m.
Proof. by split. Qed.

Lemma same_except_trans w m m1 m2 :
  same_except w m m1 -> same_except w m1 m2 -> same_except w m m2.
Proof.
  intros [? ? ? ? ? ? ? Hws1 Ht1 Hw1 Htab1] [? ? ? ? ? ? ? Hws2 Ht2 Hw2 Htab2].
  split; try congruence.
  - intros w' Hne. by rewrite Hws2, Hws1.
  - intros w' Hne. by rewrite Ht2, Ht1.
  - by rewrite Hw2.
  - by rewrite Htab2.
Qed.

Lemma same_except_set_workstream w ws ws' m :
  workstreams m !! w = Some ws ->
  same_except w m (set_workstreams (<[w := ws']> (workstreams m)) m).
Proof.
  intros Hws. split; simpl; try done.
  - intros w' Hne. by rewrite lookup_insert_ne.
  - rewrite lookup_insert_eq, Hws. by split.
Qed.

Lemma same_except_set_tools w tools tools' m :
  activeTools m !! w = Some tools ->
  same_except w m (set_activeTools (<[w := tools']> (activeTools m)) m).
Proof.
  intros Ht. split; simpl; try done.
  - intros w' Hne. by rewrite lookup_insert_ne.
  - rewrite lookup_insert_eq, Ht. by split.
Qed.

Lemma same_except_update t w u m : same_except w m (updateWorkstream t w u m).
Proof.
  unfold updateWorkstream. destruct (workstreams m !! w) as [ws|] eqn:Hws.
  - by eapply same_except_set_workstream.
  - apply same_except_refl.
Qed.

Lemma emit_delivered m w ev : Forall (delivered_to w) (emit m w ev).
Proof.
  unfold emit. apply Forall_forall. intros e He.
  apply list_elem_of_fmap in He as (h & -> & _). by exists h, ev.
Qed.

Lemma same_except_addNotification amb w ty title msg m :
  same_except w m (fst (addNotification amb w ty title msg m)) /\
  Forall (delivered_to w) (snd (addNotification amb w ty title msg m)).
Proof.
  unfold addNotification. simpl. split; [|apply emit_delivered].
  destruct (workstreams m !! w) as [ws|] eqn:Hws.
  - by eapply same_except_set_workstream.
  - apply same_except_refl.
Qed.

(** X14: Handling an inbound message of the workstream [w] touches at most
    the record and the tool table of [w]: every other workstream, the
    clients, the session ids, the observers and the permission tables
    stay as they are, no record or tool table is created or removed, and
    every observer call it makes is for [w]. *)
Theorem inbound_message_isolated (amb : Ambient) (w : string) (msg : AcpMessage)
    (m m' : WorkstreamManager) (effs : list Effect)
    (Hdone : handleAcpMessage amb w msg m = Done (m', effs)) :
  same_except w m m' /\ Forall (delivered_to w) effs.
Proof.
  revert Hdone. unfold handleAcpMessage.
  destruct (parseSessionUpdate msg) as [parsed|e]; [|discriminate].
  destruct (workstreams m !! w) as [ws|] eqn:Hws.
  2: { intros [= <- <-]. split; [apply same_except_refl | constructor]. }
  destruct (type parsed).
  - (* text *)
    unfold on_text. destruct (data parsed) as [| |b|n|txt|items|props]; simpl;
      try (intros [= <- <-]; split; [apply same_except_refl | constructor]).
    + destruct b; [discriminate|]. intros [= <- <-]. split; [apply same_except_refl | constructor].
    + destruct (negb (n =? 0)); [discriminate|].
      intros [= <- <-]. split; [apply same_except_refl | constructor].
    + destruct (negb (String.eqb txt EmptyString));
        [|intros [= <- <-]; split; [apply same_except_refl | constructor]].
      destruct (last (messageHistory ws)) as [lastMsg|]; [destruct (is_assistant lastMsg)|].
      all: intros [= <- <-]; split;
        [eapply same_except_trans; [by eapply same_except_set_workstream | apply same_except_update]
        | try constructor; apply emit_delivered].
    + discriminate.
    + discriminate.
  - (* thought *)
    unfold on_thought. destruct (data parsed) as [| |b|n|txt|items|props]; simpl;
      try (intros [= <- <-]; split; [apply same_except_refl | constructor]); try discriminate.
    + destruct b; [discriminate|]. intros [= <- <-]. split; [apply same_except_refl | constructor].
    + destruct (negb (n =? 0)); [discriminate|].
      intros [= <- <-]. split; [apply same_except_refl | constructor].
    + destruct (negb (String.eqb txt EmptyString)); intros [= <- <-];
        (split; [first [apply same_except_update | apply same_except_refl] | constructor]).
  - (* tool_call *)
    unfold on_tool_call.
    destruct (as_opt_string _) as [i|]; [|discriminate].
    destruct (as_opt_string _) as [title|]; [|discriminate].
    destruct (as_opt_string _) as [st|]; [|discriminate].
    intros [= <- <-]. split; [|apply emit_delivered].
    eapply same_except_trans; [|apply same_except_update].
    destruct (activeTools m !! w) as [tools|] eqn:Ht.
    + by eapply same_except_set_tools.
    + apply same_except_refl.
  - (* tool_update *)
    unfold on_tool_update.
    destruct (as_opt_string _) as [i|]; [|discriminate].
    destruct (as_opt_string _) as [st|]; [|discriminate].
    intros [= <- <-]. split; [|apply emit_delivered].
    destruct (activeTools m !! w) as [tools|] eqn:Ht; [|apply same_except_refl].
    destruct (string_truthy i); [|apply same_except_refl].
    destruct (tools !! i); [|apply same_except_refl].
    destruct (is_terminal st); by eapply same_except_set_tools.
  - (* permission_request *)
    unfold on_permission_request.
    match goal with |- context [addNotification ?a ?w ?ty ?t ?ms ?m0] =>
      destruct (same_except_addNotification a w ty t ms m0) as [Hse Hd];
      destruct (addNotification a w ty t ms m0) as [m2 effs2] end.
    simpl in *. intros [= <- <-]. split.
    + eapply same_except_trans; [apply same_except_update | exact Hse].
    + apply Forall_app. split; [done | apply emit_delivered].
  - intros [= <- <-]. split; [apply same_except_refl | constructor].
Qed.

(** *** What the coordinator keeps *)

Lemma inv_update t w u m : coordinator_inv m -> coordinator_inv (updateWorkstream t w u m).
Proof.
  intros (HP1 & Htab & HM1). unfold updateWorkstream.
  destruct (workstreams m !! w) as [ws|] eqn:Hws; [|done].
  split_and!; [done| |].
  - unfold tables_agree in *. simpl. by rewrite dom_insert_lookup_L.
  - unfold M1 in *. simpl. apply map_Forall_insert_2; [|done]. by apply (HM1 w ws).
Qed.

Lemma inv_history w ws h' m :
  coordinator_inv m -> workstreams m !! w = Some ws -> no_adjacent_agent h' = true ->
  coordinator_inv (set_workstreams (<[w := set_messageHistory h' ws]> (workstreams m)) m).
Proof.
  intros (HP1 & Htab & HM1) Hws Hh. split_and!; [done| |].
  - unfold tables_agree in *. simpl. by rewrite dom_insert_lookup_L.
  - unfold M1 in *. simpl. by apply map_Forall_insert_2.
Qed.

Lemma inv_notify amb w ty title msg m :
  coordinator_inv m -> coordinator_inv (fst (addNotification amb w ty title msg m)).
Proof.
  intros (HP1 & Htab & HM1). unfold addNotification. simpl.
  destruct (workstreams m !! w) as [ws|] eqn:Hws; [|done].
  split_and!; [done| |].
  - unfold tables_agree in *. simpl. by rewrite dom_insert_lookup_L.
  - unfold M1 in *. simpl. apply map_Forall_insert_2; [|done]. by apply (HM1 w ws).
Qed.

Lemma inv_tools w tools tools' m :
  coordinator_inv m -> activeTools m !! w = Some tools ->
  coordinator_inv (set_activeTools (<[w := tools']> (activeTools m)) m).
Proof.
  intros (HP1 & Htab & HM1) Ht. split_and!; [done| |done].
  unfold tables_agree in *. simpl. by rewrite dom_insert_lookup_L.
Qed.

Lemma inv_permissions p r m :
  coordinator_inv m -> dom p = dom r -> coordinator_inv (set_permissions p r m).
Proof. intros (HP1 & Htab & HM1) Hd. by split_and!. Qed.

Lemma no_adjacent_agent_snoc_other h x :
  no_adjacent_agent h = true -> is_assistant x = false -> no_adjacent_agent (h ++ [x]) = true.
Proof.
  intros Hh Hx. induction h as [|a h IH]; [done|].
  destruct h as [|b h]; simpl in *.
  - by rewrite Hx, andb_false_r.
  - apply andb_true_iff in Hh as [Hab Hrest]. rewrite Hab. simpl. by apply IH.
Qed.

Lemma inv_inbound amb w msg m m' effs :
  coordinator_inv m -> handleAcpMessage amb w msg m = Done (m', effs) -> coordinator_inv m'.
Proof.
  intros Hinv. unfold handleAcpMessage.
  destruct (parseSessionUpdate msg) as [parsed|e]; [|discriminate].
  destruct (workstreams m !! w) as [ws|] eqn:Hws; [|by intros [= <- <-]].
  pose proof (proj2 (proj2 Hinv) w ws Hws) as Hgood. simpl in Hgood.
  destruct (type parsed).
  - unfold on_text. destruct (data parsed) as [| |b|n|txt|items|props]; simpl;
      try (by intros [= <- <-]); try discriminate.
    + destruct b; [discriminate|]. by intros [= <- <-].
    + destruct (negb (n =? 0)); [discriminate|]. by intros [= <- <-].
    + destruct (negb (String.eqb txt EmptyString)); [|by intros [= <- <-]].
      destruct (last (messageHistory ws)) as [lastMsg|] eqn:Hlast;
        [destruct (is_assistant lastMsg) eqn:Hrole|].
      all: intros [= <- <-]; apply inv_update, inv_history; try done.
      * by rewrite no_adjacent_agent_append.
      * apply no_adjacent_agent_snoc; [done|]. unfold trailing_agent. by rewrite Hlast.
      * apply last_None in Hlast. by rewrite Hlast.
  - unfold on_thought. destruct (data parsed) as [| |b|n|txt|items|props]; simpl;
      try (by intros [= <- <-]); try discriminate.
    + destruct b; [discriminate|]. by intros [= <- <-].
    + destruct (negb (n =? 0)); [discriminate|]. by intros [= <- <-].
    + destruct (negb (String.eqb txt EmptyString)); intros [= <- <-]; [by apply inv_update|done].
  - unfold on_tool_call.
    destruct (as_opt_string _) as [i|]; [|discriminate].
    destruct (as_opt_string _) as [title|]; [|discriminate].
    destruct (as_opt_string _) as [st|]; [|discriminate].
    intros [= <- <-]. apply inv_update.
    destruct (activeTools m !! w) as [tools|] eqn:Ht; [by eapply inv_tools | done].
  - unfold on_tool_update.
    destruct (as_opt_string _) as [i|]; [|discriminate].
    destruct (as_opt_string _) as [st|]; [|discriminate].
    intros [= <- <-].
    destruct (activeTools m !! w) as [tools|] eqn:Ht; [|done].
    destruct (string_truthy i); [|done].
    destruct (tools !! i); [|done].
    destruct (is_terminal st); by eapply inv_tools.
  - unfold on_permission_request.
    match goal with |- context [addNotification ?a ?w ?ty ?t ?ms ?m0] =>
      pose proof (inv_notify a w ty t ms m0 (inv_update _ _ _ _ Hinv)) as Hn;
      destruct (addNotification a w ty t ms m0) as [m2 effs2] end.
    by intros [= <- <-].
  - by intros [= <- <-].
Qed.

Lemma inv_permission_request amb w msg m m' effs :
  coordinator_inv m -> handlePermissionRequest amb w msg m = Done (m', effs) -> coordinator_inv m'.
Proof.
  intros Hinv. unfold handlePermissionRequest.
  destruct (get (msg_params msg) "toolCallUpdate") as [tcu|e]; [|discriminate].
  destruct (as_opt_string _) as [title|]; [|discriminate].
  match goal with |- context [addNotification ?a ?w ?ty ?t ?ms ?m0] =>
    pose proof (inv_notify a w ty t ms m0 (inv_update _ _ _ _ Hinv)) as Hn;
    destruct (addNotification a w ty t ms m0) as [m2 effs2] end.
  simpl in *. intros [= <- <-].
  destruct Hn as (HP1 & Htab & HM1). split_and!; [|done|done].
  unfold P1 in *. simpl. by rewrite !dom_insert_L, HP1.
Qed.

Lemma inv_respond amb w optionId m m' effs :
  coordinator_inv m -> respondToPermission amb w optionId m = Ok (m', effs) -> coordinator_inv m'.
Proof.
  intros Hinv. unfold respondToPermission.
  destruct (permissionResolvers m !! w); [|discriminate].
  intros [= <- <-]. apply inv_update, inv_permissions; [done|].
  destruct Hinv as (HP1 & _). unfold P1 in HP1. by rewrite !dom_delete_L, HP1.
Qed.

Lemma inv_prompt_failed amb w e m :
  coordinator_inv m -> coordinator_inv (fst (sendPrompt_failed amb w e m)).
Proof. intros Hinv. unfold sendPrompt_failed. simpl. by apply inv_update. Qed.

Lemma inv_clients t m : coordinator_inv m -> coordinator_inv (set_clients t m).
Proof. by intros (? & ? & ?). Qed.

Lemma inv_prompt amb w prompt reply m m' effs p :
  coordinator_inv m -> sendPrompt_begin amb w prompt reply m = Ok (m', effs, p) ->
  coordinator_inv m'.
Proof.
  intros Hinv. unfold sendPrompt_begin.
  destruct (clients m !! w) as [client|]; [|discriminate].
  destruct (negb (string_truthy (acpSessionIds m !! w))); [discriminate|].
  set (m1 := match workstreams m !! w with Some _ => _ | None => m end).
  assert (coordinator_inv m1) as H1.
  { subst m1. destruct (workstreams m !! w) as [ws|] eqn:Hws; [|done].
    apply inv_history; [done..|].
    apply no_adjacent_agent_snoc_other; [|done]. by apply (proj2 (proj2 Hinv) w ws). }
  destruct (sendRequest _ _ reply client) as [[client' ceffs] [q|e]].
  - intros [= <- <- <-]. by apply inv_clients, inv_update.
  - match goal with |- context [sendPrompt_failed ?a ?w ?e ?m0] =>
      pose proof (inv_prompt_failed a w e m0) as Hf;
      destruct (sendPrompt_failed a w e m0) as [m4 effs4] end.
    intros [= <- <- <-]. apply Hf. by apply inv_clients, inv_update.
Qed.

Lemma inv_register amb name task m :
  coordinator_inv m -> coordinator_inv (fst (createWorkstream_register amb name task m)).
Proof.
  intros (HP1 & Htab & HM1). split_and!; [done| |by apply M1_register].
  unfold tables_agree in *. simpl. by rewrite !dom_insert_L, Htab.
Qed.

Section Actions.

Context {World : Type} {H : Worktree.Host World}.

Lemma inv_stop w cleanup m (world : World) :
  coordinator_inv m -> coordinator_inv (fst (snd (stopWorkstream w cleanup m world))).
Proof.
  intros (HP1 & Htab & HM1). unfold stopWorkstream.
  destruct (clients m !! w); simpl.
  all: split_and!; [done| |].
  all: try (unfold tables_agree in *; simpl; by rewrite !dom_delete_L, Htab).
  all: unfold M1 in *; simpl; by apply map_Forall_delete.
Qed.

Lemma inv_act a m (world world' : World) m' effs :
  coordinator_inv m -> act a m world = Some (world', (m', effs)) -> coordinator_inv m'.
Proof.
  intros Hinv. destruct a; simpl.
  - intros [= _ <- _]. by apply inv_register.
  - destruct (handleAcpMessage amb w msg m) as [[m1 effs1]|e|] eqn:Hrun; [| |done].
    + intros [= _ <- _]. by eapply inv_inbound.
    + by intros [= _ <- _].
  - destruct (handlePermissionRequest amb w msg m) as [[m1 effs1]|e|] eqn:Hrun; [| |done].
    + intros [= _ <- _]. by eapply inv_permission_request.
    + by intros [= _ <- _].
  - destruct (respondToPermission amb w optionId m) as [[m1 effs1]|e] eqn:Hrun.
    + intros [= _ <- _]. by eapply inv_respond.
    + by intros [= _ <- _].
  - intros [= _ <- _]. by apply inv_update.
  - intros [= _ <- _]. by apply inv_update.
  - destruct (sendPrompt_begin amb w prompt reply m) as [[[m1 effs1] p]|e] eqn:Hrun.
    + intros [= _ <- _]. by eapply inv_prompt.
    + by intros [= _ <- _].
  - intros [= _ Hr]. replace m' with (fst (sendPrompt_settled amb w answer m)) by (by rewrite Hr).
    unfold sendPrompt_settled.
    destruct answer as [v|e]; [|by apply inv_prompt_failed].
    destruct (workstreams m !! w) as [ws|]; [|done].
    destruct (is_running (status ws)); simpl; [by apply inv_update | done].
  - intros [= _ <- _]. by apply inv_update.
  - intros [= _ <- _]. by destruct Hinv as (? & ? & ?).
  - intros [= _ <- _]. by destruct Hinv as (? & ? & ?).
  - intros Hstop. pose proof (inv_stop w cleanup m world Hinv) as Hs.
    injection Hstop as Hstop. by rewrite Hstop in Hs.
Qed.

Lemma optional_string_read v : optional_string v = true -> is_Some (as_opt_string v).
Proof. by destruct v. Qed.

Lemma typed_inbound_followed amb w msg m :
  typed_inbound msg = true -> handleAcpMessage amb w msg m <> Untyped.
Proof.
  unfold typed_inbound, handleAcpMessage.
  destruct (parseSessionUpdate msg) as [parsed|e]; [|done].
  destruct (workstreams m !! w) as [ws|]; [|done].
  destruct (type parsed); try done.
  - unfold on_text, guarded_text.
    destruct (data parsed) as [| |b|n|txt|items|props]; simpl; try done.
    + by destruct b.
    + by destruct (n =? 0).
    + intros _. destruct (negb (String.eqb txt EmptyString)); [|done].
      destruct (last (messageHistory ws)) as [l|]; [destruct (is_assistant l)|]; done.
  - unfold on_thought, guarded_text.
    destruct (data parsed) as [| |b|n|txt|items|props]; simpl; try done.
    + by destruct b.
    + by destruct (n =? 0).
    + intros _. by destruct (negb (String.eqb txt EmptyString)).
  - unfold on_tool_call. intros Ht.
    apply andb_true_iff in Ht as [Ht Hst]. apply andb_true_iff in Ht as [Hi Htitle].
    apply optional_string_read in Hi as [? ->]. apply optional_string_read in Htitle as [? ->].
    by apply optional_string_read in Hst as [? ->].
  - unfold on_tool_update. intros Ht. apply andb_true_iff in Ht as [Hi Hst].
    apply optional_string_read in Hi as [? ->].
    by apply optional_string_read in Hst as [? ->].
Qed.

Lemma typed_request_followed amb w msg m :
  typed_request msg = true -> handlePermissionRequest amb w msg m <> Untyped.
Proof.
  unfold typed_request, handlePermissionRequest. intros Ht.
  destruct (msg_params msg) as [| |b|n|txt|items|props]; simpl in *; try done.
  all: apply optional_string_read in Ht as [title Ht]; by rewrite ?Ht.
Qed.

Lemma typed_action_followed a m (world : World) :
  typed_action a = true -> is_Some (act a m world).
Proof.
  destruct a; simpl; try done.
  - intros Ht. pose proof (typed_inbound_followed amb w msg m Ht).
    by destruct (handleAcpMessage amb w msg m) as [[m1 effs1]|e|].
  - intros Ht. pose proof (typed_request_followed amb w msg m Ht).
    by destruct (handlePermissionRequest amb w msg m) as [[m1 effs1]|e|].
  - intros _. by destruct (respondToPermission amb w optionId m) as [[m1 effs1]|e].
  - intros _. by destruct (sendPrompt_begin amb w prompt reply m) as [[[m1 effs1] p]|e].
Qed.

(** X15: A new coordinator has P1, M1 and agreeing tables, and whatever is
    done to a coordinator that has them (registrations, inbound messages,
    permission requests and answers, prompts and their settlement, pause,
    resume, client errors, subscriptions, stops) leaves it with them, as
    far as the run is one the model follows; it follows every run whose
    inbound messages and permission requests carry payloads of the
    declared interfaces. *)
Theorem coordinator_keeps_invariants (cfg : WorkstreamManagerConfig) (actions : list Action)
    (m : WorkstreamManager) (world : World) :
  coordinator_inv (new_WorkstreamManager cfg) /\
  (forall world' m' effs,
     coordinator_inv m -> run_actions actions m world = Some (world', (m', effs)) ->
     coordinator_inv m') /\
  (forallb typed_action actions = true -> is_Some (run_actions actions m world)).
Proof.
  split_and!.
  - split_and!; [done | done |]. unfold M1. simpl. apply map_Forall_empty.
  - revert m world. induction actions as [|a actions IH]; intros m world world' m' effs Hinv; simpl.
    + by intros [= _ <- _].
    + destruct (act a m world) as [[world1 [m1 effs1]]|] eqn:Hact; [|done].
      pose proof (inv_act _ _ _ _ _ _ Hinv Hact) as H1.
      destruct (run_actions actions m1 world1) as [[world2 [m2 effs2]]|] eqn:Hrun; [|done].
      intros [= _ <- _]. by eapply IH.
  - revert m world. induction actions as [|a actions IH]; intros m world Htyped; simpl; [done|].
    apply andb_true_iff in Htyped as [Ha Hrest].
    destruct (typed_action_followed a m world Ha) as [[world1 [m1 effs1]] ->].
    by destruct (IH m1 world1 Hrest) as [[world2 [m2 effs2]] ->].
Qed.

End Actions.

(** *** Permissions *)

Lemma updateWorkstream_status t w s a m ws :
  workstreams m !! w = Some ws ->
  exists ws',
    workstreams (updateWorkstream t w (status_and_activity s a) m) !! w = Some ws' /\
    status ws' = s /\ currentActivity ws' = a /\ lastActivity ws' = t /\
    notifications ws' = notifications ws /\ messageHistory ws' = messageHistory ws.
Proof.
  intros Hws. unfold updateWorkstream. rewrite Hws. simpl. rewrite lookup_insert_eq.
  by eexists.
Qed.

Lemma handlePermissionRequest_done amb w msg m m' effs :
  handlePermissionRequest amb w msg m = Done (m', effs) ->
  pendingPermissions m' =
    <[w := {| requestId := msg_id msg; params := msg_params msg; workstreamId := w |}]>
      (pendingPermissions m) /\
  permissionResolvers m' = <[w := {| resolves := msg_id msg |}]> (permissionResolvers m) /\
  clients m' = clients m /\
  (forall ws, workstreams m !! w = Some ws ->
     exists ws', workstreams m' !! w = Some ws' /\ status ws' = waiting /\
       map n_type (notifications ws') = map n_type (notifications ws) ++ [action_required]).
Proof.
  unfold handlePermissionRequest.
  destruct (get (msg_params msg) "toolCallUpdate") as [tcu|e]; [|discriminate].
  destruct (as_opt_string _) as [title|]; [|discriminate].
  set (m1 := updateWorkstream _ _ _ m).
  unfold addNotification. simpl. intros [= <- <-]. simpl.
  assert (pendingPermissions m1 = pendingPermissions m /\
          permissionResolvers m1 = permissionResolvers m /\ clients m1 = clients m) as (Hp & Hr & Hc).
  { subst m1. unfold updateWorkstream. by destruct (workstreams m !! w). }
  split_and!.
  - by destruct (workstreams m1 !! w); simpl; rewrite Hp.
  - by destruct (workstreams m1 !! w); simpl; rewrite Hr.
  - by destruct (workstreams m1 !! w); simpl; rewrite Hc.
  - intros ws Hws.
    destruct (updateWorkstream_status (now amb) w waiting
                ("Permission needed: " +:+
                 (if string_truthy title then default EmptyString title else "Tool execution"))
                m ws Hws) as (ws1 & Hws1 & Hst & _ & _ & Hn & _).
    fold m1 in Hws1. rewrite Hws1. simpl. rewrite lookup_insert_eq.
    eexists. split; [done|]. simpl. split; [done|]. by rewrite map_app, Hn.
Qed.

(** X16: The permission round trip: the handler of [request_permission] puts
    the workstream into [waiting], appends one [action_required]
    notification and stores the record and the resolver of the request;
    [respondToPermission] then calls that resolver with the chosen
    option, empties both tables for the workstream and puts it back into
    [running]; and the transport answers the remote with an envelope of
    the same id whose [result] is that value. *)
Theorem permission_request_round_trip (amb amb' : Ambient) (w optionId : string) (msg : AcpMessage)
    (i : MsgId) (m m1 : WorkstreamManager) (effs : list Effect) (ws : Workstream)
    (c : AcpClient) (statusText : string)
    (Hws : workstreams m !! w = Some ws)
    (Hid : msg_id msg = Some i)
    (Hrequest : handlePermissionRequest amb w msg m = Done (m1, effs)) :
  (exists ws1, workstreams m1 !! w = Some ws1 /\ status ws1 = waiting /\
     map n_type (notifications ws1) = map n_type (notifications ws) ++ [action_required]) /\
  getPendingPermission w m1 =
    Some {| requestId := Some i; params := msg_params msg; workstreamId := w |} /\
  (exists m2 ws2,
     respondToPermission amb' w optionId m1 =
       Ok (m2, [ResolverCalled {| resolves := Some i |} (permission_response optionId)]) /\
     getPendingPermission w m2 = None /\ permissionResolvers m2 !! w = None /\
     workstreams m2 !! w = Some ws2 /\ status ws2 = running) /\
  requestHandlerSettled i (Ok (permission_response optionId))
      (HttpReply true statusText) (HttpReply true statusText) c =
    ([Posted (message_url c)
        {| jsonrpc := "2.0"; msg_id := Some i; msg_method := None; msg_params := VUndef;
           msg_result := permission_response optionId; msg_error := None |}], Ok tt).
Proof.
  destruct (handlePermissionRequest_done _ _ _ _ _ _ Hrequest) as (Hp & Hr & _ & Hst).
  destruct (Hst ws Hws) as (ws1 & Hws1 & Hwait & Hnote).
  split_and!.
  - eauto.
  - unfold getPendingPermission. by rewrite Hp, lookup_insert_eq, Hid.
  - unfold respondToPermission, getPendingPermission. rewrite Hr, lookup_insert_eq, Hid.
    set (m' := set_permissions _ _ m1).
    destruct (updateWorkstream_status (now amb') w running "Continuing..." m' ws1 Hws1)
      as (ws2 & Hws2 & Hrun & _).
    destruct (updateWorkstream_permissions (now amb') w
                (status_and_activity running "Continuing...") m') as [Hp' Hr'].
    exists (updateWorkstream (now amb') w (status_and_activity running "Continuing...") m'), ws2.
    rewrite Hp', Hr'. simpl. by rewrite !lookup_delete_eq.
  - reflexivity.
Qed.

Lemma permission_request_round_trip_witness :
  workstreams demo_manager !! "w1" = Some demo_workstream /\
  msg_id permission_request_42 = Some (inl 42) /\
  exists m1 effs m2 ws2,
    handlePermissionRequest (at_time 3) "w1" permission_request_42 demo_manager = Done (m1, effs) /\
    respondToPermission (at_time 4) "w1" "a" m1 =
      Ok (m2, [ResolverCalled {| resolves := Some (inl 42) |} (permission_response "a")]) /\
    workstreams m2 !! "w1" = Some ws2 /\ status ws2 = running.
Proof.
  split; [reflexivity|]. split; [reflexivity|].
  destruct (handlePermissionRequest (at_time 3) "w1" permission_request_42 demo_manager)
    as [[m1 effs]|e|] eqn:Hrun; [|discriminate Hrun|discriminate Hrun].
  destruct (permission_request_round_trip (at_time 3) (at_time 4) "w1" "a" permission_request_42 (inl 42)
              demo_manager m1 effs demo_workstream demo_listener "OK" eq_refl eq_refl Hrun)
    as (_ & _ & (m2 & ws2 & Hresp & _ & _ & Hws2 & Hst) & _).
  exists m1, effs, m2, ws2. by split_and!.
Defined.

(** X17: A permission is answered once: after an answer the workstream has no
    resolver, and a second answer throws. *)
Theorem permission_answered_once (amb amb' : Ambient) (w optionId optionId' : string)
    (m m' : WorkstreamManager) (effs : list Effect)
    (Hfirst : respondToPermission amb w optionId m = Ok (m', effs)) :
  respondToPermission amb' w optionId' m' =
    Throw (Error "No pending permission request for this workstream").
Proof.
  revert Hfirst. unfold respondToPermission.
  destruct (permissionResolvers m !! w) as [r|]; [|discriminate].
  intros [= <- <-].
  destruct (updateWorkstream_permissions (now amb) w (status_and_activity running "Continuing...")
              (set_permissions (delete w (pendingPermissions m))
                 (delete w (permissionResolvers m)) m)) as [_ ->].
  simpl. by rewrite lookup_delete_eq.
Qed.

Lemma permission_answered_once_witness :
  exists m',
    respondToPermission (at_time 4) "w1" "a" demo_waiting =
      Ok (m', [ResolverCalled {| resolves := Some (inl 42) |} (permission_response "a")]) /\
    respondToPermission (at_time 5) "w1" "r" m' =
      Throw (Error "No pending permission request for this workstream").
Proof.
  destruct (respondToPermission (at_time 4) "w1" "a" demo_waiting) as [[m' effs]|e] eqn:Hrun;
    [|discriminate Hrun].
  exists m'. split.
  - f_equal. f_equal. revert Hrun. vm_compute. by intros [= _ <-].
  - exact (permission_answered_once (at_time 4) (at_time 5) "w1" "a" "r" demo_waiting m' effs Hrun).
Defined.

(** X18: A second [request_permission] for a workstream that still waits
    replaces the record and the resolver of the first: the answer of the
    operator then goes to the second request, and the resolver of the
    first is never called. *)
Theorem second_request_replaces_first (amb1 amb2 amb3 : Ambient) (w optionId : string)
    (msg1 msg2 : AcpMessage) (m m1 m2 : WorkstreamManager) (effs1 effs2 : list Effect)
    (Hfirst : handlePermissionRequest amb1 w msg1 m = Done (m1, effs1))
    (Hsecond : handlePermissionRequest amb2 w msg2 m1 = Done (m2, effs2)) :
  getPendingPermission w m2 =
    Some {| requestId := msg_id msg2; params := msg_params msg2; workstreamId := w |} /\
  exists m3,
    respondToPermission amb3 w optionId m2 =
      Ok (m3, [ResolverCalled {| resolves := msg_id msg2 |} (permission_response optionId)]) /\
    permissionResolvers m3 !! w = None /\ getPendingPermission w m3 = None.
Proof.
  destruct (handlePermissionRequest_done _ _ _ _ _ _ Hsecond) as (Hp & Hr & _ & _).
  split.
  - unfold getPendingPermission. by rewrite Hp, lookup_insert_eq.
  - unfold respondToPermission, getPendingPermission. rewrite Hr, lookup_insert_eq.
    eexists. split; [reflexivity|].
    match goal with |- context [updateWorkstream ?t ?w ?u ?m0] =>
      destruct (updateWorkstream_permissions t w u m0) as [-> ->] end.
    simpl. by rewrite !lookup_delete_eq.
Qed.

Lemma second_request_witness :
  exists effs1 m2 effs2 m3,
    handlePermissionRequest (at_time 3) "w1" permission_request_42 demo_manager =
      Done (demo_waiting, effs1) /\
    handlePermissionRequest (at_time 4) "w1"
      (request_envelope (Some (inl 43)) (Some "request_permission") (msg_params permission_request_42))
      demo_waiting = Done (m2, effs2) /\
    respondToPermission (at_time 5) "w1" "a" m2 =
      Ok (m3, [ResolverCalled {| resolves := Some (inl 43) |} (permission_response "a")]).
Proof.
  assert (exists effs1,
            handlePermissionRequest (at_time 3) "w1" permission_request_42 demo_manager =
              Done (demo_waiting, effs1)) as [effs1 H1].
  { eexists. vm_compute. reflexivity. }
  assert (exists m2 effs2,
            handlePermissionRequest (at_time 4) "w1"
              (request_envelope (Some (inl 43)) (Some "request_permission")
                 (msg_params permission_request_42)) demo_waiting = Done (m2, effs2))
    as (m2 & effs2 & H2).
  { eexists _, _. vm_compute. reflexivity. }
  destruct (second_request_replaces_first (at_time 3) (at_time 4) (at_time 5) "w1" "a"
              _ _ _ _ _ _ _ H1 H2) as (_ & m3 & Hresp & _).
  exists effs1, m2, effs2, m3. by split_and!.
Defined.

(** *** Stopping *)

Section Stopping.

Context {World : Type} {H : Worktree.Host World}.

Lemma stopWorkstream_tables (w : string) (cleanup : bool) (m : WorkstreamManager) (world : World) :
  workstreams (fst (snd (stopWorkstream w cleanup m world))) = delete w (workstreams m) /\
  permissionResolvers (fst (snd (stopWorkstream w cleanup m world))) = permissionResolvers m.
Proof. unfold stopWorkstream. by destruct (clients m !! w). Qed.

(** X19: [stopWorkstream] removes the workstream from the four tables keyed by
    its id and from nothing else: the permission tables and the
    observers are kept, no observer is called, and without [cleanup] (or
    for a workstream without a working copy, or without a provider) the
    repository is not touched. *)
Theorem stop_removes_one (w : string) (cleanup : bool) (m : WorkstreamManager) (world : World) :
  let stopped := stopWorkstream w cleanup m world in
  let m' := fst (snd stopped) in
  workstreams m' = delete w (workstreams m) /\
  clients m' = delete w (clients m) /\
  acpSessionIds m' = delete w (acpSessionIds m) /\
  activeTools m' = delete w (activeTools m) /\
  pendingPermissions m' = pendingPermissions m /\
  permissionResolvers m' = permissionResolvers m /\
  eventHandlers m' = eventHandlers m /\
  Forall (fun e => exists ce, e = ClientEffect w ce) (snd (snd stopped)) /\
  (cleanup = false \/ worktreeManager m = None \/
   string_truthy (workstreams m !! w ≫= worktreePath) = false -> fst stopped = world).
Proof.
  cbv zeta. unfold stopWorkstream.
  destruct (clients m !! w) as [c|] eqn:Hc; simpl.
  - split_and!; try done.
    + apply Forall_forall. intros e He. apply list_elem_of_fmap in He as (ce & -> & _). eauto.
    + intros Hskip. destruct (workstreams m !! w) as [ws|]; [|done]. simpl in Hskip.
      destruct (worktreeManager m); [|done].
      destruct Hskip as [-> | [? | ->]]; try done. by rewrite andb_false_r.
  - split_and!; try done.
    + by rewrite delete_id.
    + intros Hskip. destruct (workstreams m !! w) as [ws|]; [|done]. simpl in Hskip.
      destruct (worktreeManager m); [|done].
      destruct Hskip as [-> | [? | ->]]; try done. by rewrite andb_false_r.
Qed.

(** X20: After [stopWorkstream] a late inbound message of the workstream is
    dropped (or its parse error is raised) without any change, while a
    resolver the workstream still had stays in place: the operator's
    answer is then accepted, calls the resolver, and sets no state. *)
Theorem after_stop (w optionId : string) (cleanup : bool) (m : WorkstreamManager) (world : World)
    (amb : Ambient) (msg : AcpMessage) (resolver : PermissionResolver)
    (Hresolver : permissionResolvers m !! w = Some resolver) :
  let m' := fst (snd (stopWorkstream w cleanup m world)) in
  (handleAcpMessage amb w msg m' = Done (m', []) \/
   exists e, handleAcpMessage amb w msg m' = Raised e) /\
  exists m2,
    respondToPermission amb w optionId m' =
      Ok (m2, [ResolverCalled resolver (permission_response optionId)]) /\
    workstreams m2 = delete w (workstreams m).
Proof.
  cbv zeta.
  destruct (stopWorkstream_tables w cleanup m world) as (Hws & Hr).
  set (m' := fst (snd (stopWorkstream w cleanup m world))) in *.
  split.
  - unfold handleAcpMessage. destruct (parseSessionUpdate msg) as [parsed|e]; [|eauto].
    left. by rewrite Hws, lookup_delete_eq.
  - unfold respondToPermission. rewrite Hr, Hresolver. eexists. split; [reflexivity|].
    unfold updateWorkstream. simpl. by rewrite Hws, lookup_delete_eq.
Qed.

End Stopping.

Lemma after_stop_witness :
  permissionResolvers demo_waiting !! "w1" = Some {| resolves := Some (inl 42) |} /\
  exists m2,
    respondToPermission (at_time 9) "w1" "a"
      (fst (snd (stopWorkstream (H := Worktree.failing_git) "w1" true demo_waiting Worktree.sim_empty))) =
      Ok (m2, [ResolverCalled {| resolves := Some (inl 42) |} (permission_response "a")]) /\
    workstreams m2 = delete "w1" (workstreams demo_waiting).
Proof.
  split; [reflexivity|].
  exact (proj2 (after_stop (H := Worktree.failing_git) "w1" "a" true demo_waiting Worktree.sim_empty (at_time 9)
                  update_without_params {| resolves := Some (inl 42) |} eq_refl)).
Defined.

Lemma stop_removes_one_witness :
  string_truthy (workstreams demo_manager !! "w1" ≫= worktreePath) = false /\
  fst (stopWorkstream (H := Worktree.failing_git) "w1" true demo_manager Worktree.sim_empty) = Worktree.sim_empty /\
  workstreams (fst (snd (stopWorkstream (H := Worktree.failing_git) "w1" true demo_manager Worktree.sim_empty))) =
    delete "w1" (workstreams demo_manager).
Proof.
  split; [reflexivity|].
  destruct (stop_removes_one (H := Worktree.failing_git) "w1" true demo_manager Worktree.sim_empty)
    as (Hws & _ & _ & _ & _ & _ & _ & _ & Hworld).
  split; [apply Hworld; right; right; reflexivity | exact Hws].
Defined.

(** *** Inbound updates *)

(** X21: A [tool_call_update] never touches the workstream table (the last
    activity of the workstream is not refreshed) and is passed to every
    observer once, whether or not the tool is known; when the tool is not
    in the table, or the update has no id or the empty id, the tool table
    is unchanged as well. *)
Theorem tool_update_keeps_records (amb : Ambient) (w sid : string) (i st : option string)
    (m : WorkstreamManager) (ws : Workstream)
    (Hws : workstreams m !! w = Some ws) :
  exists m',
    handleAcpMessage amb w (tool_call_update_message sid i st) m =
      Done (m', map (fun h => Delivered h w (tool_update_event i st)) (eventHandlers m)) /\
    workstreams m' = workstreams m /\
    (string_truthy i = false \/ (activeTools m !! w ≫= fun tools => tools !! i) = None ->
     activeTools m' = activeTools m).
Proof.
  destruct (handle_tool_update w amb sid i st m ws Hws) as (m' & Hrun & Ht).
  exists m'. split; [done|].
  split.
  - revert Hrun. unfold handleAcpMessage.
    change (parseSessionUpdate (tool_call_update_message sid i st))
      with (Ok {| type := tool_update; su_sessionId := VStr sid;
                  data := VObj [("id", of_opt_string i); ("status", of_opt_string st);
                                ("content", VUndef)] |}).
    rewrite Hws. simpl. unfold on_tool_update. simpl. rewrite !as_opt_of_opt.
    intros [= <- _].
    destruct (activeTools m !! w); [|done].
    destruct (string_truthy i); [|done].
    destruct (_ !! i); [|done]. by destruct (is_terminal st).
  - intros Hskip. rewrite Ht.
    destruct (activeTools m !! w) as [tools|]; [|done]. simpl in Hskip.
    destruct (string_truthy i); [|done].
    destruct Hskip as [? | ->]; done.
Qed.

Lemma tool_update_keeps_records_witness :
  workstreams demo_manager !! "w1" = Some demo_workstream /\
  handleAcpMessage (at_time 2) "w1"
    (tool_call_update_message "s1" (Some "t9") (Some "completed")) demo_manager =
    Done (demo_manager, [Delivered 7%nat "w1" (tool_update_event (Some "t9") (Some "completed"))]).
Proof.
  split; [reflexivity|].
  destruct (tool_update_keeps_records (at_time 2) "w1" "s1" (Some "t9") (Some "completed")
              demo_manager demo_workstream eq_refl) as (m' & Hrun & _).
  rewrite Hrun. f_equal. f_equal. revert Hrun. vm_compute. by intros [= <-].
Defined.

Lemma handle_thought amb w sid txt m ws :
  workstreams m !! w = Some ws ->
  handleAcpMessage amb w (agent_thought_chunk sid txt) m =
    Done (if string_truthy txt
          then updateWorkstream (now amb) w
                 (activity_only ("ðŸ’­ " +:+ slice0 100 (default EmptyString txt))) m
          else m, []).
Proof.
  intros Hws. unfold handleAcpMessage.
  change (parseSessionUpdate (agent_thought_chunk sid txt))
    with (Ok {| type := thought; su_sessionId := VStr sid;
                data := or_else (of_opt_string txt) (VStr EmptyString) |}).
  rewrite Hws. simpl. destruct txt as [t|]; [|done]. simpl.
  unfold or_else. simpl. destruct (String.eqb t EmptyString) eqn:Ht; simpl; [done|].
  by rewrite Ht.
Qed.

(** X22: A thought chunk is ephemeral: it calls no observer and changes
    nothing but the activity text and the time of the last activity of
    its workstream. With text, the activity becomes the thought mark
    followed by the first 100 characters of the text; without text the
    chunk changes nothing at all. *)
Theorem thought_is_ephemeral (amb : Ambient) (w sid : string) (txt : option string)
    (m : WorkstreamManager) (ws : Workstream)
    (Hws : workstreams m !! w = Some ws) :
  exists m' ws',
    handleAcpMessage amb w (agent_thought_chunk sid txt) m = Done (m', []) /\
    workstreams m' !! w = Some ws' /\
    messageHistory ws' = messageHistory ws /\ notifications ws' = notifications ws /\
    status ws' = status ws /\
    lastActivity ws' = (if string_truthy txt then now amb else lastActivity ws) /\
    currentActivity ws' =
      (if string_truthy txt then "ðŸ’­ " +:+ slice0 100 (default EmptyString txt)
       else currentActivity ws) /\
    (forall w', w' <> w -> workstreams m' !! w' = workstreams m !! w') /\
    activeTools m' = activeTools m /\
    (string_truthy txt = false -> m' = m).
Proof.
  rewrite (handle_thought amb w sid txt m ws Hws).
  destruct (string_truthy txt).
  - eexists _, _. split; [reflexivity|].
    rewrite (updateWorkstream_lookup _ _ _ _ _ Hws), updateWorkstream_activeTools.
    split_and!; try done.
    intros w' Hne. unfold updateWorkstream. rewrite Hws. simpl. by rewrite lookup_insert_ne.
  - exists m, ws. by split_and!.
Qed.

Lemma thought_is_ephemeral_witness :
  workstreams demo_manager !! "w1" = Some demo_workstream /\
  exists m' ws',
    handleAcpMessage (at_time 6) "w1" (agent_thought_chunk "s1" (Some "hm")) demo_manager =
      Done (m', []) /\
    workstreams m' !! "w1" = Some ws' /\ messageHistory ws' = [] /\ lastActivity ws' = 6 /\
    currentActivity ws' = "ðŸ’­ " +:+ "hm".
Proof.
  split; [reflexivity|].
  destruct (thought_is_ephemeral (at_time 6) "w1" "s1" (Some "hm") demo_manager demo_workstream
              eq_refl) as (m' & ws' & Hrun & Hws' & Hh & _ & _ & Hlast & Hact & _).
  exists m', ws'. by split_and!.
Defined.

(** X23: A text chunk with text sets the activity of its workstream to the
    first 100 characters of that text and refreshes the time of the last
    activity; the state and the notifications stay as they are. *)
Theorem text_chunk_activity (amb : Ambient) (w sid txt : string)
    (m : WorkstreamManager) (ws : Workstream)
    (Hws : workstreams m !! w = Some ws) (Htxt : txt <> EmptyString) :
  exists m' effs ws',
    handleAcpMessage amb w (agent_message_chunk sid (Some txt)) m = Done (m', effs) /\
    workstreams m' !! w = Some ws' /\
    currentActivity ws' = slice0 100 txt /\
    (String.length (currentActivity ws') <= 100)%nat /\
    lastActivity ws' = now amb /\
    status ws' = status ws /\ notifications ws' = notifications ws.
Proof.
  assert (string_truthy (Some txt) = true) as Htruthy.
  { simpl. destruct (String.eqb txt EmptyString) eqn:He; [by apply String.eqb_eq in He|done]. }
  rewrite (handle_chunk amb w sid (Some txt) m ws Hws), Htruthy. cbv zeta.
  set (h' := if trailing_agent (messageHistory ws) then _ else _).
  eexists _, _, (assign (set_messageHistory h' ws) (activity_only (slice0 100 txt)) (now amb)).
  split; [reflexivity|].
  split; [apply updateWorkstream_lookup; simpl; apply lookup_insert_eq|].
  split; [reflexivity|].
  split; [change (String.length (slice0 100 txt) <= 100)%nat; apply slice0_length|].
  by split_and!.
Qed.

Lemma text_chunk_activity_witness :
  workstreams demo_manager !! "w1" = Some demo_workstream /\
  exists m' effs ws',
    handleAcpMessage (at_time 6) "w1" (agent_message_chunk "s1" (Some "Hello")) demo_manager =
      Done (m', effs) /\
    workstreams m' !! "w1" = Some ws' /\ currentActivity ws' = "Hello" /\ lastActivity ws' = 6.
Proof.
  split; [reflexivity|].
  assert ("Hello" <> EmptyString) as Hne by discriminate.
  destruct (text_chunk_activity (at_time 6) "w1" "s1" "Hello" demo_manager demo_workstream
              eq_refl Hne) as (m' & effs & ws' & Hrun & Hws' & Hact & _ & Hlast & _).
  exists m', effs, ws'. by split_and!.
Defined.

(** *** Prompts *)

(** X24: [sendPrompt] and [startTask] need a connected workstream:
    [startTask] throws [Workstream not found] for an id that is not in
    the table, and both throw [Workstream not connected] when the
    workstream has no client or no session id (or the empty one). *)
Theorem prompt_requires_connection (amb : Ambient) (w prompt : string) (reply : FetchReply)
    (m : WorkstreamManager)
    (Hoff : clients m !! w = None \/ string_truthy (acpSessionIds m !! w) = false) :
  sendPrompt_begin amb w prompt reply m = Throw (Error "Workstream not connected") /\
  startTask_begin amb w reply m =
    Throw (Error (if bool_decide (is_Some (workstreams m !! w))
                  then "Workstream not connected" else "Workstream not found")).
Proof.
  assert (forall p, sendPrompt_begin amb w p reply m = Throw (Error "Workstream not connected")) as Hs.
  { intros p. unfold sendPrompt_begin. destruct (clients m !! w); [|done].
    destruct Hoff as [? | ->]; done. }
  split; [apply Hs|]. unfold startTask_begin.
  destruct (workstreams m !! w); [apply Hs | done].
Qed.

Lemma prompt_requires_connection_witness :
  clients demo_manager !! "w1" = None /\
  sendPrompt_begin (at_time 2) "w1" "go" (HttpReply true "OK") demo_manager =
    Throw (Error "Workstream not connected") /\
  startTask_begin (at_time 2) "w9" (HttpReply true "OK") demo_manager =
    Throw (Error "Workstream not found").
Proof.
  split; [reflexivity|].
  split.
  - exact (proj1 (prompt_requires_connection (at_time 2) "w1" "go" (HttpReply true "OK")
                    demo_manager (or_introl eq_refl))).
  - exact (proj2 (prompt_requires_connection (at_time 2) "w9" "go" (HttpReply true "OK")
                    demo_manager (or_introl eq_refl))).
Defined.



(** X26: When the answer to [session/prompt] arrives the state of the
    workstream is left as it is, and its activity becomes [Idle] only if
    it is still [running]; when the request is rejected the workstream
    goes to [error] and every observer gets one [error] event with the
    message. *)
Theorem prompt_settled (amb : Ambient) (w : string) (m : WorkstreamManager) (ws : Workstream)
    (Hws : workstreams m !! w = Some ws) :
  (forall value,
     exists ws',
       workstreams (fst (sendPrompt_settled amb w (Ok value) m)) !! w = Some ws' /\
       snd (sendPrompt_settled amb w (Ok value) m) = [] /\
       status ws' = status ws /\
       currentActivity ws' =
         (if is_running (status ws) then "Idle - awaiting next instruction"
          else currentActivity ws)) /\
  (forall e,
     exists ws',
       workstreams (fst (sendPrompt_settled amb w (Throw e) m)) !! w = Some ws' /\
       snd (sendPrompt_settled amb w (Throw e) m) =
         map (fun h => Delivered h w (error_event (error_message e))) (eventHandlers m) /\
       status ws' = error /\ currentActivity ws' = "Error: " +:+ error_message e).
Proof.
  split.
  - intros value. unfold sendPrompt_settled. rewrite Hws.
    destruct (is_running (status ws)); simpl; [|by exists ws].
    rewrite (updateWorkstream_lookup _ _ _ _ _ Hws). by eexists.
  - intros e. unfold sendPrompt_settled, sendPrompt_failed, emit. simpl.
    rewrite (updateWorkstream_lookup _ _ _ _ _ Hws), updateWorkstream_eventHandlers. by eexists.
Qed.

Lemma prompt_settled_witness :
  workstreams demo_waiting !! "w1" <> None /\
  (status <$> workstreams (fst (sendPrompt_settled (at_time 8) "w1" (Ok VNull) demo_waiting)) !! "w1")
    = Some waiting.
Proof.
  split; [discriminate|].
  destruct (workstreams demo_waiting !! "w1") as [ws|] eqn:Hws; [|discriminate Hws].
  destruct (proj1 (prompt_settled (at_time 8) "w1" demo_waiting ws Hws) VNull)
    as (ws' & -> & _ & Hst & _).
  simpl. rewrite Hst. f_equal. revert Hws. vm_compute. by intros [= <-].
Defined.

(** *** Provisioning and queries *)

Section Provisioning.

Context {World : Type} {H : Worktree.Host World}.

(** X27: What [createWorkstream] has built when it turns to the server: a
    record in state [starting] under the sanitized name, whose branch is
    set exactly when its path is. When the provider created the working
    copy, the record has the path [<worktreesDir>/<name>] and the branch
    [goose/<name>], no notification, and no observer was called. When
    [createWorktree] threw, the record has neither path nor branch and
    exactly one notification, the [error] notification
    [Worktree Creation Failed] with the message of the thrown error,
    and every observer got that notification once, in order. Without a
    provider, or outside a repository, the record has neither path nor
    branch nor notification and the repository is as [isGitRepo] left
    it. *)
Theorem prepared_workstream (amb0 amb amb' : Ambient) (name task : string)
    (m : WorkstreamManager) (world : World) :
  let prepared := createWorkstream_prepare amb0 amb amb' name task m world in
  let bare ws := worktreePath ws = None /\ branchName ws = None /\ notifications ws = [] /\
                 snd (snd prepared) = [] in
  exists ws,
    workstreams (fst (snd prepared)) !! uuid amb0 = Some ws /\
    Manager.name ws = sanitizedName name /\ status ws = starting /\ messageHistory ws = [] /\
    W3 ws /\
    match worktreeManager m with
    | None => bare ws /\ fst prepared = world
    | Some wm =>
        match Worktree.isGitRepo wm world with
        | (world1, Ok true) =>
            match Worktree.createWorktree (sanitizedName name) None wm world1 with
            | (world2, Ok _) =>
                worktreePath ws =
                  Some (Worktree.path_join (Worktree.worktreesDir wm) (sanitizedName name)) /\
                branchName ws = Some ("goose/" +:+ sanitizedName name) /\
                notifications ws = [] /\ snd (snd prepared) = [] /\ fst prepared = world2
            | (world2, Throw e) =>
                let n := {| n_id := uuid amb'; n_type := error_notification;
                            n_title := "Worktree Creation Failed"; n_message := error_message e;
                            n_timestamp := now amb'; n_read := false;
                            n_workstreamId := uuid amb0 |} in
                worktreePath ws = None /\ branchName ws = None /\
                notifications ws = [n] /\
                snd (snd prepared) =
                  map (fun h => Delivered h (uuid amb0) (notification n)) (eventHandlers m) /\
                fst prepared = world2
            end
        | (world1, _) => bare ws /\ fst prepared = world1
        end
    end.
Proof.
  cbv zeta. unfold createWorkstream_prepare, createWorkstream_register, createWorkstream_provision.
  cbn [id Manager.name fst snd worktreeManager set_activeTools set_workstreams].
  set (ws0 := {| id := uuid amb0; name := sanitizedName name |}).
  set (m0 := set_activeTools _ _).
  assert (workstreams m0 !! uuid amb0 = Some ws0) as Hws0 by apply lookup_insert_eq.
  assert (W3 ws0) as HW3 by (split; intros [? [=]]).
  destruct (worktreeManager m) as [wm|] eqn:Hwm.
  2: { exists ws0. by split_and!. }
  destruct (Worktree.isGitRepo wm world) as [world1 [[]|e]].
  2,3: exists ws0; by split_and!.
  set (m1 := updateWorkstream (now amb) (uuid amb0) _ m0).
  assert (workstreams m1 !! uuid amb0 =
            Some (assign ws0 (activity_only "Creating git worktree...") (now amb))) as Hws1
    by (by apply updateWorkstream_lookup).
  destruct (Worktree.createWorktree (sanitizedName name) None wm world1)
    as [world2 [info|e]] eqn:Hcreate.
  - assert (Worktree.path info = Worktree.path_join (Worktree.worktreesDir wm) (sanitizedName name) /\
            Worktree.branch info = "goose/" +:+ sanitizedName name) as [Hpath Hbranch].
    { unfold Worktree.createWorktree in Hcreate.
      do 7 (apply seq_returns in Hcreate as (? & ? & _ & Hcreate)).
      unfold Worktree.ret in Hcreate. by injection Hcreate as _ <-. }
    eexists. cbn [fst snd]. split; [by apply updateWorkstream_lookup|].
    split; [reflexivity|]. split; [reflexivity|]. split; [reflexivity|].
    split; [unfold W3; simpl; split; intros _; eauto|].
    simpl. rewrite Hpath, Hbranch. by split_and!.
  - unfold addNotification. cbn [fst snd]. rewrite Hws1.
    eexists. split; [simpl; apply lookup_insert_eq|].
    split; [reflexivity|]. split; [reflexivity|]. split; [reflexivity|].
    split; [unfold W3; simpl; split; intros [? [=]]|].
    split; [reflexivity|]. split; [reflexivity|]. split; [reflexivity|].
    split; [|reflexivity]. unfold emit. simpl.
    subst m1. by rewrite updateWorkstream_eventHandlers.
Qed.

(** X28: The queries of the coordinator on the working copy of a workstream
    never throw; for an id that is not in the table, a workstream
    without a working copy, or a coordinator without a provider they
    answer the empty string, the empty string and [false] without
    running any command. *)
Theorem queries_without_working_copy (w msg : string) (m : WorkstreamManager) (world : World) :
  (exists world' diff, getWorkstreamDiff w m world = (world', Ok diff)) /\
  (exists world' st, getWorkstreamStatus w m world = (world', Ok st)) /\
  (exists world' done, commitWorkstreamChanges w msg m world = (world', Ok done)) /\
  (workstreams m !! w = None \/ worktreeManager m = None \/
   string_truthy (workstreams m !! w ≫= worktreePath) = false ->
   getWorkstreamDiff w m world = (world, Ok EmptyString) /\
   getWorkstreamStatus w m world = (world, Ok EmptyString) /\
   commitWorkstreamChanges w msg m world = (world, Ok false)).
Proof.
  unfold getWorkstreamDiff, getWorkstreamStatus, commitWorkstreamChanges.
  split_and!.
  - destruct (workstreams m !! w) as [ws|]; [|by eexists _, _].
    destruct (worktreeManager m) as [wm|]; [|by eexists _, _].
    destruct (string_truthy (worktreePath ws)); [|by eexists _, _].
    apply WorktreeFacts.try_catch_returns.
  - destruct (workstreams m !! w) as [ws|]; [|by eexists _, _].
    destruct (worktreeManager m) as [wm|]; [|by eexists _, _].
    destruct (string_truthy (worktreePath ws)); [|by eexists _, _].
    apply WorktreeFacts.try_catch_returns.
  - destruct (workstreams m !! w) as [ws|]; [|by eexists _, _].
    destruct (worktreeManager m) as [wm|]; [|by eexists _, _].
    destruct (string_truthy (worktreePath ws)); [|by eexists _, _].
    apply WorktreeFacts.try_catch_returns.
  - intros Hskip.
    destruct (workstreams m !! w) as [ws|]; [|done]. simpl in Hskip.
    destruct (worktreeManager m) as [wm|]; [|done].
    destruct Hskip as [? | [? | ->]]; done.
Qed.

End Provisioning.

Lemma prepared_workstream_witness :
  exists ws,
    workstreams (fst (snd (createWorkstream_prepare (H := Worktree.locked_git)
                             {| now := 0; uuid := "w2" |} (at_time 1) (at_time 2)
                             "Fix X" "do it" demo_manager Worktree.sim_empty))) !! "w2" = Some ws /\
    snd (Worktree.createWorktree (H := Worktree.locked_git) "fix-x" None Worktree.sim_manager
           (fst (Worktree.isGitRepo (H := Worktree.locked_git) Worktree.sim_manager Worktree.sim_empty))) =
      Throw (Error ("Command failed: " +:+
                    Worktree.worktree_add_command "/repo/.goose-worktrees/fix-x" "goose/fix-x")) /\
    worktreePath ws = None /\
    map n_message (notifications ws) =
      ["Command failed: " +:+ Worktree.worktree_add_command "/repo/.goose-worktrees/fix-x" "goose/fix-x"] /\
    snd (snd (createWorkstream_prepare (H := Worktree.locked_git)
                {| now := 0; uuid := "w2" |} (at_time 1) (at_time 2)
                "Fix X" "do it" demo_manager Worktree.sim_empty)) =
      [Delivered 7%nat "w2" (notification
         {| n_id := "n"; n_type := error_notification; n_title := "Worktree Creation Failed";
            n_message := "Command failed: " +:+
                         Worktree.worktree_add_command "/repo/.goose-worktrees/fix-x" "goose/fix-x";
            n_timestamp := 2; n_read := false; n_workstreamId := "w2" |})].
Proof.
  destruct (prepared_workstream (H := Worktree.locked_git) {| now := 0; uuid := "w2" |}
              (at_time 1) (at_time 2) "Fix X" "do it" demo_manager Worktree.sim_empty)
    as (ws & Hws & _ & _ & _ & _ & Hcase).
  exists ws. split; [exact Hws|]. split; [vm_compute; reflexivity|].
  change (worktreeManager demo_manager) with (Some Worktree.sim_manager) in Hcase.
  cbv iota beta in Hcase.
  change (Worktree.isGitRepo (H := Worktree.locked_git) Worktree.sim_manager Worktree.sim_empty)
    with (Worktree.sim_run "git rev-parse --git-dir" Worktree.sim_empty, Ok true) in Hcase.
  cbv iota beta in Hcase.
  let run := constr:(Worktree.createWorktree (H := Worktree.locked_git) (sanitizedName "Fix X") None
                       Worktree.sim_manager
                       (Worktree.sim_run "git rev-parse --git-dir" Worktree.sim_empty)) in
  let r := eval vm_compute in run in
  change run with r in Hcase.
  cbv iota beta zeta in Hcase.
  destruct Hcase as (Hpath & _ & Hn & Heffs & _).
  split; [exact Hpath|]. split; [rewrite Hn; reflexivity | exact Heffs].
Defined.

Lemma queries_without_working_copy_witness :
  string_truthy (workstreams demo_manager !! "w1" ≫= worktreePath) = false /\
  getWorkstreamDiff (H := Worktree.failing_git) "w1" demo_manager Worktree.sim_empty = (Worktree.sim_empty, Ok EmptyString) /\
  commitWorkstreamChanges (H := Worktree.failing_git) "w1" "wip" demo_manager Worktree.sim_empty = (Worktree.sim_empty, Ok false).
Proof.
  split; [reflexivity|].
  destruct (proj2 (proj2 (proj2
              (queries_without_working_copy (H := Worktree.failing_git) "w1" "wip" demo_manager Worktree.sim_empty)))
              (or_intror (or_intror eq_refl))) as (Hd & _ & Hc).
  by split.
Defined.

(** *** Observers *)

Lemma remove_first_snoc h l : h ∉ l -> remove_first h (l ++ [h]) = l.
Proof.
  induction l as [|x l IH]; intros Hh; simpl.
  - by rewrite Nat.eqb_refl.
  - apply not_elem_of_cons in Hh as [Hne Hh].
    destruct (Nat.eqb x h) eqn:He; [apply Nat.eqb_eq in He; congruence|].
    by rewrite IH.
Qed.

(** X29: Observers are called in the order of their registration: a new
    observer is called after those already there, and once it is
    deregistered the coordinator calls exactly the observers it called
    before. *)
Theorem observers_in_order (h : handler) (w : string) (ev : WorkstreamEvent) (m : WorkstreamManager)
    (Hnew : h ∉ eventHandlers m) :
  emit (onEvent h m) w ev = emit m w ev ++ [Delivered h w ev] /\
  eventHandlers (offEvent h (onEvent h m)) = eventHandlers m /\
  emit (offEvent h (onEvent h m)) w ev = emit m w ev.
Proof.
  unfold emit, onEvent, offEvent. simpl. rewrite map_app, remove_first_snoc by done. done.
Qed.

Lemma observers_in_order_witness :
  (9%nat ∉ eventHandlers demo_manager) /\
  snd (pauseWorkstream (at_time 5) "w1" (onEvent 9%nat demo_manager)) =
    [Delivered 7%nat "w1" (status_change paused None); Delivered 9%nat "w1" (status_change paused None)].
Proof.
  assert (9%nat ∉ eventHandlers demo_manager) as Hnew.
  { simpl. intros Hin. apply list_elem_of_singleton in Hin. discriminate. }
  split; [exact Hnew|].
  pose proof (proj1 (observers_in_order 9%nat "w1" (status_change paused None)
                       (updateWorkstream 5 "w1" (status_and_activity paused "Paused by user")
                          demo_manager) Hnew)) as Hemit.
  exact Hemit.
Defined.

Lemma coordinator_keeps_invariants_witness :
  coordinator_inv (new_WorkstreamManager (H := Worktree.failing_git) demo_config) /\
  exists world' effs,
    run_actions (H := Worktree.failing_git)
      [Subscribe 7%nat; Register {| now := 0; uuid := "w1" |} "fix-x" "do it";
       PermissionRequest (at_time 3) "w1" permission_request_42;
       Inbound (at_time 4) "w1" (agent_message_chunk "s1" (Some "Hel"));
       Stop "w1" false]
      (new_WorkstreamManager (H := Worktree.failing_git) demo_config)
      Worktree.sim_empty = Some (world', (demo_stopped, effs)) /\
    coordinator_inv demo_stopped /\
    permissionResolvers demo_stopped !! "w1" = Some {| resolves := Some (inl 42) |}.
Proof.
  pose proof (coordinator_keeps_invariants (H := Worktree.failing_git) demo_config
                [Subscribe 7%nat; Register {| now := 0; uuid := "w1" |} "fix-x" "do it";
                 PermissionRequest (at_time 3) "w1" permission_request_42;
                 Inbound (at_time 4) "w1" (agent_message_chunk "s1" (Some "Hel"));
                 Stop "w1" false]
                (new_WorkstreamManager (H := Worktree.failing_git) demo_config)
                Worktree.sim_empty) as (Hnew & Hkeep & Hruns).
  split; [exact Hnew|].
  destruct (Hruns eq_refl) as [[world' [m' effs]] Hrun].
  pose proof (Hkeep _ _ _ Hnew Hrun) as Hinv.
  assert (m' = demo_stopped) as ->.
  { revert Hrun. vm_compute. by intros [= _ <- _]. }
  exists world', effs. split; [exact Hrun|]. split; [exact Hinv | reflexivity].
Defined.

Lemma inbound_message_isolated_witness :
  exists m' effs,
    handleAcpMessage (at_time 1) "w1"
      (tool_call_message "s1" (Some "t1") (Some "run") (Some "pending")) demo_waiting
      = Done (m', effs) /\
    permissionResolvers m' = permissionResolvers demo_waiting /\
    Forall (delivered_to "w1") effs.
Proof.
  destruct (handleAcpMessage (at_time 1) "w1"
              (tool_call_message "s1" (Some "t1") (Some "run") (Some "pending")) demo_waiting)
    as [[m' effs]|e|] eqn:Hrun; [|discriminate Hrun|discriminate Hrun].
  destruct (inbound_message_isolated _ _ _ _ _ _ Hrun) as [Hse Hd].
  exists m', effs. split_and!; [done | by destruct Hse | done].
Defined.

End ManagerMore.
